(** * ocspd: the scheduler, the certificate context and the renewer,
    embedded in Rocq

    A shallow embedding of [core/scheduling.py], [core/certcontext.py] and
    [core/ocsprenewer.py].

    Python objects are mutable and shared, so every method is a function
    from a store to a store and an outcome; a raised exception leaves the
    mutations made before it in place, exactly as in Python.  The clock,
    the HTTP responders, the URL parser, the OCSP response parser, the
    request builder,
    the PEM and X.509 decoders and the path validator are outside the
    repository: they are parameters of the model.

    Threads are not modelled: [SchedulerThread.run] is one call of [_run]
    per second without end, and a call that would wait ([Queue.put] on a
    full queue) is the outcome [Blocks]. *)

From Stdlib Require Import ZArith Lia.
From Stdlib.Strings Require Import Byte.
From stdpp Require Import gmap strings list fin_maps.

Local Open Scope Z_scope.

(** ** Python exceptions and outcomes of a call *)

Inductive exn : Type :=
| KeyError (msg : string)
| AttributeError (msg : string)
| TypeError (msg : string)
| IndexError (msg : string)
| NameError (msg : string)
| UnboundLocalError (msg : string)
| ValueError (msg : string)
| CertValidationError (msg : string)
| OCSPRenewError (msg : string)
| IOError (msg : string).

(** A call returns, raises, or never comes back ([Queue.put] on a full
    bounded queue waits for a consumer). *)
Inductive outcome (A : Type) : Type :=
| Returns (a : A)
| Raises (e : exn)
| Blocks.
Arguments Returns {A} a.
Arguments Raises {A} e.
Arguments Blocks {A}.

(** [datetime.datetime] as a count of microseconds; a [timedelta] is a
    difference of two of them. *)
Definition datetime : Type := Z.
Definition timedelta : Type := Z.

Definition timedelta_of_seconds (n : Z) : timedelta := n * 1000000.

(** [timedelta.seconds]: the seconds field of the normalised
    (days, seconds, microseconds) triple, between 0 and 86399. *)
Definition timedelta_seconds (d : timedelta) : Z := (d / 1000000) mod 86400.

(** ** Insertion-ordered dictionaries keyed by time

    [SchedulerThread.schedule] is iterated ([list(self.schedule)]), so the
    order of its keys is observable: it is an association list with the
    behaviour of a Python [dict].  A stored key keeps its position when
    its value is replaced, a new key goes to the end. *)
Module PyDict.
Section Dict.
Context {V : Type}.

Definition t : Type := list (datetime * V).

Fixpoint get (k : datetime) (d : t) : option V :=
  match d with
  | [] => None
  | (k', v) :: d' => if Z.eqb k k' then Some v else get k d'
  end.

Definition mem (k : datetime) (d : t) : bool :=
  match get k d with Some _ => true | None => false end.

Fixpoint set (k : datetime) (v : V) (d : t) : t :=
  match d with
  | [] => [(k, v)]
  | (k', v') :: d' =>
      if Z.eqb k k' then (k', v) :: d' else (k', v') :: set k v d'
  end.

Fixpoint remove (k : datetime) (d : t) : t :=
  match d with
  | [] => []
  | (k', v') :: d' => if Z.eqb k k' then d' else (k', v') :: remove k d'
  end.

(** [d.pop(k)]: the value and the dictionary without the key, [None]
    where Python raises [KeyError]. *)
Definition pop (k : datetime) (d : t) : option (V * t) :=
  match get k d with
  | Some v => Some (v, remove k d)
  | None => None
  end.

Definition keys (d : t) : list datetime := map fst d.
End Dict.
Arguments t V : clear implicits.
End PyDict.

(** ** core/scheduling.py *)
Module Scheduling.

(** Contexts are compared and hashed by identity (the class defines
    neither [__eq__] nor [__hash__]): a context is its address. *)
Definition ctx_ref : Type := positive.

(** The value of [ctx.sched_time]: [None], a relative number of seconds
    or an absolute time. *)
Inductive sched_time_t : Type :=
| ST_None
| ST_Int (seconds : Z)
| ST_Datetime (at_time : datetime).

(** Truth value of a [sched_time]: [None] and [0] are false, a
    [datetime] is always true. *)
Definition truthy (s : sched_time_t) : bool :=
  match s with
  | ST_None => false
  | ST_Int n => negb (Z.eqb n 0)
  | ST_Datetime _ => true
  end.

(** The back reference [ctx.scheduler]. *)
Inductive sched_ref : Type := TheScheduler.

Record ScheduledTaskContext : Type := mkContext {
  scheduler : option sched_ref;
  task : string;
  name : option string;
  sched_time : sched_time_t
}.

(** [ScheduledTaskContext(task, sched_time, name)], without extra
    attributes. *)
Definition ScheduledTaskContext_init
    (task0 : string) (when : sched_time_t) (name0 : option string)
  : ScheduledTaskContext :=
  {| scheduler := None; task := task0; name := name0; sched_time := when |}.

(** [queue.Queue(max_size)]; a [maxsize] of 0 or less is unbounded. *)
Record Queue : Type := mkQueue {
  maxsize : Z;
  items : list ctx_ref
}.

Definition Queue_full (q : Queue) : bool :=
  (0 <? maxsize q) && (maxsize q <=? Z.of_nat (length (items q))).

Record SchedulerThread : Type := mkScheduler {
  _queues : gmap string Queue;
  schedule : PyDict.t (list ctx_ref);
  scheduled : gmap ctx_ref datetime
}.

Inductive late_text : Type :=
| LateNone
| LateSeconds (n : Z).

(** The records handed to [LOG]. *)
Inductive log_record : Type :=
| Warning_already_scheduled (ctx : ctx_ref)
| Warning_cant_unschedule (ctx : ctx_ref)
| Info_scheduled (ctx : ctx_ref) (at_time : datetime)
| Info_adding (ctx : ctx_ref) (queue_name : string)
| Debug_queued (ctx : ctx_ref) (now : datetime) (late : late_text).

(** The store: the context objects by address, the scheduler, the log
    (oldest record first) and the number of clock readings so far. *)
Record world : Type := mkWorld {
  ctxs : ctx_ref -> ScheduledTaskContext;
  sched : SchedulerThread;
  log : list log_record;
  clock_reads : nat
}.

Definition M (A : Type) : Type := world -> world * outcome A.

Definition ret {A} (a : A) : M A := fun w => (w, Returns a).
Definition raise {A} (e : exn) : M A := fun w => (w, Raises e).
Definition bind {A B} (m : M A) (k : A -> M B) : M B :=
  fun w =>
    match m w with
    | (w', Returns a) => k a w'
    | (w', Raises e) => (w', Raises e)
    | (w', Blocks) => (w', Blocks)
    end.

Notation "x <- m ;; k" := (bind m (fun x => k))
  (at level 100, m at next level, right associativity).
Notation "m ;;; k" := (bind m (fun _ => k))
  (at level 100, right associativity).

Definition get_ctx (c : ctx_ref) : M ScheduledTaskContext :=
  fun w => (w, Returns (ctxs w c)).

Definition get_sched : M SchedulerThread := fun w => (w, Returns (sched w)).

Definition put_sched (s : SchedulerThread) : M unit :=
  fun w =>
    ({| ctxs := ctxs w; sched := s; log := log w;
        clock_reads := clock_reads w |}, Returns tt).

Definition set_ctx (c : ctx_ref) (v : ScheduledTaskContext) : M unit :=
  fun w =>
    ({| ctxs := fun c' => if Pos.eqb c' c then v else ctxs w c';
        sched := sched w; log := log w; clock_reads := clock_reads w |},
     Returns tt).

Definition LOG (r : log_record) : M unit :=
  fun w =>
    ({| ctxs := ctxs w; sched := sched w; log := log w ++ [r];
        clock_reads := clock_reads w |}, Returns tt).

Section WithClock.
(** [clock n] is what the [n]-th call of [datetime.datetime.now()]
    returns. *)
Variable clock : nat -> datetime.

Definition datetime_now : M datetime :=
  fun w =>
    ({| ctxs := ctxs w; sched := sched w; log := log w;
        clock_reads := S (clock_reads w) |},
     Returns (clock (clock_reads w))).

(** [SchedulerThread.add_queue] *)
Definition add_queue (task0 : string) (max_size : Z) : M unit :=
  s <- get_sched ;;
  match _queues s !! task0 with
  | Some _ => raise (KeyError "This queue is already taken.")
  | None =>
      put_sched {| _queues := <[task0 := mkQueue max_size []]> (_queues s);
                   schedule := schedule s; scheduled := scheduled s |}
  end.

(** [SchedulerThread._queue_task] *)
Definition _queue_task (ctx : ctx_ref) : M unit :=
  c <- get_ctx ctx ;;
  s <- get_sched ;;
  match _queues s !! task c with
  | None => raise (KeyError "Queue for task {} might not exist.")
  | Some q =>
      if Queue_full q then fun w => (w, Blocks)
      else
        put_sched
          {| _queues :=
               <[task c := mkQueue (maxsize q) (items q ++ [ctx])]>
                 (_queues s);
             schedule := schedule s; scheduled := scheduled s |}
  end.

(** [SchedulerThread.cancel_task].  Both [KeyError]s of the [try]
    block end in the same handler; the second one comes after the
    [pop], which is not undone. *)
Definition cancel_task (ctx : ctx_ref) : M bool :=
  s <- get_sched ;;
  match scheduled s !! ctx with
  | None => LOG (Warning_cant_unschedule ctx) ;;; ret false
  | Some when =>
      let popped := delete ctx (scheduled s) in
      match PyDict.get when (schedule s) with
      | None =>
          put_sched {| _queues := _queues s; schedule := schedule s;
                       scheduled := popped |} ;;;
          LOG (Warning_cant_unschedule ctx) ;;; ret false
      | Some slot =>
          (* slot[:] = [x for x in slot if x is ctx] *)
          let slot' := List.filter (fun x => Pos.eqb x ctx) slot in
          put_sched {| _queues := _queues s;
                       schedule := PyDict.set when slot' (schedule s);
                       scheduled := popped |} ;;;
          ret true
      end
  end.

(** [ctx.sched_time in self.schedule]: the keys are [datetime]s, so an
    [int] or [None] is never among them. *)
Definition sched_time_in (s : sched_time_t) (d : PyDict.t (list ctx_ref))
  : bool :=
  match s with
  | ST_Datetime t => PyDict.mem t d
  | _ => false
  end.

(** [SchedulerThread.add_task] *)
Definition add_task (ctx : ctx_ref) : M unit :=
  c <- get_ctx ctx ;;
  set_ctx ctx {| scheduler := Some TheScheduler; task := task c;
                 name := name c; sched_time := sched_time c |} ;;;
  if negb (truthy (sched_time c)) then _queue_task ctx
  else
    when <- match sched_time c with
            | ST_Int n =>
                now <- datetime_now ;; ret (now + timedelta_of_seconds n)
            | ST_Datetime t => ret t
            | ST_None => ret 0
            end ;;
    s <- get_sched ;;
    (match scheduled s !! ctx with
     | Some _ =>
         LOG (Warning_already_scheduled ctx) ;;;
         _ <- cancel_task ctx ;; ret tt
     | None => ret tt
     end) ;;;
    s <- get_sched ;;
    put_sched {| _queues := _queues s; schedule := schedule s;
                 scheduled := <[ctx := when]> (scheduled s) |} ;;;
    s <- get_sched ;;
    (if sched_time_in (sched_time c) (schedule s) then
       match PyDict.get when (schedule s) with
       | Some slot =>
           put_sched {| _queues := _queues s;
                        schedule :=
                          PyDict.set when (slot ++ [ctx]) (schedule s);
                        scheduled := scheduled s |}
       | None => raise (KeyError "schedule[sched_time]")
       end
     else
       put_sched {| _queues := _queues s;
                    schedule := PyDict.set when [ctx] (schedule s);
                    scheduled := scheduled s |}) ;;;
    match sched_time c with
    | ST_Datetime t => LOG (Info_scheduled ctx t)
    | _ => raise (AttributeError "'int' object has no attribute 'strftime'")
    end.

(** Arguments of a method call, after [self]. *)
Inductive pyarg : Type :=
| ArgCtx (ctx : ctx_ref)
| ArgTime (when : sched_time_t).

(** Calling the bound method [scheduler.add_task]: its signature is
    [add_task(self, ctx)], any other number of positional arguments
    raises [TypeError] before the body runs. *)
Definition call_add_task (args : list pyarg) : M unit :=
  match args with
  | [ArgCtx ctx] => add_task ctx
  | _ =>
      raise (TypeError
               "add_task() takes 2 positional arguments but 3 were given")
  end.

(** [ScheduledTaskContext.reschedule] *)
Definition reschedule (self : ctx_ref) (when : sched_time_t) : M unit :=
  fun w =>
    let attempt : M unit :=
      c <- get_ctx self ;;
      match scheduler c with
      | None =>
          raise (AttributeError
                   "'NoneType' object has no attribute 'add_task'")
      | Some TheScheduler => call_add_task [ArgCtx self; ArgTime when]
      end in
    match attempt w with
    | (w', Raises (AttributeError _)) =>
        (w', Raises (AttributeError
                       "This context was never added to a queue before."))
    | r => r
    end.

(** The body of the inner loop of [_run]. *)
Definition promote (now when : datetime) (ctx : ctx_ref) : M unit :=
  c <- get_ctx ctx ;;
  LOG (Info_adding ctx (task c)) ;;;
  s <- get_sched ;;
  match scheduled s !! ctx with
  | None => raise (KeyError "del self.scheduled[ctx]")
  | Some _ =>
      put_sched {| _queues := _queues s; schedule := schedule s;
                   scheduled := delete ctx (scheduled s) |} ;;;
      _queue_task ctx ;;;
      now' <- datetime_now ;;
      let late := timedelta_seconds (now' - when) in
      if late <? 1 then LOG (Debug_queued ctx now LateNone)
      else if (1 <? late) && (late <? 59) then
        LOG (Debug_queued ctx now (LateSeconds late))
      else
        raise (AttributeError
                 "'datetime.timedelta' object has no attribute 'strftime'")
  end.

Fixpoint promote_all (now when : datetime) (l : list ctx_ref) : M unit :=
  match l with
  | [] => ret tt
  | ctx :: l' => promote now when ctx ;;; promote_all now when l'
  end.

Fixpoint run_slots (now : datetime) (todo : list datetime) : M unit :=
  match todo with
  | [] => ret tt
  | when :: todo' =>
      s <- get_sched ;;
      match PyDict.pop when (schedule s) with
      | None => raise (KeyError "self.schedule.pop(sched_time)")
      | Some (slot, rest) =>
          put_sched {| _queues := _queues s; schedule := rest;
                       scheduled := scheduled s |} ;;;
          promote_all now when slot ;;;
          run_slots now todo'
      end
  end.

(** [SchedulerThread._run] *)
Definition _run (all_tasks : bool) : M unit :=
  now <- datetime_now ;;
  s <- get_sched ;;
  let todo :=
    if all_tasks then PyDict.keys (schedule s)
    else List.filter (fun x => x <=? now) (PyDict.keys (schedule s)) in
  run_slots now todo.

Definition run_all : M unit := _run true.

End WithClock.

(** A fresh scheduler ([SchedulerThread()]) and a store holding it. *)
Definition SchedulerThread_init : SchedulerThread :=
  {| _queues := ∅; schedule := []; scheduled := ∅ |}.

Definition world_init (objs : ctx_ref -> ScheduledTaskContext) : world :=
  {| ctxs := objs; sched := SchedulerThread_init; log := [];
     clock_reads := 0 |}.

(** What is waiting in a named queue. *)
Definition queued (w : world) (task0 : string) : list ctx_ref :=
  match _queues (sched w) !! task0 with
  | Some q => items q
  | None => []
  end.

(** Assigning [ctx.sched_time], as a caller does between two
    [add_task]s. *)
Definition set_sched_time (ctx : ctx_ref) (when : sched_time_t) : M unit :=
  c <- get_ctx ctx ;;
  set_ctx ctx {| scheduler := scheduler c; task := task c; name := name c;
                 sched_time := when |}.

End Scheduling.


(** ** core/certcontext.py *)
Module Certcontext.

Definition bytes : Type := list byte.

(** What the model keeps of an [asn1crypto.x509.Certificate]. *)
Record Certificate : Type := mkCertificate {
  cert_der : bytes;
  ca : bool;
  cert_ocsp_urls : list string
}.

(** The object [util.ocsp.OCSPResponseParser] builds from a response
    body: the attributes the context reads. *)
Record OCSPResponse : Type := mkOCSPResponse {
  status : string;
  staple_valid_until : datetime;
  data : bytes
}.

Record CertContext : Type := mkCertContext {
  filename : string;
  hash : string;
  modtime : Z;
  end_entity : option Certificate;
  intermediates : list Certificate;
  ocsp_staple : option OCSPResponse;
  ocsp_request : option bytes;
  ocsp_urls : list string;
  chain : list Certificate;
  valid_until : option datetime
}.

(** The exceptions [requests.post] raises that the retry loop names. *)
Inductive post_exn : Type :=
| URLError
| Timeout
| TooManyRedirects
| ConnectionError.

(** A [requests.Response]: whether [raise_for_status()] passes, and the
    body.  The object has [status_code] and no attribute [status]. *)
Record Response : Type := mkResponse {
  raise_for_status_ok : bool;
  content : bytes
}.

Inductive http_outcome : Type :=
| HttpResponse (r : Response)
| HttpRaises (e : post_exn).

(** The errors of [certvalidator]; [ValidatorTypeError] is the
    [TypeError] that [parse_crt_chain] expects from it. *)
Inductive validation_error : Type :=
| PathBuildingError
| PathValidationError
| RevokedError
| InvalidCertificateError
| ValidatorTypeError.

(** One step of iterating [asn1crypto.pem.unarmor(..., multiple=True)]:
    a block (type name and DER bytes) or an exception. *)
Inductive pem_item : Type :=
| PemBlock (type_name : string) (der_bytes : bytes)
| PemBinasciiError
| PemValueError.

Inductive level : Type := DEBUG | INFO | WARNING | ERROR.

Inductive log_msg : Type :=
| Msg_request_data (request : bytes)
| Msg_trying_url (url : string)
| Msg_connection_problem
| Msg_timeout_error
| Msg_too_many_redirects
| Msg_connection_error
| Msg_response_data (body : bytes)
| Msg_good_response (url : string) (until : datetime)
| Msg_cant_get_status (url : string)
| Msg_retrying_in (seconds : Z)
| Msg_validating_staple
| Msg_validating_without_staple
| Msg_validating_with_staple
| Msg_chain_validated
| Msg_writing_to_file (path : string)
| Msg_found_chain_part
| Msg_found_end_entity
| Msg_file_contains_errors
| Msg_no_server_certificate
| Msg_no_ca_chain.

(** Everything a call does to the outside, in order. *)
Inductive event : Type :=
| EvLog (lvl : level) (msg : log_msg)
| EvPost (url : string) (request : bytes) (result : http_outcome)
| EvSleep (seconds : Z)
| EvValidate (ocsps : list bytes) (allow_fetching : bool)
    (result : validation_error + list Certificate)
| EvRead (path : string)
| EvOpen (path : string)
| EvWrite (path : string) (body : bytes)
| EvClose (path : string).

(** The store: the context object, the files, and how many POSTs have
    been sent. *)
Record state : Type := mkState {
  self : CertContext;
  fs : gmap string bytes;
  posts : nat
}.

(** A method: the new store, the events of the call, and its outcome. *)
Definition M (A : Type) : Type := state -> state * list event * outcome A.

Definition ret {A} (a : A) : M A := fun st => (st, [], Returns a).
Definition raise {A} (e : exn) : M A := fun st => (st, [], Raises e).
Definition bind {A B} (m : M A) (k : A -> M B) : M B :=
  fun st =>
    match m st with
    | (st1, ev1, Returns a) =>
        match k a st1 with
        | (st2, ev2, r) => (st2, ev1 ++ ev2, r)
        end
    | (st1, ev1, Raises e) => (st1, ev1, Raises e)
    | (st1, ev1, Blocks) => (st1, ev1, Blocks)
    end.

Notation "x <- m ;; k" := (bind m (fun x => k))
  (at level 100, m at next level, right associativity).
Notation "m ;;; k" := (bind m (fun _ => k))
  (at level 100, right associativity).

Definition emit (e : event) : M unit := fun st => (st, [e], Returns tt).
Definition LOG (lvl : level) (msg : log_msg) : M unit := emit (EvLog lvl msg).

Definition get_self : M CertContext := fun st => (st, [], Returns (self st)).

Definition set_self (c : CertContext) : M unit :=
  fun st => ({| self := c; fs := fs st; posts := posts st |}, [], Returns tt).

(** [open(path, 'wb')] creates the file or empties it. *)
Definition open_wb (path : string) : M unit :=
  fun st =>
    ({| self := self st; fs := <[path := []]> (fs st); posts := posts st |},
     [EvOpen path], Returns tt).

(** [f_obj.write(body)] appends to what the file holds. *)
Definition write (path : string) (body : bytes) : M unit :=
  fun st =>
    ({| self := self st;
        fs := <[path := default [] (fs st !! path) ++ body]> (fs st);
        posts := posts st |},
     [EvWrite path body], Returns tt).

Definition close (path : string) : M unit := emit (EvClose path).

(** [time.sleep] refuses a negative length. *)
Definition sleep (seconds : Z) : M unit :=
  if seconds <? 0 then raise (ValueError "sleep length must be non-negative")
  else emit (EvSleep seconds).

(** [l[-2]] *)
Definition second_to_last {A} (l : list A) : option A :=
  match rev l with
  | _ :: x :: _ => Some x
  | _ => None
  end.

(** How the [while] loop of [renew_ocsp_staple] is left. *)
Inductive loop_exit : Type :=
| Break (ocsp_staple : bytes)
| Return (v : bool)
| Exhausted.

Section WithEnvironment.

(** The constant imported from the module [ocsp]. *)
Variable OCSP_REQUEST_RETRY_COUNT : Z.

(** The value of the expression [ocsp.OCSP_REQUEST_RETRY_COUNT], or
    [None] when the name [ocsp] is not bound in the module. *)
Variable ocsp_module : option Z.

(** [requests_post n url body]: the result of the [n]-th POST. *)
Variable requests_post : nat -> string -> bytes -> http_outcome.

Variable OCSPResponseParser : bytes -> exn + OCSPResponse.

(** [CertificateValidator(end_entity, intermediates, context)
    .validate_usage(...)], with the [ocsps] and [allow_fetching] of the
    context. *)
Variable validate_usage :
  option Certificate -> list Certificate -> list bytes -> bool ->
  validation_error + list Certificate.

(** [OCSPRequestBuilder(certificate, issuer)], nonce off, built and
    dumped.  The calls of [asymmetric.load_certificate] that wrap the two
    certificates are part of it: on certificates that were parsed from
    the file they are taken not to raise. *)
Variable build_request : Certificate -> Certificate -> bytes.

(** [urllib.parse.urlparse(url).hostname]: the host name, [None] when
    the URL has none, or the exception [urlparse] raises on a URL it
    cannot split ([ValueError]).  The host goes into the headers of the
    POST, which [requests_post] answers from the URL. *)
Variable urlparse_hostname : string -> exn + option string.

Variable unarmor : bytes -> list pem_item.

(** [asn1crypto.x509.Certificate.load], [None] where it raises. *)
Variable Certificate_load : bytes -> option Certificate.

(** [CertContext._validate_cert] *)
Definition _validate_cert : M (list Certificate) :=
  c <- get_self ;;
  ctx <- match ocsp_staple c with
         | None => LOG INFO Msg_validating_without_staple ;;; ret ([], false)
         | Some staple =>
             LOG INFO Msg_validating_with_staple ;;; ret ([data staple], true)
         end ;;
  let result :=
    validate_usage (end_entity c) (intermediates c) (fst ctx) (snd ctx) in
  emit (EvValidate (fst ctx) (snd ctx) result) ;;;
  match result with
  | inr path => LOG INFO Msg_chain_validated ;;; ret path
  | inl PathBuildingError | inl PathValidationError
  | inl RevokedError | inl InvalidCertificateError =>
      (* RevokedError and InvalidCertificateError are subclasses of
         PathValidationError: the first except clause catches them, the
         two clauses after it are never reached *)
      raise (CertValidationError "Failed to validate certificate path")
  | inl ValidatorTypeError => raise (TypeError "certvalidator")
  end.

(** [CertContext.check_ocsp_response] *)
Definition check_ocsp_response (staple : bytes) (url : string) : M bool :=
  LOG DEBUG (Msg_response_data staple) ;;;
  match staple with
  | [] => raise (OCSPRenewError "Received empty response")
  | _ :: _ =>
      match OCSPResponseParser staple with
      | inl e => raise e
      | inr parsed =>
          c <- get_self ;;
          set_self {| filename := filename c; hash := hash c;
                      modtime := modtime c; end_entity := end_entity c;
                      intermediates := intermediates c;
                      ocsp_staple := Some parsed;
                      ocsp_request := ocsp_request c;
                      ocsp_urls := ocsp_urls c; chain := chain c;
                      valid_until := valid_until c |} ;;;
          if String.eqb (status parsed) "good" then
            c <- get_self ;;
            set_self {| filename := filename c; hash := hash c;
                        modtime := modtime c; end_entity := end_entity c;
                        intermediates := intermediates c;
                        ocsp_staple := ocsp_staple c;
                        ocsp_request := ocsp_request c;
                        ocsp_urls := ocsp_urls c; chain := chain c;
                        valid_until := Some (staple_valid_until parsed) |} ;;;
            LOG INFO (Msg_good_response url (staple_valid_until parsed)) ;;;
            ret true
          else if String.eqb (status parsed) "revoked" then
            raise (OCSPRenewError "Certificate was revoked!")
          else
            LOG INFO (Msg_cant_get_status url) ;;; ret false
      end
  end.

(** The [try] statement of the retry loop: the POST, [raise_for_status]
    and the [except] clauses.  [request] is the local variable of that
    name, unbound ([None]) until a POST has returned; a caught exception
    leaves it as it was. *)
Definition post_request (url : string) (request : option Response)
  : M (option Response) :=
  c <- get_self ;;
  result <- (fun st =>
               let body := default [] (ocsp_request c) in
               let result := requests_post (posts st) url body in
               ({| self := self st; fs := fs st; posts := S (posts st) |},
                [EvPost url body result], Returns result)) ;;
  match result with
  | HttpRaises URLError => LOG ERROR Msg_connection_problem ;;; ret request
  | HttpRaises Timeout => LOG WARNING Msg_timeout_error ;;; ret request
  | HttpRaises TooManyRedirects =>
      LOG WARNING Msg_too_many_redirects ;;; ret request
  | HttpRaises ConnectionError =>
      LOG WARNING Msg_connection_error ;;; ret request
  | HttpResponse r =>
      if raise_for_status_ok r then ret (Some r)
      else
        (* HTTPError is caught, and the arguments of LOG.warning read
           request.status *)
        raise (AttributeError "'Response' object has no attribute 'status'")
  end.

(** One pass through the body of the loop, up to the [break] test. *)
Definition attempt (url : string) (request : option Response)
  : M (Response * bytes * bool) :=
  request' <- post_request url request ;;
  match request' with
  | None =>
      raise (UnboundLocalError
               "local variable 'request' referenced before assignment")
  | Some r =>
      let staple := content r in
      good <- check_ocsp_response staple url ;;
      ret (r, staple, good)
  end.

(** The [while retry > 0] loop; [retry] counts down from
    [OCSP_REQUEST_RETRY_COUNT], and a count of zero or less never enters
    the loop.  [next] is the call [self.renew_ocsp_staple(url_index+1)]. *)
Fixpoint retry_loop (next : M bool) (url : string) (url_index : nat)
    (retry : nat) (request : option Response) : M loop_exit :=
  match retry with
  | O => ret Exhausted
  | S retry' =>
      a <- attempt url request ;;
      let '(r, staple, good) := a in
      if good then ret (Break staple)
      else
        match retry' with
        | S _ =>
            match ocsp_module with
            | None => raise (NameError "name 'ocsp' is not defined")
            | Some count =>
                let sleep_time := (count - Z.of_nat retry') * 5 in
                LOG INFO (Msg_retrying_in sleep_time) ;;;
                sleep sleep_time ;;;
                retry_loop next url url_index retry' (Some r)
            end
        | O =>
            c <- get_self ;;
            if (url_index + 1 <? length (ocsp_urls c))%nat then
              v <- next ;; ret (Return v)
            else raise (OCSPRenewError "Couldn't renew OCSP staple")
        end
  end.

(** The end of [renew_ocsp_staple], after the loop.  [staple] is the
    local variable [ocsp_staple], unbound when the loop body never ran. *)
Definition persist (staple : option bytes) : M bool :=
  LOG INFO Msg_validating_staple ;;;
  _ <- _validate_cert ;;
  c <- get_self ;;
  let ocsp_filename := String.append (filename c) ".ocsp" in
  LOG INFO (Msg_writing_to_file ocsp_filename) ;;;
  open_wb ocsp_filename ;;;
  match staple with
  | None =>
      close ocsp_filename ;;;
      raise (UnboundLocalError
               "local variable 'ocsp_staple' referenced before assignment")
  | Some body =>
      write ocsp_filename body ;;;
      close ocsp_filename ;;;
      ret true
  end.

(** The body of [CertContext.renew_ocsp_staple]; [next] is what the
    recursive call [self.renew_ocsp_staple(url_index+1)] does. *)
Definition renew_ocsp_staple_body (next : M bool) (url_index : nat) : M bool :=
  c <- get_self ;;
  match end_entity c with
  | None => raise (CertValidationError "Certificate is missing")
  | Some certificate =>
      if (length (chain c) <? 1)%nat then
        raise (CertValidationError "Certificate chain is missing")
      else
        match ocsp_urls c !! url_index with
        | None => raise (IndexError "list index out of range")
        | Some url =>
            match urlparse_hostname url with
            | inl e => raise e
            | inr host =>
            match second_to_last (chain c) with
            | None => raise (IndexError "list index out of range")
            | Some issuer =>
                let request := build_request certificate issuer in
                set_self {| filename := filename c; hash := hash c;
                            modtime := modtime c; end_entity := end_entity c;
                            intermediates := intermediates c;
                            ocsp_staple := ocsp_staple c;
                            ocsp_request := Some request;
                            ocsp_urls := ocsp_urls c; chain := chain c;
                            valid_until := valid_until c |} ;;;
                LOG DEBUG (Msg_request_data request) ;;;
                LOG INFO (Msg_trying_url url) ;;;
                exit <- retry_loop next url url_index
                          (Z.to_nat OCSP_REQUEST_RETRY_COUNT) None ;;
                match exit with
                | Return v => ret v
                | Break staple => persist (Some staple)
                | Exhausted => persist None
                end
            end
            end
        end
  end.

(** The function calls itself once per further URL at most; [depth]
    bounds that nesting. *)
Fixpoint renew_ocsp_staple_rec (depth : nat) (url_index : nat) : M bool :=
  renew_ocsp_staple_body
    (match depth with
     | O => raise (ValueError "recursion depth")
     | S depth' => renew_ocsp_staple_rec depth' (S url_index)
     end)
    url_index.

(** [CertContext.renew_ocsp_staple] *)
Definition renew_ocsp_staple (url_index : nat) : M bool :=
  fun st =>
    renew_ocsp_staple_rec (length (ocsp_urls (self st))) url_index st.

(** The loop of [_read_full_chain] over the blocks of the file. *)
Fixpoint read_blocks (pem_obj : list pem_item) : M unit :=
  match pem_obj with
  | [] => ret tt
  | PemBlock type_name der_bytes :: rest =>
      (if String.eqb type_name "CERTIFICATE" then
         match Certificate_load der_bytes with
         | None => raise (ValueError "Certificate.load")
         | Some crt =>
             c <- get_self ;;
             if ca crt then
               LOG INFO Msg_found_chain_part ;;;
               set_self {| filename := filename c; hash := hash c;
                           modtime := modtime c; end_entity := end_entity c;
                           intermediates := intermediates c ++ [crt];
                           ocsp_staple := ocsp_staple c;
                           ocsp_request := ocsp_request c;
                           ocsp_urls := ocsp_urls c; chain := chain c;
                           valid_until := valid_until c |}
             else
               LOG INFO Msg_found_end_entity ;;;
               set_self {| filename := filename c; hash := hash c;
                           modtime := modtime c; end_entity := Some crt;
                           intermediates := intermediates c;
                           ocsp_staple := ocsp_staple c;
                           ocsp_request := ocsp_request c;
                           ocsp_urls := cert_ocsp_urls crt; chain := chain c;
                           valid_until := valid_until c |}
         end
       else ret tt) ;;;
      read_blocks rest
  | PemBinasciiError :: _ => LOG ERROR Msg_file_contains_errors
  | PemValueError :: _ => raise (ValueError "unarmor")
  end.

(** [CertContext._read_full_chain] *)
Definition _read_full_chain : M unit :=
  c <- get_self ;;
  contents <- (fun st =>
                 match fs st !! filename c with
                 | None => (st, [], Raises (IOError "No such file"))
                 | Some b => (st, [EvRead (filename c)], Returns b)
                 end) ;;
  read_blocks (unarmor contents) ;;;
  c <- get_self ;;
  (match end_entity c with
   | None => LOG ERROR Msg_no_server_certificate
   | Some _ => ret tt
   end) ;;;
  if (length (intermediates c) <? 1)%nat then LOG ERROR Msg_no_ca_chain
  else ret tt.

(** [CertContext.parse_crt_chain] *)
Definition parse_crt_chain : M unit :=
  fun st =>
    let body : M unit :=
      _read_full_chain ;;;
      path <- _validate_cert ;;
      c <- get_self ;;
      set_self {| filename := filename c; hash := hash c;
                  modtime := modtime c; end_entity := end_entity c;
                  intermediates := intermediates c;
                  ocsp_staple := ocsp_staple c;
                  ocsp_request := ocsp_request c;
                  ocsp_urls := ocsp_urls c; chain := path;
                  valid_until := valid_until c |} in
    match body st with
    | (st', ev, Raises (TypeError _)) =>
        (st', ev,
         Raises (CertValidationError
                   "Can't validate the certificate, part of the chain is missing"))
    | r => r
    end.

End WithEnvironment.

(** The files after a sequence of events, from the files before it. *)
Definition apply_event (files : gmap string bytes) (e : event)
  : gmap string bytes :=
  match e with
  | EvOpen path => <[path := []]> files
  | EvWrite path body => <[path := default [] (files !! path) ++ body]> files
  | _ => files
  end.

Definition files_after (files : gmap string bytes) (evs : list event)
  : gmap string bytes :=
  fold_left apply_event evs files.

End Certcontext.


(** ** Reading the events of a call *)
Module Traces.
Import Certcontext.

Definition run_state {A} (x : state * list event * outcome A) : state :=
  fst (fst x).
Definition run_events {A} (x : state * list event * outcome A) : list event :=
  snd (fst x).
Definition run_result {A} (x : state * list event * outcome A) : outcome A :=
  snd x.

(** Logging, posting and sleeping; the other events validate a chain or
    touch a file. *)
Definition quiet (e : event) : bool :=
  match e with
  | EvLog _ _ | EvPost _ _ _ | EvSleep _ => true
  | _ => false
  end.

Definition file_event (e : event) : bool :=
  match e with
  | EvRead _ | EvOpen _ | EvWrite _ _ | EvClose _ => true
  | _ => false
  end.

Definition is_post (e : event) : bool :=
  match e with
  | EvPost _ _ _ => true
  | _ => false
  end.

Definition is_sleep (e : event) : bool :=
  match e with
  | EvSleep _ => true
  | _ => false
  end.

Definition is_log (e : event) : bool :=
  match e with
  | EvLog _ _ => true
  | _ => false
  end.

Definition raises_CertValidationError {A} (r : outcome A) : Prop :=
  exists msg, r = Raises (CertValidationError msg).

Definition raises_OCSPRenewError {A} (r : outcome A) : Prop :=
  exists msg, r = Raises (OCSPRenewError msg).

Definition empty_body (b : bytes) : bool :=
  match b with
  | [] => true
  | _ :: _ => false
  end.

(** Invariant 1 of the data model: the record can be sent to a
    responder. *)
Definition eligible (c : CertContext) : Prop :=
  end_entity c <> None /\ chain c <> [] /\ ocsp_urls c <> [].

(** What a call emits from the validation of a fetched staple to the
    end of the write. *)
Definition persist_events (path : string) (body : bytes)
    (parsed : OCSPResponse) (validated : list Certificate) : list event :=
  [ EvLog INFO Msg_validating_staple;
    EvLog INFO Msg_validating_with_staple;
    EvValidate [data parsed] true (inr validated);
    EvLog INFO Msg_chain_validated;
    EvLog INFO (Msg_writing_to_file path);
    EvOpen path;
    EvWrite path body;
    EvClose path ].

Section WithParser.
Variable OCSPResponseParser : bytes -> exn + OCSPResponse.

(** A body that parses to an OCSP response whose status is revoked. *)
Definition revoked_body (b : bytes) : bool :=
  match b with
  | [] => false
  | _ :: _ =>
      match OCSPResponseParser b with
      | inr parsed => String.eqb (status parsed) "revoked"
      | inl _ => false
      end
  end.

(** A POST whose answer passed [raise_for_status] and whose body
    satisfies [bad]. *)
Definition post_with_body (bad : bytes -> bool) (e : event) : bool :=
  match e with
  | EvPost _ _ (HttpResponse r) => raise_for_status_ok r && bad (content r)
  | _ => false
  end.

Definition terminal_body (b : bytes) : bool := empty_body b || revoked_body b.

Definition terminal_post : event -> bool := post_with_body terminal_body.

(** The exception [_validate_cert] raises for an error of the
    validator. *)
Definition validation_raises (err : validation_error) (e : exn) : Prop :=
  match err with
  | ValidatorTypeError => exists msg, e = TypeError msg
  | _ => exists msg, e = CertValidationError msg
  end.

(** The four ways a call of [renew_ocsp_staple] can go, as the events
    it emits, the files it leaves and its outcome: the body of an
    answered POST is validated and written; the call fails before any
    validation; the validation fails; or the loop was never entered and
    the write finds no staple. *)
Inductive renew_shape (path : string) (before : gmap string bytes)
  : gmap string bytes -> list event -> outcome bool -> Prop :=
| shape_persisted pre url request rsp parsed validated :
    forallb quiet pre = true ->
    In (EvPost url request (HttpResponse rsp)) pre ->
    OCSPResponseParser (content rsp) = inr parsed ->
    renew_shape path before (<[path := content rsp]> before)
      (pre ++ persist_events path (content rsp) parsed validated)
      (Returns true)
| shape_failed pre e :
    forallb quiet pre = true ->
    renew_shape path before before pre (Raises e)
| shape_rejected pre msg ocsps fetch err e :
    forallb quiet pre = true ->
    validation_raises err e ->
    renew_shape path before before
      (pre ++ [EvLog INFO Msg_validating_staple; EvLog INFO msg;
               EvValidate ocsps fetch (inl err)])
      (Raises e)
| shape_unbound pre msg ocsps fetch validated text :
    forallb quiet pre = true ->
    renew_shape path before (<[path := []]> before)
      (pre ++ [EvLog INFO Msg_validating_staple; EvLog INFO msg;
               EvValidate ocsps fetch (inr validated);
               EvLog INFO Msg_chain_validated;
               EvLog INFO (Msg_writing_to_file path);
               EvOpen path; EvClose path])
      (Raises (UnboundLocalError text)).

(** A terminal answer, if there is one, is the last POST of the call:
    only the record of its body follows, and the call raises
    [OCSPRenewError]. *)
Definition terminal_last {A} (evs : list event) (r : outcome A) : Prop :=
  existsb terminal_post evs = false \/
  exists pre url request rsp,
    evs = pre ++ [EvPost url request (HttpResponse rsp);
                  EvLog DEBUG (Msg_response_data (content rsp))] /\
    existsb terminal_post pre = false /\
    terminal_post (EvPost url request (HttpResponse rsp)) = true /\
    raises_OCSPRenewError r.

(** The invariant of a call started in [st]. *)
Definition renew_inv (st : state) (x : state * list event * outcome bool)
  : Prop :=
  filename (self (run_state x)) = filename (self st) /\
  renew_shape (String.append (filename (self st)) ".ocsp") (fs st)
    (fs (run_state x)) (run_events x) (run_result x) /\
  terminal_last (run_events x) (run_result x).

End WithParser.

Section WithLoader.
Variable unarmor : bytes -> list pem_item.
Variable Certificate_load : bytes -> option Certificate.

(** The CA certificates that the loop of [_read_full_chain] appends for
    the blocks of a file, in order, up to the block on which it stops. *)
Fixpoint appended_intermediates (pem_obj : list pem_item)
  : list Certificate :=
  match pem_obj with
  | PemBlock type_name der_bytes :: rest =>
      if String.eqb type_name "CERTIFICATE" then
        match Certificate_load der_bytes with
        | Some crt =>
            if ca crt then crt :: appended_intermediates rest
            else appended_intermediates rest
        | None => []
        end
      else appended_intermediates rest
  | _ => []
  end.

(** The last certificate of those blocks that is not a CA, if any. *)
Fixpoint found_end_entity (pem_obj : list pem_item) : option Certificate :=
  match pem_obj with
  | PemBlock type_name der_bytes :: rest =>
      if String.eqb type_name "CERTIFICATE" then
        match Certificate_load der_bytes with
        | Some crt =>
            if ca crt then found_end_entity rest
            else
              match found_end_entity rest with
              | Some later => Some later
              | None => Some crt
              end
        | None => None
        end
      else found_end_entity rest
  | _ => None
  end.

(** The blocks of the file of a record, none if the file is missing. *)
Definition file_blocks (st : state) : list pem_item :=
  match fs st !! filename (self st) with
  | Some contents => unarmor contents
  | None => []
  end.

End WithLoader.

(** The claim of an atomic write, in the words of the specification:
    the bytes go to another file of the same directory first, and at no
    point of the call does the destination hold anything but what it
    held before or the whole staple. *)
Definition written_through_temp_file (dest : string) (body : bytes)
    (evs : list event) : Prop :=
  exists tmp, tmp <> dest /\ In (EvWrite tmp body) evs.

Definition never_partial (dest : string) (body : bytes)
    (before : gmap string bytes) (evs : list event) : Prop :=
  forall n,
    files_after before (take n evs) !! dest = before !! dest \/
    files_after before (take n evs) !! dest = Some body.

Definition atomic_write (dest : string) (body : bytes)
    (before : gmap string bytes) (evs : list event) : Prop :=
  written_through_temp_file dest body evs /\ never_partial dest body before evs.

End Traces.

(** ** Fixtures *)
Module SchedFixtures.
Import Scheduling.

Definition T1 : datetime := 1000000000.
Definition T2 : datetime := 2000000000.

Definition ctx_a : ctx_ref := 1%positive.
Definition ctx_b : ctx_ref := 2%positive.

(** Every context is for the queue [renew] and due at [T1]. *)
Definition objects : ctx_ref -> ScheduledTaskContext :=
  fun _ => ScheduledTaskContext_init "renew" (ST_Datetime T1) None.

(** A clock that stands at [T1] for two readings and at [T2] after. *)
Definition clock12 : nat -> datetime :=
  fun n => if (n <? 2)%nat then T1 else T2.

(** A scheduler with the queue [renew] and the contexts [ctx_a] and
    [ctx_b] added for the same time. *)
Definition two_in_a_slot : world :=
  fst ((add_queue "renew" 0 ;;;
        add_task clock12 ctx_a ;;;
        add_task clock12 ctx_b) (world_init objects)).

(** A scheduler to which [ctx_a] was added for [T1] and then, with its
    [sched_time] changed, for [T2]. *)
Definition added_twice : world * outcome unit :=
  (add_queue "renew" 0 ;;;
   add_task clock12 ctx_a ;;;
   set_sched_time ctx_a (ST_Datetime T2) ;;;
   add_task clock12 ctx_a) (world_init objects).

(** A scheduler to which [ctx_a] was added, and is still waiting. *)
Definition added_once : world :=
  fst ((add_queue "renew" 0 ;;; add_task clock12 ctx_a) (world_init objects)).

End SchedFixtures.

Module CertFixtures.
Import Certcontext.

Definition leaf : Certificate :=
  mkCertificate [x01] false ["http://ocsp.example/"].
Definition intermediate : Certificate := mkCertificate [x02] true [].
Definition root : Certificate := mkCertificate [x03] true [].

Definition good_body : bytes := [x30; x03].
Definition revoked_reply : bytes := [x30; x04].

Definition parser (b : bytes) : exn + OCSPResponse :=
  match b with
  | [x30; x03] => inr (mkOCSPResponse "good" 700 b)
  | [x30; x04] => inr (mkOCSPResponse "revoked" 700 b)
  | _ => inr (mkOCSPResponse "unknown" 0 b)
  end.

Definition validator (certificate : option Certificate)
    (others : list Certificate) (ocsps : list bytes) (fetch : bool)
  : validation_error + list Certificate :=
  inr [root; intermediate; leaf].

(** A validator that rejects the path once a staple is given. *)
Definition strict_validator (certificate : option Certificate)
    (others : list Certificate) (ocsps : list bytes) (fetch : bool)
  : validation_error + list Certificate :=
  match ocsps with
  | [] => inr [root; intermediate; leaf]
  | _ :: _ => inl PathValidationError
  end.

Definition builder (certificate issuer : Certificate) : bytes := [x0a].

(** Every URL of the fixtures splits, with the same host. *)
Definition host_of (url : string) : exn + option string :=
  inr (Some "ocsp.example").

Definition record : CertContext :=
  mkCertContext "leaf.pem" "da39a3ee" 0 (Some leaf) [intermediate] None None
    ["http://ocsp.example/"] [root; intermediate; leaf] None.

(** The same record without responder URLs. *)
Definition record_without_urls : CertContext :=
  mkCertContext "leaf.pem" "da39a3ee" 0 (Some leaf) [intermediate] None None
    [] [root; intermediate; leaf] None.

Definition unparsed : CertContext :=
  mkCertContext "leaf.pem" "da39a3ee" 0 None [] None None [] [] None.

Definition old_staple : bytes := [x30; x01].

Definition disk : gmap string bytes :=
  {[ "leaf.pem" := [x2d]; "leaf.pem.ocsp" := old_staple ]}.

Definition start (c : CertContext) : state := mkState c disk 0.

(** Responders: always good; connection reset twice and then good;
    revoked; an empty body. *)
Definition answers_good (n : nat) (url : string) (body : bytes)
  : http_outcome :=
  HttpResponse (mkResponse true good_body).

Definition resets_twice (n : nat) (url : string) (body : bytes)
  : http_outcome :=
  match n with
  | O | 1%nat => HttpRaises ConnectionError
  | _ => HttpResponse (mkResponse true good_body)
  end.

Definition answers_revoked (n : nat) (url : string) (body : bytes)
  : http_outcome :=
  HttpResponse (mkResponse true revoked_reply).

Definition answers_empty (n : nat) (url : string) (body : bytes)
  : http_outcome :=
  HttpResponse (mkResponse true []).

(** A responder that answers with an error status and an empty body. *)
Definition answers_unavailable (n : nat) (url : string) (body : bytes)
  : http_outcome :=
  HttpResponse (mkResponse false []).

(** What a call answered with [good_body] emits before the write. *)
Definition events_before_write : list event :=
  [ EvLog DEBUG (Msg_request_data [x0a]);
    EvLog INFO (Msg_trying_url "http://ocsp.example/");
    EvPost "http://ocsp.example/" [x0a]
      (HttpResponse (mkResponse true good_body));
    EvLog DEBUG (Msg_response_data good_body);
    EvLog INFO (Msg_good_response "http://ocsp.example/" 700);
    EvLog INFO Msg_validating_staple;
    EvLog INFO Msg_validating_with_staple;
    EvValidate [good_body] true (inr [root; intermediate; leaf]);
    EvLog INFO Msg_chain_validated;
    EvLog INFO (Msg_writing_to_file "leaf.pem.ocsp");
    EvOpen "leaf.pem.ocsp" ].

(** What every call of the fixtures emits before its first POST. *)
Definition events_before_post : list event :=
  [ EvLog DEBUG (Msg_request_data [x0a]);
    EvLog INFO (Msg_trying_url "http://ocsp.example/") ].

(** The file holds the intermediate and the leaf. *)
Definition pem_blocks (contents : bytes) : list pem_item :=
  [PemBlock "CERTIFICATE" [x02]; PemBlock "CERTIFICATE" [x01]].

Definition loader (der : bytes) : option Certificate :=
  match der with
  | [x01] => Some leaf
  | [x02] => Some intermediate
  | _ => None
  end.

End CertFixtures.


Module SchedulerQueues.
Import Scheduling.

(** The loop of [SchedulerThread.__init__] over the names given as
    [queues]; each queue is added with the default [max_size]. *)
Fixpoint add_queues (queues : list string) : M unit :=
  match queues with
  | [] => ret tt
  | _queue :: rest => add_queue _queue 0 ;;; add_queues rest
  end.

(** [SchedulerThread.__init__], up to the call of the initialiser of
    [threading.Thread]; [queues] is the keyword argument of that name,
    [None] when it is not given. *)
Definition SchedulerThread__init__ (queues : option (list string)) : M unit :=
  put_sched SchedulerThread_init ;;;
  match queues with
  | None | Some [] => ret tt
  | Some names => add_queues names
  end.

(** What [Queue.get] hands back: an item, or the raise of [queue.Empty],
    an exception of the module [queue] and not of the builtins. *)
Inductive got : Type :=
| Item (ctx : ctx_ref)
| Empty.

(** The text of the [KeyError] of [get_task]: the name of the queue
    between double quotes (the character 34). *)
Definition does_not_exist (task0 : string) : string :=
  String.append "Queue "
    (String (Ascii.ascii_of_nat 34)
       (String.append task0
          (String (Ascii.ascii_of_nat 34) " does not exist."))).

(** [SchedulerThread.get_task].  Nobody else puts while the call waits:
    a wait without a timeout on an empty queue never ends, a wait with a
    timeout ends in [queue.Empty]. *)
Definition get_task (task0 : string) (blocking : bool) (timeout : option Z)
  : M got :=
  s <- get_sched ;;
  match _queues s !! task0 with
  | None => raise (KeyError (does_not_exist task0))
  | Some q =>
      let take : M got :=
        match items q with
        | [] => ret Empty
        | ctx :: rest =>
            put_sched {| _queues := <[task0 := mkQueue (maxsize q) rest]>
                                      (_queues s);
                         schedule := schedule s; scheduled := scheduled s |} ;;;
            ret (Item ctx)
        end in
      if negb blocking then take
      else
        match timeout with
        | None =>
            match items q with
            | [] => fun w => (w, Blocks)
            | _ :: _ => take
            end
        | Some seconds =>
            if seconds <? 0 then
              raise (ValueError "'timeout' must be a non-negative number")
            else take
        end
  end.

(** [n] calls of [get_task(task, blocking=False)] in a row, each one
    guarded against [queue.Empty]. *)
Fixpoint get_tasks (task0 : string) (n : nat) : M (list got) :=
  match n with
  | O => ret []
  | S n' =>
      x <- get_task task0 false None ;;
      rest <- get_tasks task0 n' ;;
      ret (x :: rest)
  end.

End SchedulerQueues.

(** ** Reading a tick of the scheduler *)
Module Ticks.
Import Scheduling.

(** The times whose slots a call of [_run] takes, in the order it takes
    them: the list [todo]. *)
Definition taken (all_tasks : bool) (now : datetime)
    (d : PyDict.t (list ctx_ref)) : list datetime :=
  if all_tasks then PyDict.keys d
  else List.filter (fun x => x <=? now) (PyDict.keys d).

(** The contexts of those slots, in the order the call meets them. *)
Definition due (all_tasks : bool) (now : datetime)
    (d : PyDict.t (list ctx_ref)) : list ctx_ref :=
  concat (map (fun k => default [] (PyDict.get k d)) (taken all_tasks now d)).

(** The lateness, in the seconds of the day, for which [_run] has a text:
    less than a second, or between two and fifty-eight seconds. *)
Definition punctual (late : Z) : Prop := late < 1 \/ 1 < late < 59.

Definition strftime_of_timedelta : exn :=
  AttributeError "'datetime.timedelta' object has no attribute 'strftime'".

(** The range of [datetime.datetime], with the microseconds counted from
    [datetime.min], the first instant of the year 1: [datetime.max] is
    the last microsecond of the year 9999, 3652059 days later.  Python
    raises [OverflowError] for a sum of a [datetime] and a [timedelta]
    that leaves the range, and for a [timedelta] of more than 999999999
    days, which no difference of two dates of the range reaches. *)
Definition datetime_max : datetime := 3652059 * 86400 * 1000000 - 1.

Definition representable (t : datetime) : Prop := 0 <= t <= datetime_max.

End Ticks.

(** ** More schedulers to run *)
Module TickFixtures.
Import Scheduling SchedulerQueues SchedFixtures.

(** A clock that stands at [T1]; one that is 59 seconds further at every
    reading after the first; one that stands at 0, before [T1]. *)
Definition steady : nat -> datetime := fun _ => T1.

Definition slow : nat -> datetime :=
  fun n => match n with O => T1 | S _ => T1 + 59000000 end.

Definition early : nat -> datetime := fun _ => 0.

(** Contexts for the queue [renew] without a time, and with a time of
    thirty seconds from now. *)
Definition objects_at_once : ctx_ref -> ScheduledTaskContext :=
  fun _ => ScheduledTaskContext_init "renew" ST_None None.

Definition objects_in_30s : ctx_ref -> ScheduledTaskContext :=
  fun _ => ScheduledTaskContext_init "renew" (ST_Int 30) None.

(** A scheduler with the queue [renew] and nothing scheduled, for each
    kind of context. *)
Definition idle : world := fst (add_queue "renew" 0 (world_init objects)).

Definition idle_at_once : world :=
  fst (add_queue "renew" 0 (world_init objects_at_once)).

Definition idle_in_30s : world :=
  fst (add_queue "renew" 0 (world_init objects_in_30s)).

(** A scheduler without any queue, to which [ctx_a] was added for [T1]. *)
Definition no_queue : world :=
  fst (add_task clock12 ctx_a (world_init objects)).

End TickFixtures.


(** ** What a renewal keeps and what it leaves behind *)
Module Frames.
Import Certcontext Traces.

(** The number of POSTs among the events of a call. *)
Definition posts_sent (evs : list event) : nat :=
  length (List.filter is_post evs).

(** The number of POSTs that went to [url] among the events of a call,
    and the number of times [url] stands in a list of URLs. *)
Definition is_post_to (url : string) (e : event) : bool :=
  match e with
  | EvPost u _ _ => String.eqb url u
  | _ => false
  end.

Definition posts_to (url : string) (evs : list event) : nat :=
  length (List.filter (is_post_to url) evs).

Definition occurrences (url : string) (urls : list string) : nat :=
  length (List.filter (String.eqb url) urls).

(** The tries the loop makes on one URL when it starts with [retry]: all
    of them when the name [ocsp] is bound, and one at most when it is
    not, since the second try is preceded by the wait whose length
    reads that name. *)
Definition tries (ocsp_module : option Z) (retry : nat) : nat :=
  match ocsp_module with
  | None => Nat.min 1 retry
  | Some _ => retry
  end.

(** The attributes of a record that come from the certificate file. *)
Definition same_certificate (c c' : CertContext) : Prop :=
  filename c' = filename c /\ hash c' = hash c /\ modtime c' = modtime c /\
  end_entity c' = end_entity c /\ intermediates c' = intermediates c /\
  ocsp_urls c' = ocsp_urls c /\ chain c' = chain c.

(** The record holds a staple with status good and its expiry, and the
    file at [path] holds the bytes that staple was parsed from. *)
Definition staple_in_place (OCSPResponseParser : bytes -> exn + OCSPResponse)
    (path : string) (st : state) : Prop :=
  exists parsed body,
    ocsp_staple (self st) = Some parsed /\
    status parsed = "good" /\
    valid_until (self st) = Some (staple_valid_until parsed) /\
    OCSPResponseParser body = inr parsed /\
    fs st !! path = Some body.

(** The lengths of the waits between the tries on one URL, for [retries]
    tries and the constant [count]: 5 seconds more after each try. *)
Definition backoff (count : Z) (retries : nat) (seconds : Z) : Prop :=
  exists k : nat, (1 <= k < retries)%nat /\ seconds = (count - Z.of_nat k) * 5.


(** What is kept account of for a call started at [url_index] in [st]:
    the certificate attributes stay, the counter of POSTs moves with the
    POSTs of the call, there are at most [retries] of them for each URL
    that is left, the waits are those of the back-off, and a call that
    returns leaves a staple in place.  Without the name [ocsp] there is
    at most one POST for each URL and no wait at all. *)
Definition accounted (retries : nat) (ocsp_module : option Z)
    (OCSPResponseParser : bytes -> exn + OCSPResponse) (url_index : nat)
    (st : state) (x : state * list event * outcome bool) : Prop :=
  let urls_left := (length (ocsp_urls (self st)) - url_index)%nat in
  same_certificate (self st) (self (run_state x)) /\
  posts (run_state x) = (posts st + posts_sent (run_events x))%nat /\
  (posts_sent (run_events x) <= retries * urls_left)%nat /\
  (ocsp_module = None ->
   (posts_sent (run_events x) <= urls_left)%nat /\
   forall seconds, ~ In (EvSleep seconds) (run_events x)) /\
  (forall count seconds,
     ocsp_module = Some count -> In (EvSleep seconds) (run_events x) ->
     backoff count retries seconds) /\
  (forall v,
     run_result x = Returns v ->
     staple_in_place OCSPResponseParser
       (String.append (filename (self st)) ".ocsp") (run_state x)).


(** The attributes of a record that parsing the certificate file leaves
    alone. *)
Definition same_staple (c c' : CertContext) : Prop :=
  filename c' = filename c /\ hash c' = hash c /\ modtime c' = modtime c /\
  ocsp_staple c' = ocsp_staple c /\ ocsp_request c' = ocsp_request c /\
  valid_until c' = valid_until c.

(** Events that neither send nor write: records of the log, the reading
    of a file, the validation of a chain. *)
Definition passive (e : event) : bool :=
  match e with
  | EvLog _ _ | EvRead _ | EvValidate _ _ _ => true
  | _ => false
  end.

(** The [ocsps] and [allow_fetching] of the validation context that
    [_validate_cert] builds for a record. *)
Definition context_ocsps (c : CertContext) : list bytes :=
  match ocsp_staple c with
  | Some staple => [data staple]
  | None => []
  end.

Definition context_allow_fetching (c : CertContext) : bool :=
  match ocsp_staple c with
  | Some _ => true
  | None => false
  end.

End Frames.

(** ** More responders and records to run *)
Module RenewalFixtures.
Import Certcontext CertFixtures.

(** A body that the parser of the fixtures reads as a status that is
    neither good nor revoked. *)
Definition unknown_reply : bytes := [x30; x05].

(** Responders: always the unknown status; an HTTP error status; the
    unknown status once and then good. *)
Definition answers_unknown (n : nat) (url : string) (body : bytes)
  : http_outcome :=
  HttpResponse (mkResponse true unknown_reply).

Definition unknown_then_good (n : nat) (url : string) (body : bytes)
  : http_outcome :=
  match n with
  | O => HttpResponse (mkResponse true unknown_reply)
  | S _ => HttpResponse (mkResponse true good_body)
  end.

(** The record of the fixtures with a second responder, and with a
    chain that holds the leaf alone. *)
Definition record_two_urls : CertContext :=
  mkCertContext "leaf.pem" "da39a3ee" 0 (Some leaf) [intermediate] None None
    ["http://ocsp.example/"; "http://ocsp2.example/"]
    [root; intermediate; leaf] None.

Definition record_single_chain : CertContext :=
  mkCertContext "leaf.pem" "da39a3ee" 0 (Some leaf) [] None None
    ["http://ocsp.example/"] [leaf] None.

(** A store without any file. *)
Definition nothing_on_disk : state := mkState unparsed ∅ 0.

(** A file whose second block has broken base64, with and without a
    certificate after it. *)
Definition broken_blocks (contents : bytes) : list pem_item :=
  [PemBlock "CERTIFICATE" [x02]; PemBinasciiError;
   PemBlock "CERTIFICATE" [x01]].

Definition broken_blocks_cut (contents : bytes) : list pem_item :=
  [PemBlock "CERTIFICATE" [x02]; PemBinasciiError].

End RenewalFixtures.


(** ** core/ocsprenewer.py

    The renewer takes certificate contexts from a queue and renews the
    staple of each.  The non-threaded class is modelled: its constructor
    runs the loop itself.  Nobody puts into the queue while the loop
    runs, so the loop is a recursion on what the queue holds, and
    [get()] on the empty queue is the outcome [Blocks]. *)
Module Ocsprenewer.
Import Certcontext.

(** The context objects are shared between the queue and their users: a
    context is its address. *)
Definition crt_ref : Type := positive.

(** What the renewer uses of a [queue.Queue]: the items, and the count
    of the tasks that were put and not marked done yet. *)
Record RenewQueue : Type := mkRenewQueue {
  queue_items : list crt_ref;
  unfinished_tasks : nat
}.

(** The store: the context objects, the files, the number of POSTs sent
    so far, and the attributes of the renewer.  [ignore_list] is [None]
    as long as nothing has assigned the attribute. *)
Record store : Type := mkStore {
  crts : crt_ref -> CertContext;
  files : gmap string bytes;
  sent : nat;
  renew_queue : option RenewQueue;
  cert_list : option (gmap string crt_ref);
  ignore_list : option (list string)
}.

Inductive renewer_event : Type :=
| Info_started
| Info_renewing (filename : string)
| Of_context (crt : crt_ref) (e : event)
| Error_failed (msg filename : string)
| Info_deleting (filename : string)
| Remove (path : string) (removed : bool).

Definition RM (A : Type) : Type :=
  store -> store * list renewer_event * outcome A.

Definition rret {A} (a : A) : RM A := fun s => (s, [], Returns a).
Definition rraise {A} (e : exn) : RM A := fun s => (s, [], Raises e).
Definition rbind {A B} (m : RM A) (k : A -> RM B) : RM B :=
  fun s =>
    match m s with
    | (s1, ev1, Returns a) =>
        match k a s1 with
        | (s2, ev2, r) => (s2, ev1 ++ ev2, r)
        end
    | (s1, ev1, Raises e) => (s1, ev1, Raises e)
    | (s1, ev1, Blocks) => (s1, ev1, Blocks)
    end.

Notation "x <-- m ;; k" := (rbind m (fun x => k))
  (at level 100, m at next level, right associativity).
Notation "m ;;;; k" := (rbind m (fun _ => k))
  (at level 100, right associativity).

Definition rlog (e : renewer_event) : RM unit := fun s => (s, [e], Returns tt).

Definition set_queue (q : RenewQueue) (s : store) : store :=
  {| crts := crts s; files := files s; sent := sent s;
     renew_queue := Some q; cert_list := cert_list s;
     ignore_list := ignore_list s |}.

(** [self.renew_queue.task_done()] *)
Definition task_done : RM unit :=
  fun s =>
    match renew_queue s with
    | None =>
        (s, [], Raises (AttributeError
                          "'NoneType' object has no attribute 'task_done'"))
    | Some q =>
        match unfinished_tasks q with
        | O => (s, [], Raises (ValueError "task_done() called too many times"))
        | S n => (set_queue (mkRenewQueue (queue_items q) n) s, [], Returns tt)
        end
    end.

Section WithEnvironment.
Variable OCSP_REQUEST_RETRY_COUNT : Z.
Variable ocsp_module : option Z.
Variable requests_post : nat -> string -> bytes -> http_outcome.
Variable OCSPResponseParser : bytes -> exn + OCSPResponse.
Variable validate_usage :
  option Certificate -> list Certificate -> list bytes -> bool ->
  validation_error + list Certificate.
Variable build_request : Certificate -> Certificate -> bytes.
Variable urlparse_hostname : string -> exn + option string.

(** [crt.renew_ocsp_staple()]: the method of [core/certcontext.py] on the
    object at [crt], with the files and the responders of the store. *)
Definition call_renew_ocsp_staple (crt : crt_ref) : RM bool :=
  fun s =>
    match renew_ocsp_staple OCSP_REQUEST_RETRY_COUNT ocsp_module requests_post
            OCSPResponseParser validate_usage build_request urlparse_hostname 0
            {| self := crts s crt; fs := files s; posts := sent s |} with
    | (st', evs, r) =>
        ({| crts := fun c => if Pos.eqb c crt then self st' else crts s c;
            files := fs st'; sent := posts st';
            renew_queue := renew_queue s; cert_list := cert_list s;
            ignore_list := ignore_list s |},
         map (Of_context crt) evs, r)
    end.

(** The loop of [run] on the contexts that wait in the queue: each pass
    takes the first, logs, renews its staple and marks the task done. *)
Fixpoint serve (waiting : list crt_ref) : RM unit :=
  match waiting with
  | [] => fun s => (s, [], Blocks)
  | crt :: rest =>
      (fun s =>
         match renew_queue s with
         | None =>
             (s, [], Raises (AttributeError
                               "'NoneType' object has no attribute 'get'"))
         | Some q =>
             (set_queue (mkRenewQueue rest (unfinished_tasks q)) s, [],
              Returns tt)
         end) ;;;;
      (fun s => rlog (Info_renewing (filename (crts s crt))) s) ;;;;
      call_renew_ocsp_staple crt ;;;;
      task_done ;;;;
      serve rest
  end.

(** [_OCSPRenewer.run] *)
Definition run : RM unit :=
  fun s =>
    match renew_queue s with
    | None =>
        (s, [], Raises (ValueError
                          "You need to pass a queue where parsed certificates can be retrieved from for renewing."))
    | Some q =>
        match cert_list s with
        | None => (s, [], Raises (ValueError
                              "You need to pass a dict for certificate data to be kept."))
        | Some _ => (rlog Info_started ;;;; serve (queue_items q)) s
        end
    end.


End WithEnvironment.

(** [os.remove(path)] inside [try ... except IOError: pass].  The call
    removes the file when it is there and the operating system lets the
    process remove it ([removable path]); otherwise it raises an
    [OSError] (no such file, no permission, a directory), which is what
    the name [IOError] stands for, and the handler drops it: the files
    stay as they were.  The event tells whether the file was removed. *)
Definition remove_if_exists (removable : string -> bool) (path : string)
  : RM unit :=
  fun s =>
    if bool_decide (is_Some (files s !! path)) && removable path then
      ({| crts := crts s; files := delete path (files s); sent := sent s;
          renew_queue := renew_queue s; cert_list := cert_list s;
          ignore_list := ignore_list s |},
       [Remove path true], Returns tt)
    else (s, [Remove path false], Returns tt).

(** [_OCSPRenewer._handle_failed_validation] *)
Definition _handle_failed_validation (removable : string -> bool)
    (crt : crt_ref) (msg : string) (delete_ocsp ignore : bool) : RM unit :=
  (fun s =>
     if ignore then
       match ignore_list s with
       | None =>
           (s, [], Raises (AttributeError
                             "'_OCSPRenewer' object has no attribute 'ignore_list'"))
       | Some l =>
           ({| crts := crts s; files := files s; sent := sent s;
               renew_queue := renew_queue s; cert_list := cert_list s;
               ignore_list := Some (l ++ [filename (crts s crt)]) |},
            [], Returns tt)
       end
     else (s, [], Returns tt)) ;;;;
  (fun s => rlog (Error_failed msg (filename (crts s crt))) s) ;;;;
  if delete_ocsp then
    (fun s => rlog (Info_deleting (filename (crts s crt))) s) ;;;;
    (fun s =>
       remove_if_exists removable
         (String.append (filename (crts s crt)) ".ocsp") s)
  else rret tt.


End Ocsprenewer.

(** Two contexts for the same certificate wait in the queue of a renewer
    that was given its queue and its dict. *)
Module RenewerFixtures.
Import Certcontext CertFixtures Ocsprenewer.

Definition certificates (crt : crt_ref) : CertContext := record.

Definition two_waiting : store :=
  mkStore certificates disk 0 (Some (mkRenewQueue [1%positive; 2%positive] 2))
    (Some ∅) None.

End RenewerFixtures.


(** ** Facts about the scheduler *)
Module SchedulingFacts.
Import Scheduling SchedFixtures.

Lemma PyDict_get_set {V} (k : datetime) (v : V) (d : PyDict.t V) :
  PyDict.get k (PyDict.set k v d) = Some v.
Proof.
  induction d as [|[k' v'] d IH]; simpl.
  - now rewrite Z.eqb_refl.
  - destruct (Z.eqb k k') eqn:E; simpl; rewrite E; [reflexivity | exact IH].
Qed.

Lemma PyDict_get_set_other {V} (k k' : datetime) (v : V) (d : PyDict.t V) :
  k <> k' -> PyDict.get k' (PyDict.set k v d) = PyDict.get k' d.
Proof.
  intros Hne. induction d as [|[k0 v0] d IH]; simpl.
  - destruct (Z.eqb k' k) eqn:E; [| reflexivity].
    apply Z.eqb_eq in E. congruence.
  - destruct (Z.eqb k k0) eqn:E; simpl.
    + apply Z.eqb_eq in E. subst k0.
      destruct (Z.eqb k' k) eqn:E'; [| reflexivity].
      apply Z.eqb_eq in E'. congruence.
    + destruct (Z.eqb k' k0); [reflexivity | exact IH].
Qed.

(** What [cancel_task] does to a scheduled context: it leaves the reverse
    map, and its slot is cut down to the occurrences of the context
    itself. *)
Lemma cancel_task_scheduled (w : world) (ctx : ctx_ref) (when : datetime)
    (slot : list ctx_ref) :
  scheduled (sched w) !! ctx = Some when ->
  PyDict.get when (schedule (sched w)) = Some slot ->
  cancel_task ctx w =
    ({| ctxs := ctxs w;
        sched :=
          {| _queues := _queues (sched w);
             schedule :=
               PyDict.set when (List.filter (fun x => Pos.eqb x ctx) slot)
                 (schedule (sched w));
             scheduled := delete ctx (scheduled (sched w)) |};
        log := log w;
        clock_reads := clock_reads w |}, Returns true).
Proof.
  intros Hrev Hfwd. unfold cancel_task, bind, get_sched. simpl.
  rewrite Hrev, Hfwd. reflexivity.
Qed.

Lemma cancel_task_slot (w : world) (ctx : ctx_ref) (when : datetime)
    (slot : list ctx_ref) :
  scheduled (sched w) !! ctx = Some when ->
  PyDict.get when (schedule (sched w)) = Some slot ->
  let w' := fst (cancel_task ctx w) in
  scheduled (sched w') !! ctx = None /\
  exists slot',
    PyDict.get when (schedule (sched w')) = Some slot' /\
    (forall other, other <> ctx -> ~ In other slot') /\
    (In ctx slot -> In ctx slot').
Proof.
  intros Hrev Hfwd. rewrite (cancel_task_scheduled w ctx when slot Hrev Hfwd).
  simpl. split; [apply lookup_delete_eq |].
  eexists. split; [apply PyDict_get_set |]. split.
  - intros other Hne Hin. apply filter_In in Hin as [_ Heq].
    apply Pos.eqb_eq in Heq. contradiction.
  - intros Hin. apply filter_In. split; [exact Hin | apply Pos.eqb_refl].
Qed.

(** A context that knows its scheduler cannot reschedule itself: the call
    passes two arguments to a method that takes one. *)
Lemma reschedule_attached (clock : nat -> datetime) (w : world)
    (self : ctx_ref) (when : sched_time_t) :
  scheduler (ctxs w self) = Some TheScheduler ->
  reschedule clock self when w =
    (w, Raises (TypeError
                  "add_task() takes 2 positional arguments but 3 were given")).
Proof.
  intros H. unfold reschedule, bind, get_ctx. simpl. rewrite H. reflexivity.
Qed.

Lemma reschedule_detached (clock : nat -> datetime) (w : world)
    (self : ctx_ref) (when : sched_time_t) :
  scheduler (ctxs w self) = None ->
  reschedule clock self when w =
    (w, Raises (AttributeError
                  "This context was never added to a queue before.")).
Proof.
  intros H. unfold reschedule, bind, get_ctx. simpl. rewrite H. reflexivity.
Qed.

(** C1, at two contexts sharing a slot: [cancel_task(ctx_a)] returns
    true and takes [ctx_a] out of the reverse map, but the slot then holds
    [ctx_a] alone, [ctx_b] being the one removed from it; the next tick
    raises [KeyError] at [ctx_a] and nothing reaches the queue, [ctx_b]
    staying in the reverse map for good. *)
Theorem cancel_task_keeps_cancelled_drops_others :
  scheduled (sched two_in_a_slot) !! ctx_a = Some T1 /\
  scheduled (sched two_in_a_slot) !! ctx_b = Some T1 /\
  schedule (sched two_in_a_slot) = [(T1, [ctx_a; ctx_b])] /\
  snd (cancel_task ctx_a two_in_a_slot) = Returns true /\
  let w1 := fst (cancel_task ctx_a two_in_a_slot) in
  scheduled (sched w1) !! ctx_a = None /\
  scheduled (sched w1) !! ctx_b = Some T1 /\
  schedule (sched w1) = [(T1, [ctx_a])] /\
  snd (_run clock12 false w1) = Raises (KeyError "del self.scheduled[ctx]") /\
  let w2 := fst (_run clock12 false w1) in
  queued w2 "renew" = [] /\
  schedule (sched w2) = [] /\
  scheduled (sched w2) !! ctx_b = Some T1.
Proof. vm_compute. repeat split; reflexivity. Qed.

(** C2, at one context added for [T1] and then for [T2]: the second
    [add_task] logs the warning and returns, but the context is then in
    both slots; the tick at [T1] promotes it, and the tick at [T2] raises
    [KeyError] without promoting anything. *)
Theorem second_add_task_leaves_both_slots :
  snd added_twice = Returns tt /\
  let w := fst added_twice in
  In (Warning_already_scheduled ctx_a) (log w) /\
  schedule (sched w) = [(T1, [ctx_a]); (T2, [ctx_a])] /\
  scheduled (sched w) !! ctx_a = Some T2 /\
  snd (_run clock12 false w) = Returns tt /\
  let w1 := fst (_run clock12 false w) in
  clock12 0 = T1 /\
  queued w1 "renew" = [ctx_a] /\
  snd (_run clock12 false w1) = Raises (KeyError "del self.scheduled[ctx]") /\
  let w2 := fst (_run clock12 false w1) in
  clock12 (clock_reads w1) = T2 /\
  queued w2 "renew" = [ctx_a].
Proof. vm_compute. repeat split; try reflexivity. right. left. reflexivity. Qed.

(** C10, at a context that was added to the scheduler: [reschedule]
    raises [TypeError] and the context stays scheduled where it was; on a
    context that was never added it raises the [AttributeError] of the
    claim. *)
Theorem reschedule_after_add_task_raises :
  scheduler (ctxs added_once ctx_a) = Some TheScheduler /\
  scheduled (sched added_once) !! ctx_a = Some T1 /\
  snd (reschedule clock12 ctx_a (ST_Datetime T2) added_once) =
    Raises (TypeError
              "add_task() takes 2 positional arguments but 3 were given") /\
  scheduled
    (sched (fst (reschedule clock12 ctx_a (ST_Datetime T2) added_once)))
    !! ctx_a = Some T1 /\
  snd (reschedule clock12 ctx_b (ST_Datetime T2) added_once) =
    Raises (AttributeError "This context was never added to a queue before.").
Proof. vm_compute. repeat split; reflexivity. Qed.

End SchedulingFacts.


(** ** Facts about the certificate context *)
Module CertcontextFacts.
Import Certcontext Traces.

Lemma bind_inv {A B} (m : M A) (k : A -> M B) (st st' : state)
    (evs : list event) (r : outcome B) :
  bind m k st = (st', evs, r) ->
  (exists st1 ev1 a ev2,
     m st = (st1, ev1, Returns a) /\ k a st1 = (st', ev2, r) /\
     evs = ev1 ++ ev2) \/
  (exists e, m st = (st', evs, Raises e) /\ r = Raises e) \/
  (m st = (st', evs, Blocks) /\ r = Blocks).
Proof.
  unfold bind. destruct (m st) as [[st1 ev1] [a|e|]].
  - destruct (k a st1) as [[st2 ev2] r2] eqn:Hk. intros [= <- <- <-].
    left. exists st1, ev1, a, ev2. auto.
  - intros [= <- <- <-]. right. left. exists e. auto.
  - intros [= <- <- <-]. right. right. auto.
Qed.

Lemma forallb_quiet_logs (l : list event) :
  forallb is_log l = true -> forallb quiet l = true.
Proof.
  induction l as [|e l IH]; simpl; [reflexivity |].
  intros H. apply andb_true_iff in H as [He Hl].
  destruct e; try discriminate. simpl. auto.
Qed.

Lemma run_eta {A} (x : state * list event * outcome A) :
  x = (run_state x, run_events x, run_result x).
Proof. destruct x as [[st evs] r]. reflexivity. Qed.

Lemma files_after_app (files : gmap string bytes) (l1 l2 : list event) :
  files_after files (l1 ++ l2) = files_after (files_after files l1) l2.
Proof. unfold files_after. apply fold_left_app. Qed.

Lemma files_after_quiet (files : gmap string bytes) (evs : list event) :
  forallb quiet evs = true -> files_after files evs = files.
Proof.
  unfold files_after. revert files.
  induction evs as [|e evs IH]; intros files; cbn; [reflexivity|].
  intros H. apply andb_true_iff in H as [He H].
  destruct e; try discriminate; cbn; auto.
Qed.

Section WithEnvironment.
Variable OCSP_REQUEST_RETRY_COUNT : Z.
Variable ocsp_module : option Z.
Variable requests_post : nat -> string -> bytes -> http_outcome.
Variable OCSPResponseParser : bytes -> exn + OCSPResponse.
Variable validate_usage :
  option Certificate -> list Certificate -> list bytes -> bool ->
  validation_error + list Certificate.
Variable build_request : Certificate -> Certificate -> bytes.
Variable urlparse_hostname : string -> exn + option string.
Variable unarmor : bytes -> list pem_item.
Variable Certificate_load : bytes -> option Certificate.

Lemma logs_not_terminal (l : list event) :
  forallb is_log l = true ->
  existsb (terminal_post OCSPResponseParser) l = false.
Proof.
  induction l as [|e l IH]; simpl; [reflexivity |].
  intros H. apply andb_true_iff in H as [He Hl].
  destruct e; try discriminate. simpl. auto.
Qed.

(** [check_ocsp_response] only logs; a terminal body makes it raise
    after the first record, and a true result means the body was parsed
    and stored. *)
Lemma check_ocsp_response_spec (staple : bytes) (url : string)
    (st st' : state) (evs : list event) (r : outcome bool) :
  check_ocsp_response OCSPResponseParser staple url st = (st', evs, r) ->
  filename (self st') = filename (self st) /\
  ocsp_urls (self st') = ocsp_urls (self st) /\
  fs st' = fs st /\
  (exists logs,
     evs = EvLog DEBUG (Msg_response_data staple) :: logs /\
     forallb is_log logs = true /\
     (terminal_body OCSPResponseParser staple = true ->
      logs = [] /\ raises_OCSPRenewError r)) /\
  match r with
  | Returns true =>
      exists parsed,
        OCSPResponseParser staple = inr parsed /\
        ocsp_staple (self st') = Some parsed
  | Returns false => True
  | Raises _ => True
  | Blocks => False
  end.
Proof.
  unfold check_ocsp_response, terminal_body, revoked_body, empty_body,
    bind, LOG, emit, raise, ret, get_self, set_self.
  destruct staple as [|b0 staple]; cbn.
  - intros [= <- <- <-]. repeat split.
    eexists; split; [reflexivity|].
    split; [reflexivity|]. intros _.
    split; [reflexivity | eexists; reflexivity].
  - destruct (OCSPResponseParser (b0 :: staple)) as [e|parsed] eqn:Hp; cbn.
    + intros [= <- <- <-]. repeat split. eexists; split; [reflexivity|].
      split; [reflexivity|]. discriminate.
    + destruct (String.eqb (status parsed) "good") eqn:Hg; cbn.
      * intros [= <- <- <-]. repeat split.
        -- eexists; split; [reflexivity|]. split; [reflexivity|].
           intros Hrev. apply String.eqb_eq in Hg. rewrite Hg in Hrev.
           discriminate.
        -- eexists; split; reflexivity.
      * destruct (String.eqb (status parsed) "revoked") eqn:Hr; cbn.
        -- intros [= <- <- <-]. repeat split. eexists; split; [reflexivity|].
           split; [reflexivity|]. intros _.
           split; [reflexivity | eexists; reflexivity].
        -- intros [= <- <- <-]. repeat split. eexists; split; [reflexivity|].
           split; [reflexivity|]. discriminate.
Qed.

(** The [try] statement: one POST, then at most one log record. *)
Lemma post_request_spec (url : string) (request : option Response)
    (st st' : state) (evs : list event) (r : outcome (option Response)) :
  post_request requests_post url request st = (st', evs, r) ->
  st' = {| self := self st; fs := fs st; posts := S (posts st) |} /\
  r <> Blocks /\
  exists body result logs,
    evs = EvPost url body result :: logs /\
    forallb is_log logs = true /\
    (forall rsp,
       result = HttpResponse rsp -> raise_for_status_ok rsp = true ->
       logs = [] /\ r = Returns (Some rsp)) /\
    (forall rq,
       r = Returns (Some rq) -> request = Some rq \/ result = HttpResponse rq).
Proof.
  unfold post_request, bind, get_self, LOG, emit, ret, raise.
  cbn.
  destruct (requests_post (posts st) url (default [] (ocsp_request (self st))))
    as [rsp|[]] eqn:Hpost; cbn.
  1: destruct (raise_for_status_ok rsp) eqn:Hok; cbn.
  all: intros [= <- <- <-].
  all: split; [reflexivity|]; split; [discriminate|].
  all: eexists; eexists; eexists; split; [reflexivity|]; split; [reflexivity|].
  all: split; [intros rsp' Heq Hok' | intros rq [= Hrq]; subst; auto].
  all: try discriminate.
  - injection Heq as <-. split; reflexivity.
  - injection Heq as <-. congruence.
Qed.

(** One pass through the loop body: a POST and then only log records.
    A terminal answer ends the pass, and the call, right after the record
    of its body. *)
Lemma attempt_spec (url : string) (request : option Response)
    (st st' : state) (evs : list event)
    (r : outcome (Response * bytes * bool)) :
  attempt requests_post OCSPResponseParser url request st = (st', evs, r) ->
  filename (self st') = filename (self st) /\
  ocsp_urls (self st') = ocsp_urls (self st) /\
  fs st' = fs st /\
  (exists body result logs,
     evs = EvPost url body result :: logs /\
     forallb is_log logs = true /\
     (terminal_post OCSPResponseParser (EvPost url body result) = true ->
      exists rsp,
        result = HttpResponse rsp /\
        logs = [EvLog DEBUG (Msg_response_data (content rsp))] /\
        raises_OCSPRenewError r)) /\
  match r with
  | Returns (rq, staple, good) =>
      staple = content rq /\
      (request = Some rq \/
       exists body, In (EvPost url body (HttpResponse rq)) evs) /\
      (good = true ->
       exists parsed,
         OCSPResponseParser staple = inr parsed /\
         ocsp_staple (self st') = Some parsed)
  | Raises _ => True
  | Blocks => False
  end.
Proof.
  unfold attempt. intros H.
  apply bind_inv in H
    as [(st1 & ev1 & request' & ev2 & Hp & Hk & ->)
       | [(e & Hp & ->) | (Hp & ->)]];
    apply post_request_spec in Hp
      as (Hst & Hnb & body & result & logs & Hev & Hlogs & Hok & Horigin).
  3: congruence.
  2: { subst st'. cbn. repeat split.
       exists body, result, logs.
       split; [assumption|]. split; [assumption|].
       unfold terminal_post, post_with_body.
       destruct result as [rsp|]; [|discriminate].
       intros Ht. apply andb_true_iff in Ht as [Ht _].
       destruct (Hok rsp eq_refl Ht) as [_ Hr]. discriminate. }
  assert (Hterm1 : forall rsp, result = HttpResponse rsp ->
                     raise_for_status_ok rsp = true ->
                     logs = [] /\ request' = Some rsp).
  { intros rsp Hr1 Hr2. destruct (Hok rsp Hr1 Hr2) as [? [= ?]]. auto. }
  clear Hok.
  destruct request' as [rq|].
  2: { unfold raise in Hk. injection Hk as <- <- <-. subst st1. cbn.
       repeat split.
       exists body, result, (logs ++ []). subst ev1.
       split; [reflexivity|]. rewrite app_nil_r. split; [assumption|].
       unfold terminal_post, post_with_body.
       destruct result as [rsp|]; [|discriminate].
       intros Ht. apply andb_true_iff in Ht as [Ht _].
       destruct (Hterm1 rsp eq_refl Ht) as [_ Hr]. discriminate. }
  apply bind_inv in Hk
    as [(st2 & ev3 & good & ev4 & Hc & Hk & ->)
       | [(e & Hc & ->) | (Hc & ->)]];
    apply check_ocsp_response_spec in Hc
      as (Hf & Hu & Hfs & (logs2 & Hev2 & Hlogs2 & Hterm) & Hret).
  3: contradiction.
  - unfold ret in Hk. injection Hk as <- <- <-.
    rewrite Hf, Hu, Hfs. subst st1. cbn. repeat split.
    + exists body, result, (logs ++ ev3 ++ []). subst ev1 ev3.
      split; [reflexivity|]. rewrite app_nil_r. split.
      { rewrite forallb_app, Hlogs. cbn. exact Hlogs2. }
      unfold terminal_post, post_with_body.
      destruct result as [rsp|]; [|discriminate].
      intros Ht. apply andb_true_iff in Ht as [Ht Hb].
      destruct (Hterm1 rsp eq_refl Ht) as [-> [= ->]].
      destruct (Hterm Hb) as [_ [msg Hm]]. discriminate.
    + destruct (Horigin rq eq_refl) as [Ho | Ho]; [left; exact Ho |].
      right. exists body. subst ev1 result. left. reflexivity.
    + intros ->. exact Hret.
  - rewrite Hf, Hu, Hfs. subst st1. cbn. repeat split.
    exists body, result, (logs ++ ev2). subst ev1 ev2.
    split; [reflexivity|]. split.
    { rewrite forallb_app, Hlogs. cbn. exact Hlogs2. }
    unfold terminal_post, post_with_body.
    destruct result as [rsp|]; [|discriminate].
    intros Ht. apply andb_true_iff in Ht as [Ht Hb].
    destruct (Hterm1 rsp eq_refl Ht) as [-> [= ->]].
    destruct (Hterm Hb) as [-> Hm].
    exists rsp. repeat split. destruct Hm as [msg [= ->]]. eexists; reflexivity.
Qed.

Lemma terminal_last_prepend {A} (pre evs : list event) (r : outcome A) :
  existsb (terminal_post OCSPResponseParser) pre = false ->
  terminal_last OCSPResponseParser evs r ->
  terminal_last OCSPResponseParser (pre ++ evs) r.
Proof.
  intros Hpre [Hfree | (pre0 & url & request & rsp & -> & Hfree & Ht & Hr)].
  - left. rewrite existsb_app, Hpre, Hfree. reflexivity.
  - right. exists (pre ++ pre0), url, request, rsp.
    rewrite app_assoc. split; [reflexivity|].
    rewrite existsb_app, Hpre, Hfree. auto.
Qed.

Lemma renew_shape_prepend (path : string) (before after : gmap string bytes)
    (pre evs : list event) (r : outcome bool) :
  forallb quiet pre = true ->
  renew_shape OCSPResponseParser path before after evs r ->
  renew_shape OCSPResponseParser path before after (pre ++ evs) r.
Proof.
  intros Hpre Hs. destruct Hs; rewrite ?app_assoc.
  - eapply shape_persisted;
      [rewrite forallb_app, Hpre; assumption
      | apply in_or_app; right; eassumption | assumption].
  - apply shape_failed. rewrite forallb_app, Hpre. assumption.
  - apply shape_rejected; [rewrite forallb_app, Hpre; assumption | assumption].
  - apply shape_unbound. rewrite forallb_app, Hpre. assumption.
Qed.

Lemma renew_inv_prepend (st st1 st' : state) (pre evs : list event)
    (r : outcome bool) :
  filename (self st1) = filename (self st) ->
  fs st1 = fs st ->
  forallb quiet pre = true ->
  existsb (terminal_post OCSPResponseParser) pre = false ->
  renew_inv OCSPResponseParser st1 (st', evs, r) ->
  renew_inv OCSPResponseParser st (st', pre ++ evs, r).
Proof.
  unfold renew_inv, run_state, run_events, run_result. cbn.
  intros Hf Hfs Hq Ht (H1 & H2 & H3). rewrite Hf, Hfs in *.
  split; [assumption|]. split.
  - apply renew_shape_prepend; assumption.
  - apply terminal_last_prepend; assumption.
Qed.

(** A call that raises after quiet events, with no terminal answer
    among them, satisfies the invariant. *)
Lemma renew_inv_failed (st st' : state) (evs : list event) (e : exn) :
  filename (self st') = filename (self st) ->
  fs st' = fs st ->
  forallb quiet evs = true ->
  terminal_last OCSPResponseParser evs (@Raises bool e) ->
  renew_inv OCSPResponseParser st (st', evs, Raises e).
Proof.
  unfold renew_inv, run_state, run_events, run_result. cbn.
  intros Hf Hfs Hq Ht. rewrite Hfs. repeat split; try assumption.
  apply shape_failed. assumption.
Qed.

Lemma renew_inv_not_blocks (st st' : state) (evs : list event) :
  renew_inv OCSPResponseParser st (st', evs, Blocks) -> False.
Proof.
  unfold renew_inv, run_result. cbn. intros (_ & Hs & _). inversion Hs.
Qed.

(** The events of one pass are quiet, and a terminal answer among them
    is the last POST. *)
Lemma attempt_events (url : string) (request : option Response)
    (st st' : state) (evs : list event)
    (r : outcome (Response * bytes * bool)) :
  attempt requests_post OCSPResponseParser url request st = (st', evs, r) ->
  forallb quiet evs = true /\
  (existsb (terminal_post OCSPResponseParser) evs = false \/
   (exists body rsp,
      evs = [EvPost url body (HttpResponse rsp);
             EvLog DEBUG (Msg_response_data (content rsp))] /\
      terminal_post OCSPResponseParser (EvPost url body (HttpResponse rsp))
        = true /\
      raises_OCSPRenewError r)).
Proof.
  intros H. apply attempt_spec in H
    as (_ & _ & _ & (body & result & logs & -> & Hlogs & Hterm) & _).
  split.
  - cbn. apply forallb_quiet_logs. assumption.
  - destruct (terminal_post OCSPResponseParser (EvPost url body result))
      eqn:Ht.
    + right. destruct (Hterm eq_refl) as (rsp & -> & -> & Hr).
      exists body, rsp. auto.
    + left. cbn [existsb]. rewrite Ht. cbn. apply logs_not_terminal. assumption.
Qed.

Lemma terminal_last_of_attempt {A B} (evs : list event) (r : outcome A)
    (e : exn) :
  (existsb (terminal_post OCSPResponseParser) evs = false \/
   (exists (url : string) body rsp,
      evs = [EvPost url body (HttpResponse rsp);
             EvLog DEBUG (Msg_response_data (content rsp))] /\
      terminal_post OCSPResponseParser (EvPost url body (HttpResponse rsp))
        = true /\
      raises_OCSPRenewError r)) ->
  r = Raises e ->
  terminal_last OCSPResponseParser evs (@Raises B e).
Proof.
  intros [Hfree | (url & body & rsp & -> & Ht & [msg Hr])] ->.
  - left. assumption.
  - right. exists [], url, body, rsp. injection Hr as ->.
    repeat split; try assumption. eexists; reflexivity.
Qed.

(** The retry loop: it breaks with a parsed good staple after quiet
    events, or the call is over and satisfies the invariant. *)
Lemma retry_loop_spec (next : M bool) (url : string) (url_index : nat) :
  (forall st1 st' evs r,
     next st1 = (st', evs, r) ->
     renew_inv OCSPResponseParser st1 (st', evs, r)) ->
  forall (retry : nat) (request : option Response) (st st' : state)
    (evs : list event) (r : outcome loop_exit),
    retry_loop ocsp_module requests_post OCSPResponseParser next url
      url_index retry request st = (st', evs, r) ->
    match r with
    | Returns (Break staple) =>
        filename (self st') = filename (self st) /\
        fs st' = fs st /\
        forallb quiet evs = true /\
        existsb (terminal_post OCSPResponseParser) evs = false /\
        (exists rsp,
           staple = content rsp /\
           (request = Some rsp \/
            exists body, In (EvPost url body (HttpResponse rsp)) evs)) /\
        exists parsed,
          OCSPResponseParser staple = inr parsed /\
          ocsp_staple (self st') = Some parsed
    | Returns Exhausted => retry = O /\ st' = st /\ evs = []
    | Returns (Return v) =>
        renew_inv OCSPResponseParser st (st', evs, Returns v)
    | Raises e => renew_inv OCSPResponseParser st (st', evs, Raises e)
    | Blocks => False
    end.
Proof.
  intros Hnext retry.
  induction retry as [|retry' IH]; intros request st st' evs r.
  - cbn. unfold ret. intros [= <- <- <-]. auto.
  - cbn [retry_loop]. intros H.
    apply bind_inv in H
      as [(st1 & ev1 & [[rq staple] good] & ev2 & Ha & Hk & ->)
         | [(e & Ha & ->) | (Ha & ->)]].
    3: { apply attempt_spec in Ha. tauto. }
    2: { pose proof (attempt_events _ _ _ _ _ _ Ha) as [Hq Ht].
         apply attempt_spec in Ha as (Hf & _ & Hfs & _).
         apply renew_inv_failed; try assumption.
         destruct Ht as [Ht | (body & rsp & Ht)].
         - left. assumption.
         - eapply terminal_last_of_attempt;
             [right; exists url, body, rsp; exact Ht | reflexivity]. }
    pose proof (attempt_events _ _ _ _ _ _ Ha) as [Hq Ht].
    assert (Hfree : existsb (terminal_post OCSPResponseParser) ev1 = false).
    { destruct Ht as [Ht | (body & rsp & _ & _ & [msg Hm])];
        [assumption | discriminate]. }
    clear Ht.
    apply attempt_spec in Ha as (Hf & Hu & Hfs & _ & Hstaple & Horigin & Hgood).
    destruct good.
    { unfold ret in Hk. injection Hk as <- <- <-.
      rewrite app_nil_r. repeat split; auto. exists rq. auto. }
    clear Hgood.
    destruct retry' as [|retry''].
    + apply bind_inv in Hk
        as [(st1' & ev1' & c & ev2' & Hg & Hk & ->)
           | [(e & Hg & ->) | (Hg & ->)]];
        unfold get_self in Hg; try discriminate.
      injection Hg as <- <- <-. cbn [app].
      destruct (url_index + 1 <? length (ocsp_urls (self st1)))%nat.
      * apply bind_inv in Hk
          as [(st2 & ev3 & v & ev4 & Hn & Hk & ->)
             | [(e & Hn & ->) | (Hn & ->)]];
          apply Hnext in Hn.
        -- unfold ret in Hk. injection Hk as <- <- <-. rewrite app_nil_r.
           eapply renew_inv_prepend; eassumption.
        -- eapply renew_inv_prepend; eassumption.
        -- apply renew_inv_not_blocks in Hn. contradiction.
      * unfold raise in Hk. injection Hk as <- <- <-. rewrite app_nil_r.
        apply renew_inv_failed; try assumption. left. assumption.
    + destruct ocsp_module as [count|].
      2: { unfold raise in Hk. injection Hk as <- <- <-. rewrite app_nil_r.
           apply renew_inv_failed; try assumption. left. assumption. }
      set (sl := (count - Z.of_nat (S retry'')) * 5) in *.
      apply bind_inv in Hk
        as [(st2 & ev3 & u & ev4 & Hlog & Hk & ->)
           | [(e & Hlog & ->) | (Hlog & ->)]];
        unfold LOG, emit in Hlog; try discriminate.
      injection Hlog as <- <- _.
      apply bind_inv in Hk
        as [(st3 & ev5 & u' & ev6 & Hs & Hk & ->)
           | [(e & Hs & ->) | (Hs & ->)]];
        unfold sleep, raise, emit in Hs; destruct (sl <? 0); try discriminate.
      * injection Hs as <- <- _.
        apply IH in Hk.
        assert (Hq' : forallb quiet
                        (ev1 ++ [EvLog INFO (Msg_retrying_in sl); EvSleep sl])
                      = true).
        { rewrite forallb_app, Hq. reflexivity. }
        assert (Hfree' : existsb (terminal_post OCSPResponseParser)
                           (ev1 ++
                            [EvLog INFO (Msg_retrying_in sl); EvSleep sl])
                         = false).
        { rewrite existsb_app, Hfree. reflexivity. }
        replace (ev1 ++
                 [EvLog INFO (Msg_retrying_in sl)] ++ [EvSleep sl] ++ ev6)
          with ((ev1 ++ [EvLog INFO (Msg_retrying_in sl); EvSleep sl]) ++ ev6)
          by (rewrite <- app_assoc; reflexivity).
        destruct r as [[staple2|v|]|e|].
        -- destruct Hk as (Hf2 & Hfs2 & Hq2 & Hfree2 & Ho2 & Hp2).
           split; [congruence|]. split; [congruence|].
           split; [rewrite forallb_app, Hq', Hq2; reflexivity|].
           split; [rewrite existsb_app, Hfree', Hfree2; reflexivity|].
           split; [| assumption].
           destruct Ho2 as (rsp & -> & [[= <-] | (body & Hin)]).
           ++ exists rq. split; [reflexivity|].
              destruct Horigin as [Ho | (body & Hin)]; [left; exact Ho |].
              right. exists body. apply in_or_app. left.
              apply in_or_app. left. exact Hin.
           ++ exists rsp. split; [reflexivity|]. right. exists body.
              apply in_or_app. right. exact Hin.
        -- eapply renew_inv_prepend; eassumption.
        -- destruct Hk as [Hk _]. discriminate.
        -- eapply renew_inv_prepend; eassumption.
        -- contradiction.
      * injection Hs as <- <- <-. rewrite !app_nil_r.
        apply renew_inv_failed; try assumption.
        -- rewrite forallb_app, Hq. reflexivity.
        -- left. rewrite existsb_app, Hfree. reflexivity.
Qed.

(** [_validate_cert] leaves the store alone; with a staple in the
    record, the staple is what the validator is given. *)
Lemma _validate_cert_spec (st st' : state) (evs : list event)
    (r : outcome (list Certificate)) :
  _validate_cert validate_usage st = (st', evs, r) ->
  st' = st /\
  exists msg ocsps fetch result,
    (forall parsed,
       ocsp_staple (self st) = Some parsed ->
       msg = Msg_validating_with_staple /\ ocsps = [data parsed] /\
       fetch = true) /\
    match result with
    | inr path =>
        evs = [EvLog INFO msg; EvValidate ocsps fetch (inr path);
               EvLog INFO Msg_chain_validated] /\
        r = Returns path
    | inl err =>
        evs = [EvLog INFO msg; EvValidate ocsps fetch (inl err)] /\
        exists e, r = Raises e /\ validation_raises err e
    end.
Proof.
  unfold _validate_cert, bind, get_self, LOG, emit, ret, raise.
  destruct (ocsp_staple (self st)) as [staple|] eqn:Hs; cbn.
  - destruct (validate_usage (end_entity (self st)) (intermediates (self st))
                [data staple] true) as [err|path] eqn:Hv.
    + destruct err; cbn; intros [= <- <- <-]; split; try reflexivity;
        eexists _, _, _, (inl _);
        (split; [intros parsed [= <-]; repeat split |]);
        (split; [reflexivity|]); eexists; split; try reflexivity;
        cbn; eexists; reflexivity.
    + cbn. intros [= <- <- <-]. split; [reflexivity|].
      eexists _, _, _, (inr _).
      split; [intros parsed [= <-]; repeat split |].
      split; reflexivity.
  - destruct (validate_usage (end_entity (self st)) (intermediates (self st))
                [] false) as [err|path] eqn:Hv.
    + destruct err; cbn; intros [= <- <- <-]; split; try reflexivity;
        eexists _, _, _, (inl _);
        (split; [intros parsed; discriminate |]);
        (split; [reflexivity|]); eexists; split; try reflexivity;
        cbn; eexists; reflexivity.
    + cbn. intros [= <- <- <-]. split; [reflexivity|].
      eexists _, _, _, (inr _).
      split; [intros parsed; discriminate |].
      split; reflexivity.
Qed.

(** The end of the call: validation with the staple, then the write. *)
Lemma persist_spec (staple : option bytes) (st st' : state)
    (evs : list event) (r : outcome bool) :
  persist validate_usage staple st = (st', evs, r) ->
  let path := String.append (filename (self st)) ".ocsp" in
  self st' = self st /\
  ((exists body validated,
      staple = Some body /\
      (forall parsed,
         ocsp_staple (self st) = Some parsed ->
         evs = persist_events path body parsed validated) /\
      r = Returns true /\ fs st' = <[path := body]> (fs st)) \/
   (exists msg ocsps fetch err e,
      evs = [EvLog INFO Msg_validating_staple; EvLog INFO msg;
             EvValidate ocsps fetch (inl err)] /\
      r = Raises e /\ fs st' = fs st /\ validation_raises err e) \/
   (exists msg ocsps fetch validated text,
      staple = None /\
      evs = [EvLog INFO Msg_validating_staple; EvLog INFO msg;
             EvValidate ocsps fetch (inr validated);
             EvLog INFO Msg_chain_validated;
             EvLog INFO (Msg_writing_to_file path);
             EvOpen path; EvClose path] /\
      r = Raises (UnboundLocalError text) /\
      fs st' = <[path := []]> (fs st))).
Proof.
  unfold persist. intros H. cbv zeta.
  set (path := String.append (filename (self st)) ".ocsp").
  apply bind_inv in H
    as [(st1 & ev1 & u & ev2 & Hlog & Hk & ->)
       | [(e & Hlog & ->) | (Hlog & ->)]];
    unfold LOG, emit in Hlog; try discriminate.
  injection Hlog as <- <- _.
  apply bind_inv in Hk
    as [(st2 & ev3 & validated & ev4 & Hv & Hk & ->)
       | [(e & Hv & ->) | (Hv & ->)]];
    apply _validate_cert_spec in Hv
      as (-> & msg & ocsps & fetch & result & Hwith & Hres).
  - destruct result as [err|path']; destruct Hres as [-> Hres];
      [destruct Hres as (e & [=] & _) |].
    injection Hres as <-.
    unfold bind, get_self, LOG, emit, open_wb, write, close, ret, raise in Hk.
    destruct staple as [body|]; cbn in Hk; injection Hk as <- <- <-.
    + split; [reflexivity|]. left. exists body, validated.
      split; [reflexivity|]. split.
      * intros parsed Hst. destruct (Hwith parsed Hst) as (-> & -> & ->).
        reflexivity.
      * split; [reflexivity|]. cbn. fold path.
        rewrite lookup_insert_eq. cbn. apply insert_insert_eq.
    + split; [reflexivity|]. right. right.
      exists msg, ocsps, fetch, validated. eexists. repeat split.
  - destruct result as [err|path']; destruct Hres as [-> Hres];
      [| discriminate].
    destruct Hres as (e' & [= <-] & Hraises).
    split; [reflexivity|]. right. left.
    exists msg, ocsps, fetch, err, e. repeat split. assumption.
  - destruct result as [err|path']; destruct Hres as [-> Hres];
      [destruct Hres as (e & [=] & _) | discriminate].
Qed.

(** The body of [renew_ocsp_staple] keeps the invariant if the
    recursive call does. *)
Lemma renew_ocsp_staple_body_spec (next : M bool) (url_index : nat) :
  (forall st1 st' evs r,
     next st1 = (st', evs, r) ->
     renew_inv OCSPResponseParser st1 (st', evs, r)) ->
  forall (st st' : state) (evs : list event) (r : outcome bool),
    renew_ocsp_staple_body OCSP_REQUEST_RETRY_COUNT ocsp_module requests_post
      OCSPResponseParser validate_usage build_request urlparse_hostname next
      url_index st
    = (st', evs, r) ->
    renew_inv OCSPResponseParser st (st', evs, r).
Proof.
  intros Hnext st st' evs r. unfold renew_ocsp_staple_body.
  unfold bind at 1, get_self at 1.
  assert (Hfail : forall e, renew_inv OCSPResponseParser st (st, [], Raises e)).
  { intros e. apply renew_inv_failed; try reflexivity. left. reflexivity. }
  destruct (end_entity (self st)) as [certificate|];
    [| unfold raise; intros [= <- <- <-]; apply Hfail].
  destruct (length (chain (self st)) <? 1)%nat;
    [unfold raise; intros [= <- <- <-]; apply Hfail |].
  destruct (ocsp_urls (self st) !! url_index) as [url|];
    [| unfold raise; intros [= <- <- <-]; apply Hfail].
  destruct (urlparse_hostname url) as [e0|host];
    [unfold raise; intros [= <- <- <-]; apply Hfail |].
  destruct (second_to_last (chain (self st))) as [issuer|];
    [| unfold raise; intros [= <- <- <-]; apply Hfail].
  unfold bind at 1, set_self at 1.
  unfold bind at 1, LOG at 1, emit at 1.
  unfold bind at 1, LOG at 1, emit at 1.
  set (st1 := {| self := _; fs := fs st; posts := posts st |}).
  set (k := fun exit : loop_exit => _).
  destruct (bind _ k st1) as [[st2 ev2] r2] eqn:Hk.
  cbn. intros [= <- <- <-].
  change (EvLog DEBUG (Msg_request_data (build_request certificate issuer))
            :: EvLog INFO (Msg_trying_url url) :: ev2)
    with ([EvLog DEBUG (Msg_request_data (build_request certificate issuer));
           EvLog INFO (Msg_trying_url url)] ++ ev2).
  apply (renew_inv_prepend st st1); try reflexivity.
  apply bind_inv in Hk
    as [(st3 & ev3 & exit & ev4 & Hl & Hk & ->)
       | [(e & Hl & ->) | (Hl & ->)]];
    apply (retry_loop_spec next url url_index Hnext) in Hl.
  3: contradiction.
  2: assumption.
  subst k. cbn beta in Hk.
  destruct exit as [staple|v|].
  - destruct Hl
      as (Hf & Hfs & Hq & Hfree & (rsp & -> & Horigin) & parsed & Hparsed & Hst).
    destruct Horigin as [[=] | (body & Hin)].
    apply persist_spec in Hk as (Hself & Hcases). cbv zeta in Hcases.
    rewrite Hf in Hcases.
    unfold renew_inv, run_state, run_events, run_result. cbn [fst snd].
    rewrite Hself, Hf. split; [reflexivity|].
    destruct Hcases
      as [(body' & validated & [= <-] & Hev & -> & Hfs')
         | [(msg & ocsps & fetch & err & e & -> & -> & Hfs' & Hv)
           | (msg & ocsps & fetch & validated & text & [=] & _)]].
    + rewrite (Hev parsed Hst), Hfs', Hfs. split.
      * eapply shape_persisted; eassumption.
      * left. rewrite existsb_app, Hfree. reflexivity.
    + rewrite Hfs', Hfs. split.
      * eapply shape_rejected; eassumption.
      * left. rewrite existsb_app, Hfree. reflexivity.
  - unfold ret in Hk. injection Hk as <- <- <-. rewrite app_nil_r. assumption.
  - destruct Hl as (_ & -> & ->). cbn [app].
    apply persist_spec in Hk as (Hself & Hcases). cbv zeta in Hcases.
    unfold renew_inv, run_state, run_events, run_result. cbn [fst snd].
    rewrite Hself. split; [reflexivity|].
    destruct Hcases
      as [(body' & validated & [=] & _)
         | [(msg & ocsps & fetch & err & e & -> & -> & Hfs' & Hv)
           | (msg & ocsps & fetch & validated & text & _ & -> & -> & Hfs')]].
    + rewrite Hfs'. split.
      * apply (shape_rejected OCSPResponseParser _ _ [] msg ocsps fetch err e);
          [reflexivity | assumption].
      * left. reflexivity.
    + rewrite Hfs'. split.
      * apply (shape_unbound OCSPResponseParser _ _ [] msg ocsps fetch
                 validated).
        reflexivity.
      * left. reflexivity.
Qed.

Lemma renew_ocsp_staple_rec_spec (depth url_index : nat) (st st' : state)
    (evs : list event) (r : outcome bool) :
  renew_ocsp_staple_rec OCSP_REQUEST_RETRY_COUNT ocsp_module requests_post
    OCSPResponseParser validate_usage build_request urlparse_hostname depth
    url_index st
  = (st', evs, r) ->
  renew_inv OCSPResponseParser st (st', evs, r).
Proof.
  revert url_index st st' evs r.
  induction depth as [|depth IH]; intros url_index st st' evs r;
    cbn [renew_ocsp_staple_rec]; apply renew_ocsp_staple_body_spec.
  - intros st1 st2 ev2 r2. unfold raise. intros [= <- <- <-].
    apply renew_inv_failed; try reflexivity. left. reflexivity.
  - intros st1 st2 ev2 r2. apply IH.
Qed.

(** Every call of [renew_ocsp_staple] has one of the four shapes, and a
    terminal answer is its last POST. *)
Lemma renew_ocsp_staple_spec (url_index : nat) (st st' : state)
    (evs : list event) (r : outcome bool) :
  renew_ocsp_staple OCSP_REQUEST_RETRY_COUNT ocsp_module requests_post
    OCSPResponseParser validate_usage build_request urlparse_hostname
    url_index st
  = (st', evs, r) ->
  renew_inv OCSPResponseParser st (st', evs, r).
Proof. unfold renew_ocsp_staple. apply renew_ocsp_staple_rec_spec. Qed.

(** *** Reading a call off its events *)

Lemma split_after_prefix (P : event -> bool) (pre0 tail pre : list event)
    (e : event) (post : list event) :
  forallb P pre0 = true ->
  P e = false ->
  pre0 ++ tail = pre ++ e :: post ->
  exists mid, pre = pre0 ++ mid /\ tail = mid ++ e :: post.
Proof.
  revert pre. induction pre0 as [|x pre0 IH]; intros pre Hall He Heq.
  - exists pre. auto.
  - cbn in Hall. apply andb_true_iff in Hall as [Hx Hall].
    destruct pre as [|y pre]; cbn in Heq.
    + injection Heq as -> _. congruence.
    + injection Heq as -> Heq.
      destruct (IH pre Hall He Heq) as (mid & -> & ->).
      exists mid. auto.
Qed.

Lemma existsb_false_forallb_negb (P : event -> bool) (l : list event) :
  existsb P l = false -> forallb (fun e => negb (P e)) l = true.
Proof.
  induction l as [|x l IH]; cbn; [reflexivity|].
  intros H. apply orb_false_iff in H as [-> H]. cbn. auto.
Qed.

Lemma quiet_not_file_event (e : event) :
  quiet e = true -> file_event e = false.
Proof. destruct e; cbn; congruence. Qed.

Lemma quiet_no_file_events (evs : list event) :
  forallb quiet evs = true -> forall e, In e evs -> file_event e = false.
Proof.
  intros H e He. apply quiet_not_file_event.
  rewrite forallb_forall in H. auto.
Qed.

Lemma validation_raises_not_renew (err : validation_error) (msg : string) :
  validation_raises err (OCSPRenewError msg) -> False.
Proof. destruct err; intros [m [=]]. Qed.

Lemma renew_shape_cases (path : string) (before after : gmap string bytes)
    (evs : list event) (r : outcome bool) :
  renew_shape OCSPResponseParser path before after evs r ->
  (exists pre url request rsp parsed validated,
     evs = pre ++ persist_events path (content rsp) parsed validated /\
     r = Returns true /\ after = <[path := content rsp]> before /\
     forallb quiet pre = true /\
     In (EvPost url request (HttpResponse rsp)) pre /\
     OCSPResponseParser (content rsp) = inr parsed) \/
  (exists e, r = Raises e /\ after = before /\ forallb quiet evs = true) \/
  (exists pre msg ocsps fetch err e,
     evs = pre ++ [EvLog INFO Msg_validating_staple; EvLog INFO msg;
                   EvValidate ocsps fetch (inl err)] /\
     r = Raises e /\ after = before /\
     forallb quiet pre = true /\ validation_raises err e) \/
  (exists pre msg ocsps fetch validated text,
     evs = pre ++ [EvLog INFO Msg_validating_staple; EvLog INFO msg;
                   EvValidate ocsps fetch (inr validated);
                   EvLog INFO Msg_chain_validated;
                   EvLog INFO (Msg_writing_to_file path);
                   EvOpen path; EvClose path] /\
     r = Raises (UnboundLocalError text) /\ after = <[path := []]> before /\
     forallb quiet pre = true).
Proof.
  intros H. destruct H.
  - left. eexists _, _, _, _, _, _. eauto 10.
  - right. left. eexists. auto.
  - right. right. left. eexists _, _, _, _, _, _. auto.
  - right. right. right. eexists _, _, _, _, _, _. auto.
Qed.

(** A POST answered with a terminal body is the last POST of the call,
    followed by the record of its body alone; the call raises
    [OCSPRenewError] and touches no file. *)
Lemma terminal_answer_is_last (url_index : nat) (st st' : state)
    (evs : list event) (r : outcome bool)
    (pre : list event) (url : string) (request : bytes) (rsp : Response)
    (post : list event) :
  renew_ocsp_staple OCSP_REQUEST_RETRY_COUNT ocsp_module requests_post
    OCSPResponseParser validate_usage build_request urlparse_hostname
    url_index st
  = (st', evs, r) ->
  evs = pre ++ EvPost url request (HttpResponse rsp) :: post ->
  raise_for_status_ok rsp = true ->
  terminal_body OCSPResponseParser (content rsp) = true ->
  post = [EvLog DEBUG (Msg_response_data (content rsp))] /\
  raises_OCSPRenewError r /\
  fs st' = fs st /\
  (forall e, In e evs -> file_event e = false).
Proof.
  intros Hrun Hevs Hok Hbody.
  apply renew_ocsp_staple_spec in Hrun as (_ & Hshape & Hlast).
  unfold run_state, run_events, run_result in *. cbn in Hshape, Hlast.
  assert (Ht : terminal_post OCSPResponseParser
                 (EvPost url request (HttpResponse rsp)) = true).
  { unfold terminal_post, post_with_body. rewrite Hok, Hbody. reflexivity. }
  destruct Hlast
    as [Hfree | (pre0 & url0 & request0 & rsp0 & Heq & Hfree & Ht0 & Hr)].
  { rewrite Hevs, existsb_app in Hfree. cbn [existsb] in Hfree.
    rewrite Ht, orb_true_r in Hfree. discriminate. }
  assert (Hpost : post = [EvLog DEBUG (Msg_response_data (content rsp))]).
  { rewrite Hevs in Heq. symmetry in Heq.
    apply (split_after_prefix
             (fun e => negb (terminal_post OCSPResponseParser e))) in Heq
      as (mid & _ & Hmid);
      [| apply existsb_false_forallb_negb; assumption
       | rewrite Ht; reflexivity].
    destruct mid as [|m1 [|m2 [|m3 mid]]]; cbn in Hmid; try discriminate.
    inversion Hmid; subst. reflexivity. }
  split; [assumption|]. split; [assumption|].
  destruct Hr as [msg ->].
  apply renew_shape_cases in Hshape
    as [(pre1 & u1 & q1 & r1 & p1 & v1 & _ & [=] & _)
       | [(e1 & _ & Hfs & Hq)
         | [(pre1 & m & o & f & err & e1 & _ & [= <-] & _ & _ & Hv)
           | (pre1 & m & o & f & v1 & text & _ & [=] & _)]]].
  - split; [assumption | apply quiet_no_file_events; assumption].
  - apply validation_raises_not_renew in Hv. contradiction.
Qed.

(** C4. Once a POST is answered with a body that parses to status
    revoked, nothing follows but the record of that body: no retry, no
    further URL, no write; the call raises [OCSPRenewError]. *)
Theorem revoked_is_terminal (url_index : nat) (st st' : state)
    (evs : list event) (r : outcome bool)
    (pre : list event) (url : string) (request : bytes) (rsp : Response)
    (post : list event) :
  renew_ocsp_staple OCSP_REQUEST_RETRY_COUNT ocsp_module requests_post
    OCSPResponseParser validate_usage build_request urlparse_hostname
    url_index st
  = (st', evs, r) ->
  evs = pre ++ EvPost url request (HttpResponse rsp) :: post ->
  raise_for_status_ok rsp = true ->
  revoked_body OCSPResponseParser (content rsp) = true ->
  post = [EvLog DEBUG (Msg_response_data (content rsp))] /\
  raises_OCSPRenewError r /\
  fs st' = fs st /\
  (forall e, In e evs -> file_event e = false).
Proof.
  intros Hrun Hevs Hok Hrev.
  eapply terminal_answer_is_last; try eassumption.
  unfold terminal_body. rewrite Hrev. apply orb_true_r.
Qed.

(** What the code keeps of the rule for empty bodies: once a POST is
    answered with a status that passes [raise_for_status] and an empty
    body, nothing follows but the record of that body: no retry, no
    further URL, no write; the call raises [OCSPRenewError]. *)
Theorem empty_body_is_terminal (url_index : nat) (st st' : state)
    (evs : list event) (r : outcome bool)
    (pre : list event) (url : string) (request : bytes) (rsp : Response)
    (post : list event) :
  renew_ocsp_staple OCSP_REQUEST_RETRY_COUNT ocsp_module requests_post
    OCSPResponseParser validate_usage build_request urlparse_hostname
    url_index st
  = (st', evs, r) ->
  evs = pre ++ EvPost url request (HttpResponse rsp) :: post ->
  raise_for_status_ok rsp = true ->
  content rsp = [] ->
  post = [EvLog DEBUG (Msg_response_data [])] /\
  raises_OCSPRenewError r /\
  fs st' = fs st /\
  (forall e, In e evs -> file_event e = false).
Proof.
  intros Hrun Hevs Hok Hempty.
  rewrite <- Hempty at 1.
  eapply terminal_answer_is_last; try eassumption.
  unfold terminal_body. rewrite Hempty. reflexivity.
Qed.

(** C3. Whatever is written goes to [<filename>.ocsp], and the events
    just before the write are the successful validation of the chain with
    the staple parsed from those very bytes, two log records and the
    opening of the file.  If a validation fails the call raises, as
    [CertValidationError] for every error of the validator's own, and
    touches no file. *)
Theorem write_follows_validation (url_index : nat) (st st' : state)
    (evs : list event) (r : outcome bool) :
  renew_ocsp_staple OCSP_REQUEST_RETRY_COUNT ocsp_module requests_post
    OCSPResponseParser validate_usage build_request urlparse_hostname
    url_index st
  = (st', evs, r) ->
  (forall pre path body post,
     evs = pre ++ EvWrite path body :: post ->
     path = String.append (filename (self st)) ".ocsp" /\
     exists pre' parsed validated,
       OCSPResponseParser body = inr parsed /\
       pre = pre' ++ [EvLog INFO Msg_validating_staple;
                      EvLog INFO Msg_validating_with_staple;
                      EvValidate [data parsed] true (inr validated);
                      EvLog INFO Msg_chain_validated;
                      EvLog INFO (Msg_writing_to_file path);
                      EvOpen path]) /\
  (forall ocsps fetch err,
     In (EvValidate ocsps fetch (inl err)) evs ->
     (exists e, r = Raises e) /\
     (err <> ValidatorTypeError -> raises_CertValidationError r) /\
     fs st' = fs st /\
     (forall e, In e evs -> file_event e = false)).
Proof.
  intros Hrun.
  apply renew_ocsp_staple_spec in Hrun as (_ & Hshape & _).
  unfold run_state, run_events, run_result in *. cbn in Hshape.
  apply renew_shape_cases in Hshape
    as [(pre1 & url1 & request1 & rsp1 & parsed & validated & Hevs1 & Hr
         & Hfs & Hq & Hin1 & Hp)
       | [(e1 & Hr & Hfs & Hq)
         | [(pre1 & m & o & f & err1 & e1 & Hevs1 & Hr & Hfs & Hq & Hv)
           | (pre1 & m & o & f & validated & text & Hevs1 & Hr & Hfs & Hq)]]].
  - (* validated and written *)
    split.
    + intros pre path body post Hevs. rewrite Hevs1 in Hevs.
      apply (split_after_prefix quiet) in Hevs as (mid & -> & Hmid);
        [| assumption | reflexivity].
      unfold persist_events in Hmid.
      destruct mid as [|m1 [|m2 [|m3 [|m4 [|m5 [|m6 [|m7 [|m8 [|m9 mid]]]]]]]]];
        cbn in Hmid; try discriminate.
      inversion Hmid; subst.
      split; [reflexivity|].
      exists pre1, parsed, validated. auto.
    + intros ocsps fetch err Hin. exfalso. rewrite Hevs1 in Hin.
      apply in_app_or in Hin as [Hin | Hin].
      * rewrite forallb_forall in Hq. apply Hq in Hin. discriminate.
      * cbn in Hin. repeat destruct Hin as [Hin | Hin]; try discriminate.
        contradiction.
  - (* failed before any validation *)
    split.
    + intros pre path body post Hevs. exfalso. rewrite Hevs in Hq.
      rewrite forallb_app in Hq. cbn in Hq. rewrite andb_false_r in Hq.
      discriminate.
    + intros ocsps fetch err Hin. exfalso.
      rewrite forallb_forall in Hq. apply Hq in Hin. discriminate.
  - (* the validation failed *)
    split.
    + intros pre path body post Hevs. exfalso. rewrite Hevs1 in Hevs.
      apply (split_after_prefix quiet) in Hevs as (mid & -> & Hmid);
        [| assumption | reflexivity].
      destruct mid as [|m1 [|m2 [|m3 [|m4 mid]]]];
        cbn in Hmid; discriminate.
    + intros ocsps fetch err Hin. rewrite Hevs1 in Hin.
      apply in_app_or in Hin as [Hin | Hin].
      { rewrite forallb_forall in Hq. apply Hq in Hin. discriminate. }
      cbn in Hin. repeat destruct Hin as [Hin | Hin]; try discriminate;
        [| contradiction].
      injection Hin as -> -> ->.
      split; [eexists; eassumption|]. split.
      * intros Hne. destruct err; cbn in Hv;
          try (destruct Hv as [msg ->]; eexists; eassumption).
        congruence.
      * split; [assumption|].
        intros e He. rewrite Hevs1 in He. apply in_app_or in He as [He | He].
        -- apply quiet_not_file_event. rewrite forallb_forall in Hq. auto.
        -- cbn in He. repeat destruct He as [He | He]; subst; try reflexivity.
           contradiction.
  - (* the loop was never entered *)
    split.
    + intros pre path body post Hevs. exfalso. rewrite Hevs1 in Hevs.
      apply (split_after_prefix quiet) in Hevs as (mid & -> & Hmid);
        [| assumption | reflexivity].
      destruct mid as [|m1 [|m2 [|m3 [|m4 [|m5 [|m6 [|m7 [|m8 mid]]]]]]]];
        cbn in Hmid; discriminate.
    + intros ocsps fetch err Hin. exfalso. rewrite Hevs1 in Hin.
      apply in_app_or in Hin as [Hin | Hin].
      * rewrite forallb_forall in Hq. apply Hq in Hin. discriminate.
      * cbn in Hin. repeat destruct Hin as [Hin | Hin]; try discriminate.
        contradiction.
Qed.

(** C7, as the code has it.  A call that returns has written in place:
    its events end with the validation of the body of an answered POST,
    the opening of [<filename>.ocsp] itself, one write of that body and
    the close; no other file is touched, the file is empty between the
    open and the write, and holds the body when the call returns. *)
Theorem staple_written_in_place (url_index : nat) (st st' : state)
    (evs : list event) (v : bool) :
  renew_ocsp_staple OCSP_REQUEST_RETRY_COUNT ocsp_module requests_post
    OCSPResponseParser validate_usage build_request urlparse_hostname
    url_index st
  = (st', evs, Returns v) ->
  v = true /\
  exists pre url request rsp parsed validated,
    let path := String.append (filename (self st)) ".ocsp" in
    evs = pre ++ persist_events path (content rsp) parsed validated /\
    forallb quiet pre = true /\
    In (EvPost url request (HttpResponse rsp)) pre /\
    OCSPResponseParser (content rsp) = inr parsed /\
    files_after (fs st) (pre ++ take 6 (persist_events path (content rsp)
                                          parsed validated)) !! path
      = Some [] /\
    files_after (fs st) evs = fs st' /\
    fs st' !! path = Some (content rsp).
Proof.
  intros Hrun.
  apply renew_ocsp_staple_spec in Hrun as (_ & Hshape & _).
  unfold run_state, run_events, run_result in *. cbn in Hshape.
  apply renew_shape_cases in Hshape
    as [(pre1 & url1 & request1 & rsp1 & parsed & validated & Hevs1 & Hr
         & Hfs & Hq & Hin1 & Hp)
       | [(e1 & [=] & _)
         | [(pre1 & m & o & f & err1 & e1 & _ & [=] & _)
           | (pre1 & m & o & f & validated & text & _ & [=] & _)]]].
  injection Hr as ->. split; [reflexivity|].
  exists pre1, url1, request1, rsp1, parsed, validated. cbv zeta.
  split; [assumption|]. split; [assumption|]. split; [assumption|].
  split; [assumption|]. split; [| split].
  - rewrite files_after_app, (files_after_quiet _ _ Hq).
    cbn. apply lookup_insert_eq.
  - rewrite Hevs1, files_after_app, (files_after_quiet _ _ Hq), Hfs.
    cbn. rewrite lookup_insert_eq. cbn. apply insert_insert_eq.
  - rewrite Hfs. apply lookup_insert_eq.
Qed.

(** C8, as the code has it.  On a record that is not eligible the call
    raises before doing anything: [CertValidationError] when the end
    entity or the chain is missing, [IndexError] from the lookup of the
    URL when only the list of URLs is empty. *)
Theorem ineligible_record_sends_nothing (url_index : nat) (st st' : state)
    (evs : list event) (r : outcome bool) :
  renew_ocsp_staple OCSP_REQUEST_RETRY_COUNT ocsp_module requests_post
    OCSPResponseParser validate_usage build_request urlparse_hostname
    url_index st
  = (st', evs, r) ->
  ~ eligible (self st) ->
  evs = [] /\ st' = st /\
  (end_entity (self st) = None \/ chain (self st) = [] ->
   raises_CertValidationError r) /\
  (end_entity (self st) <> None -> chain (self st) <> [] ->
   exists msg, r = Raises (IndexError msg)).
Proof.
  unfold renew_ocsp_staple, eligible. intros Hrun Hne.
  destruct (length (ocsp_urls (self st))) as [|depth] in Hrun;
    cbn [renew_ocsp_staple_rec] in Hrun;
    unfold renew_ocsp_staple_body, bind at 1, get_self at 1 in Hrun.
  all: destruct (end_entity (self st)) as [certificate|] eqn:Hee;
    [| unfold raise in Hrun; injection Hrun as <- <- <-;
       repeat split; [intros _; eexists; reflexivity | congruence]].
  all: destruct (chain (self st)) as [|c0 cs] eqn:Hch; cbn in Hrun;
    [ unfold raise in Hrun; injection Hrun as <- <- <-;
      repeat split; [intros _; eexists; reflexivity | congruence] |].
  all: assert (Hurls : ocsp_urls (self st) = [])
    by (destruct (ocsp_urls (self st)); [reflexivity|];
        exfalso; apply Hne; repeat split; congruence).
  all: rewrite Hurls in Hrun; cbn in Hrun.
  all: unfold raise in Hrun; injection Hrun as <- <- <-.
  all: repeat split;
    [intros [? | ?]; congruence | intros _ _; eexists; reflexivity].
Qed.

(** *** Parsing a file twice *)

(** The loop over the blocks appends the CA certificates to
    [intermediates], assigns the last end entity and its URLs, and leaves
    the rest of the store alone, whether it ends or raises. *)
Lemma read_blocks_spec (pem_obj : list pem_item) (st st' : state)
    (evs : list event) (r : outcome unit) :
  read_blocks Certificate_load pem_obj st = (st', evs, r) ->
  fs st' = fs st /\
  filename (self st') = filename (self st) /\
  ocsp_staple (self st') = ocsp_staple (self st) /\
  intermediates (self st') =
    intermediates (self st) ++ appended_intermediates Certificate_load pem_obj /\
  end_entity (self st') =
    match found_end_entity Certificate_load pem_obj with
    | Some crt => Some crt
    | None => end_entity (self st)
    end /\
  ocsp_urls (self st') =
    match found_end_entity Certificate_load pem_obj with
    | Some crt => cert_ocsp_urls crt
    | None => ocsp_urls (self st)
    end.
Proof.
  revert st st' evs r.
  induction pem_obj as [|item rest IH]; intros st st' evs r.
  - cbn. unfold ret. intros [= <- <- <-]. rewrite app_nil_r. auto 10.
  - destruct item as [type_name der_bytes| |]; cbn.
    + destruct (String.eqb type_name "CERTIFICATE").
      * destruct (Certificate_load der_bytes) as [crt|].
        -- destruct (ca crt) eqn:Hca.
           ++ unfold bind at 1 2 3, get_self at 1, LOG at 1, emit at 1,
                set_self at 1.
              destruct (read_blocks _ rest _) as [[st2 ev2] r2] eqn:Hr.
              apply IH in Hr as (H1 & H2 & H3 & H4 & H5 & H6). cbn in *.
              intros [= <- <- <-].
              rewrite <- app_assoc in H4. cbn in H4. auto 10.
           ++ unfold bind at 1 2 3, get_self at 1, LOG at 1, emit at 1,
                set_self at 1.
              destruct (read_blocks _ rest _) as [[st2 ev2] r2] eqn:Hr.
              apply IH in Hr as (H1 & H2 & H3 & H4 & H5 & H6). cbn in *.
              intros [= <- <- <-].
              destruct (found_end_entity Certificate_load rest); auto 10.
        -- unfold bind, raise. intros [= <- <- <-]. rewrite app_nil_r. auto 10.
      * unfold bind at 1, ret at 1.
        destruct (read_blocks _ rest _) as [[st2 ev2] r2] eqn:Hr.
        apply IH in Hr. intros [= <- <- <-]. exact Hr.
    + unfold LOG, emit. intros [= <- <- <-]. rewrite app_nil_r. auto 10.
    + unfold raise. intros [= <- <- <-]. rewrite app_nil_r. auto 10.
Qed.

Lemma _read_full_chain_spec (st st' : state) (evs : list event)
    (r : outcome unit) :
  _read_full_chain unarmor Certificate_load st = (st', evs, r) ->
  let pem_obj := file_blocks unarmor st in
  fs st' = fs st /\
  filename (self st') = filename (self st) /\
  intermediates (self st') =
    intermediates (self st) ++ appended_intermediates Certificate_load pem_obj /\
  end_entity (self st') =
    match found_end_entity Certificate_load pem_obj with
    | Some crt => Some crt
    | None => end_entity (self st)
    end /\
  ocsp_urls (self st') =
    match found_end_entity Certificate_load pem_obj with
    | Some crt => cert_ocsp_urls crt
    | None => ocsp_urls (self st)
    end.
Proof.
  unfold _read_full_chain, file_blocks. cbv zeta.
  unfold bind at 1, get_self at 1. unfold bind at 1.
  destruct (fs st !! filename (self st)) as [contents|];
    [| intros [= <- <- <-]; cbn; rewrite app_nil_r; auto].
  unfold bind at 1.
  destruct (read_blocks Certificate_load (unarmor contents) st)
    as [[st1 ev1] [[]|e|]] eqn:Hr;
    apply read_blocks_spec in Hr as (H1 & H2 & H3 & H4 & H5 & H6).
  2,3: intros [= <- <- <-]; auto.
  unfold bind, get_self, LOG, emit, ret.
  destruct (end_entity (self st1)) eqn:Hee;
    destruct (length (intermediates (self st1)) <? 1)%nat;
    cbn; intros [= <- <- <-]; rewrite ?Hee; auto 10.
Qed.

Lemma parse_crt_chain_spec (st st' : state) (evs : list event)
    (r : outcome unit) :
  parse_crt_chain validate_usage unarmor Certificate_load st = (st', evs, r) ->
  let pem_obj := file_blocks unarmor st in
  fs st' = fs st /\
  filename (self st') = filename (self st) /\
  intermediates (self st') =
    intermediates (self st) ++ appended_intermediates Certificate_load pem_obj /\
  end_entity (self st') =
    match found_end_entity Certificate_load pem_obj with
    | Some crt => Some crt
    | None => end_entity (self st)
    end /\
  ocsp_urls (self st') =
    match found_end_entity Certificate_load pem_obj with
    | Some crt => cert_ocsp_urls crt
    | None => ocsp_urls (self st)
    end.
Proof.
  unfold parse_crt_chain. cbv zeta.
  match goal with
  | |- match ?body st with _ => _ end = _ -> _ =>
      destruct (body st) as [[st1 ev1] r1] eqn:Hbody
  end.
  assert (Hspec :
    fs st1 = fs st /\
    filename (self st1) = filename (self st) /\
    intermediates (self st1) =
      intermediates (self st)
      ++ appended_intermediates Certificate_load (file_blocks unarmor st) /\
    end_entity (self st1) =
      match found_end_entity Certificate_load (file_blocks unarmor st) with
      | Some crt => Some crt
      | None => end_entity (self st)
      end /\
    ocsp_urls (self st1) =
      match found_end_entity Certificate_load (file_blocks unarmor st) with
      | Some crt => cert_ocsp_urls crt
      | None => ocsp_urls (self st)
      end).
  { apply bind_inv in Hbody
      as [(st2 & ev2 & u & ev3 & Hread & Hk & ->)
         | [(e & Hread & ->) | (Hread & ->)]];
      apply _read_full_chain_spec in Hread; cbv zeta in Hread;
      try exact Hread.
    apply bind_inv in Hk
      as [(st3 & ev4 & path & ev5 & Hv & Hk & ->)
         | [(e & Hv & ->) | (Hv & ->)]];
      apply _validate_cert_spec in Hv as (-> & _);
      try exact Hread.
    unfold bind, get_self, set_self in Hk. injection Hk as <- <- <-.
    exact Hread. }
  destruct r1 as [u|e|]; [| destruct e |]; intros [= <- <- <-]; exact Hspec.
Qed.


(** *** The bound on the nesting is never met *)

Lemma bind_ext {A B} (m : M A) (k1 k2 : A -> M B) (st : state) :
  (forall a st1 ev1, m st = (st1, ev1, Returns a) -> k1 a st1 = k2 a st1) ->
  bind m k1 st = bind m k2 st.
Proof.
  intros H. unfold bind. destruct (m st) as [[st1 ev1] [a|e|]]; try reflexivity.
  rewrite (H a st1 ev1 eq_refl). reflexivity.
Qed.

Lemma retry_loop_ext (next1 next2 : M bool) (url : string) (url_index : nat)
    (retry : nat) :
  forall (request : option Response) (st : state),
    (forall st1,
       ocsp_urls (self st1) = ocsp_urls (self st) ->
       (url_index + 1 < length (ocsp_urls (self st1)))%nat ->
       next1 st1 = next2 st1) ->
    retry_loop ocsp_module requests_post OCSPResponseParser next1 url
      url_index retry request st =
    retry_loop ocsp_module requests_post OCSPResponseParser next2 url
      url_index retry request st.
Proof.
  induction retry as [|retry' IH]; intros request st Hnext; [reflexivity|].
  cbn [retry_loop]. apply bind_ext.
  intros [[rq staple] good] st1 ev1 Ha.
  apply attempt_spec in Ha as (_ & Hu & _).
  destruct good; [reflexivity|].
  destruct retry' as [|retry''].
  - apply bind_ext. intros c st2 ev2 [= <- <- <-].
    destruct (url_index + 1 <? length (ocsp_urls (self st1)))%nat eqn:Hlt;
      [| reflexivity].
    apply Nat.ltb_lt in Hlt. unfold bind.
    rewrite (Hnext st1 Hu Hlt). reflexivity.
  - destruct ocsp_module as [count|]; [| reflexivity].
    apply bind_ext. intros u st2 ev2 [= <- <- <-].
    apply bind_ext. intros u' st3 ev3 Hs.
    assert (st3 = st1) as ->.
    { unfold sleep, raise, emit in Hs.
      destruct (_ <? 0); congruence. }
    apply IH. intros st4 Hu4. apply Hnext. congruence.
Qed.

Lemma renew_ocsp_staple_body_ext (next1 next2 : M bool) (url_index : nat)
    (st : state) :
  (forall st1,
     ocsp_urls (self st1) = ocsp_urls (self st) ->
     (url_index + 1 < length (ocsp_urls (self st1)))%nat ->
     next1 st1 = next2 st1) ->
  renew_ocsp_staple_body OCSP_REQUEST_RETRY_COUNT ocsp_module requests_post
    OCSPResponseParser validate_usage build_request urlparse_hostname next1
    url_index st =
  renew_ocsp_staple_body OCSP_REQUEST_RETRY_COUNT ocsp_module requests_post
    OCSPResponseParser validate_usage build_request urlparse_hostname next2
    url_index st.
Proof.
  intros Hnext. unfold renew_ocsp_staple_body.
  apply bind_ext. intros c st0 ev0 [= <- <- <-].
  destruct (end_entity (self st)) as [certificate|]; [| reflexivity].
  destruct (length (chain (self st)) <? 1)%nat; [reflexivity|].
  destruct (ocsp_urls (self st) !! url_index) as [url|]; [| reflexivity].
  destruct (urlparse_hostname url) as [e0|host]; [reflexivity|].
  destruct (second_to_last (chain (self st))) as [issuer|]; [| reflexivity].
  apply bind_ext. intros u st1 ev1 [= <- <- <-].
  apply bind_ext. intros u1 st2 ev2 [= <- <- <-].
  apply bind_ext. intros u2 st3 ev3 [= <- <- <-].
  unfold bind. rewrite (retry_loop_ext next1 next2); [reflexivity|].
  intros st1 Hu. apply Hnext. exact Hu.
Qed.

(** Any two bounds that leave room for the URLs after [url_index] give
    the same call. *)
Lemma renew_ocsp_staple_rec_depth (d1 : nat) :
  forall (d2 url_index : nat) (st : state),
    (length (ocsp_urls (self st)) <= url_index + 1 + d1)%nat ->
    (length (ocsp_urls (self st)) <= url_index + 1 + d2)%nat ->
    renew_ocsp_staple_rec OCSP_REQUEST_RETRY_COUNT ocsp_module requests_post
      OCSPResponseParser validate_usage build_request urlparse_hostname d1
      url_index st =
    renew_ocsp_staple_rec OCSP_REQUEST_RETRY_COUNT ocsp_module requests_post
      OCSPResponseParser validate_usage build_request urlparse_hostname d2
      url_index st.
Proof.
  induction d1 as [|d1 IH]; intros d2 url_index st H1 H2;
    destruct d2 as [|d2]; cbn [renew_ocsp_staple_rec];
    apply renew_ocsp_staple_body_ext; intros st1 Hu Hlt;
    rewrite Hu in Hlt; try lia.
  apply IH; rewrite Hu; lia.
Qed.

(** The depth that [renew_ocsp_staple] starts with is enough: a larger
    one changes nothing, so the bound is never what ends a call. *)
Lemma renew_ocsp_staple_depth_enough (depth url_index : nat) (st : state) :
  (length (ocsp_urls (self st)) <= depth)%nat ->
  renew_ocsp_staple_rec OCSP_REQUEST_RETRY_COUNT ocsp_module requests_post
    OCSPResponseParser validate_usage build_request urlparse_hostname depth
    url_index st =
  renew_ocsp_staple OCSP_REQUEST_RETRY_COUNT ocsp_module requests_post
    OCSPResponseParser validate_usage build_request urlparse_hostname
    url_index st.
Proof.
  intros H. unfold renew_ocsp_staple.
  apply renew_ocsp_staple_rec_depth; lia.
Qed.

End WithEnvironment.

(** *** The fixtures *)
Section OnFixtures.
Import CertFixtures.

Lemma record_is_eligible : eligible record.
Proof. unfold eligible. cbn. repeat split; discriminate. Qed.

(** C6, at a responder that resets the connection on the first POST
    (retry cap 3, one URL, an eligible record): the warning is logged,
    and the read of [request.content] that follows raises
    [UnboundLocalError]; the call has sent one POST, has not slept and
    leaves the files as they were.  Whether the module knows the name
    [ocsp] makes no difference. *)
Theorem reset_on_first_post_aborts (ocsp_module : option Z) :
  let x := renew_ocsp_staple 3 ocsp_module resets_twice parser validator
             builder host_of 0 (start record) in
  eligible record /\
  ocsp_urls record = ["http://ocsp.example/"] /\
  run_result x =
    Raises (UnboundLocalError
              "local variable 'request' referenced before assignment") /\
  run_events x =
    events_before_post ++
    [EvPost "http://ocsp.example/" [x0a] (HttpRaises ConnectionError);
     EvLog WARNING Msg_connection_error] /\
  fs (run_state x) = disk.
Proof.
  cbv zeta. split; [exact record_is_eligible|].
  repeat split; vm_compute; reflexivity.
Qed.

(** C5, at a responder that answers with an error status and an empty
    body (retry cap 3, one URL, an eligible record): [raise_for_status]
    raises [HTTPError], and its handler, which only logs, reads
    [request.status], an attribute that a response does not have.  The
    call raises [AttributeError] right after the POST: the empty body is
    never looked at and the call does not raise [OCSPRenewError].
    Whether the module knows the name [ocsp] makes no difference. *)
Theorem empty_body_with_error_status_raises_AttributeError
    (ocsp_module : option Z) :
  let x := renew_ocsp_staple 3 ocsp_module answers_unavailable parser
             validator builder host_of 0 (start record) in
  eligible record /\
  run_events x =
    events_before_post ++
    [EvPost "http://ocsp.example/" [x0a]
       (HttpResponse (mkResponse false []))] /\
  empty_body (content (mkResponse false [])) = true /\
  run_result x =
    Raises (AttributeError "'Response' object has no attribute 'status'") /\
  ~ raises_OCSPRenewError (run_result x) /\
  fs (run_state x) = disk.
Proof.
  cbv zeta. split; [exact record_is_eligible|].
  split; [vm_compute; reflexivity|]. split; [reflexivity|].
  assert (Hr : run_result
                 (renew_ocsp_staple 3 ocsp_module answers_unavailable parser
                    validator builder host_of 0 (start record))
               = Raises (AttributeError
                           "'Response' object has no attribute 'status'"))
    by (vm_compute; reflexivity).
  split; [exact Hr|]. split.
  - rewrite Hr. intros [msg Hmsg]. discriminate.
  - vm_compute. reflexivity.
Qed.

Lemma write_follows_validation_witness :
  let x := renew_ocsp_staple 3 None answers_good parser validator builder
      host_of 0
             (start record) in
  let y := renew_ocsp_staple 3 None answers_good parser strict_validator
             builder host_of 0 (start record) in
  (run_events x =
     events_before_write ++
     EvWrite "leaf.pem.ocsp" good_body :: [EvClose "leaf.pem.ocsp"] /\
   exists pre' parsed validated,
     parser good_body = inr parsed /\
     events_before_write =
       pre' ++ [EvLog INFO Msg_validating_staple;
                EvLog INFO Msg_validating_with_staple;
                EvValidate [data parsed] true (inr validated);
                EvLog INFO Msg_chain_validated;
                EvLog INFO (Msg_writing_to_file "leaf.pem.ocsp");
                EvOpen "leaf.pem.ocsp"]) /\
  (In (EvValidate [good_body] true (inl PathValidationError)) (run_events y) /\
   raises_CertValidationError (run_result y) /\
   fs (run_state y) = fs (start record)).
Proof.
  cbv zeta. split.
  - split; [vm_compute; reflexivity|].
    apply (proj1 (write_follows_validation 3 None answers_good parser
                    validator builder host_of 0 (start record) _ _ _ (run_eta
                    _))
             events_before_write "leaf.pem.ocsp" good_body
             [EvClose "leaf.pem.ocsp"]).
    vm_compute. reflexivity.
  - assert (Hin : In (EvValidate [good_body] true (inl PathValidationError))
                    (run_events
                       (renew_ocsp_staple 3 None answers_good parser
                          strict_validator builder host_of 0 (start record)))).
    { vm_compute. do 7 right. left. reflexivity. }
    split; [exact Hin|].
    destruct (proj2 (write_follows_validation 3 None answers_good parser
                       strict_validator builder host_of 0 (start record) _ _ _
                       (run_eta _))
                [good_body] true PathValidationError Hin)
      as (_ & Hr & Hfs & _).
    split; [apply Hr; discriminate | exact Hfs].
Defined.

Lemma revoked_is_terminal_witness :
  let x := renew_ocsp_staple 3 None answers_revoked parser validator builder
      host_of
             0 (start record) in
  run_events x =
    events_before_post ++
    EvPost "http://ocsp.example/" [x0a]
      (HttpResponse (mkResponse true revoked_reply))
    :: [EvLog DEBUG (Msg_response_data revoked_reply)] /\
  revoked_body parser revoked_reply = true /\
  raises_OCSPRenewError (run_result x) /\
  fs (run_state x) = fs (start record).
Proof.
  cbv zeta.
  split; [vm_compute; reflexivity|]. split; [vm_compute; reflexivity|].
  destruct (revoked_is_terminal 3 None answers_revoked parser validator
              builder host_of 0 (start record) _ _ _ events_before_post
              "http://ocsp.example/" [x0a]
              (mkResponse true revoked_reply)
              [EvLog DEBUG (Msg_response_data revoked_reply)] (run_eta _))
    as (_ & Hr & Hfs & _);
    [vm_compute; reflexivity | reflexivity | vm_compute; reflexivity |].
  split; assumption.
Defined.

Lemma empty_body_is_terminal_witness :
  let x := renew_ocsp_staple 3 None answers_empty parser validator builder
      host_of
             0 (start record) in
  run_events x =
    events_before_post ++
    EvPost "http://ocsp.example/" [x0a] (HttpResponse (mkResponse true []))
    :: [EvLog DEBUG (Msg_response_data [])] /\
  raises_OCSPRenewError (run_result x) /\
  fs (run_state x) = fs (start record).
Proof.
  cbv zeta.
  split; [vm_compute; reflexivity|].
  destruct (empty_body_is_terminal 3 None answers_empty parser validator
              builder host_of 0 (start record) _ _ _ events_before_post
              "http://ocsp.example/" [x0a]
              (mkResponse true [])
              [EvLog DEBUG (Msg_response_data [])] (run_eta _))
    as (_ & Hr & Hfs & _);
    [vm_compute; reflexivity | reflexivity | reflexivity |].
  split; assumption.
Defined.

(** C7 fails on the call of the happy path: it returns true, no file
    but the destination is written, and right after the open the
    destination holds neither the old staple nor the new one. *)
Lemma staple_write_is_not_atomic :
  let x := renew_ocsp_staple 3 None answers_good parser validator builder
      host_of 0
             (start record) in
  run_result x = Returns true /\
  disk !! "leaf.pem.ocsp" = Some old_staple /\
  files_after disk (take 11 (run_events x)) !! "leaf.pem.ocsp" = Some [] /\
  ~ written_through_temp_file "leaf.pem.ocsp" good_body (run_events x) /\
  ~ atomic_write "leaf.pem.ocsp" good_body disk (run_events x).
Proof.
  cbv zeta.
  assert (Hopen : files_after disk
                    (take 11 (run_events
                       (renew_ocsp_staple 3 None answers_good parser
                          validator builder host_of 0 (start record))))
                  !! "leaf.pem.ocsp" = Some [])
    by (vm_compute; reflexivity).
  assert (Hold : disk !! "leaf.pem.ocsp" = Some old_staple)
    by (vm_compute; reflexivity).
  split; [vm_compute; reflexivity|].
  split; [exact Hold|]. split; [exact Hopen|]. split.
  - intros (tmp & Hne & Hin). vm_compute in Hin.
    repeat (destruct Hin as [Hin | Hin]; [try discriminate Hin |]);
      try contradiction.
    injection Hin as Heq. apply Hne. symmetry. exact Heq.
  - intros [_ Hnever]. specialize (Hnever 11%nat).
    destruct Hnever as [Hn | Hn]; vm_compute in Hn; discriminate Hn.
Qed.

Lemma staple_written_in_place_witness :
  let x := renew_ocsp_staple 3 None answers_good parser validator builder
      host_of 0
             (start record) in
  run_result x = Returns true /\
  exists pre rsp parsed validated,
    run_events x =
      pre ++ persist_events "leaf.pem.ocsp" (content rsp) parsed validated /\
    files_after disk (run_events x) = fs (run_state x) /\
    fs (run_state x) !! "leaf.pem.ocsp" = Some (content rsp).
Proof.
  cbv zeta. split; [vm_compute; reflexivity|].
  destruct (staple_written_in_place 3 None answers_good parser validator
              builder host_of 0 (start record)
              (run_state (renew_ocsp_staple 3 None answers_good parser
                            validator builder host_of 0 (start record)))
              (run_events (renew_ocsp_staple 3 None answers_good parser
                             validator builder host_of 0 (start record)))
              true)
    as (_ & pre & u & q & rsp & parsed & validated & Hevs & _ & _ & _ & _
        & Hreplay & Hfile);
    [vm_compute; reflexivity|].
  exists pre, rsp, parsed, validated.
  split; [exact Hevs|]. split; [exact Hreplay | exact Hfile].
Defined.

(** C8 fails on a record whose only defect is an empty list of URLs:
    the call raises [IndexError], not [CertValidationError]. *)
Lemma empty_url_list_raises_IndexError :
  let x := renew_ocsp_staple 3 None answers_good parser validator builder
      host_of 0
             (start record_without_urls) in
  ~ eligible record_without_urls /\
  run_result x = Raises (IndexError "list index out of range") /\
  ~ raises_CertValidationError (run_result x).
Proof.
  cbv zeta. split; [| split].
  - intros (_ & _ & H). apply H. reflexivity.
  - vm_compute. reflexivity.
  - intros [msg H]. vm_compute in H. discriminate H.
Qed.

Lemma ineligible_record_sends_nothing_witness :
  let x := renew_ocsp_staple 3 None answers_good parser validator builder
      host_of 0
             (start unparsed) in
  ~ eligible unparsed /\
  run_events x = [] /\
  raises_CertValidationError (run_result x).
Proof.
  cbv zeta.
  assert (Hne : ~ eligible (self (start unparsed))).
  { intros (H & _). apply H. reflexivity. }
  split; [exact Hne|].
  destruct (ineligible_record_sends_nothing 3 None answers_good parser
              validator builder host_of 0 (start unparsed) _ _ _ (run_eta _)
              Hne)
    as (Hevs & _ & Hr & _).
  split; [exact Hevs | apply Hr; left; reflexivity].
Defined.


End OnFixtures.
End CertcontextFacts.


Module SchedulingProps.
Import Scheduling SchedulerQueues Ticks SchedFixtures TickFixtures.

(** ** The constructor and its queues *)

Lemma add_queue_fresh (w : world) (name0 : string) (max_size : Z) :
  _queues (sched w) !! name0 = None ->
  add_queue name0 max_size w =
    ({| ctxs := ctxs w;
        sched := {| _queues := <[name0 := mkQueue max_size []]>
                                 (_queues (sched w));
                    schedule := schedule (sched w);
                    scheduled := scheduled (sched w) |};
        log := log w; clock_reads := clock_reads w |}, Returns tt).
Proof.
  intros H. unfold add_queue, bind, get_sched, put_sched. rewrite H.
  reflexivity.
Qed.

Lemma add_queue_taken (w : world) (name0 : string) (max_size : Z) (q : Queue) :
  _queues (sched w) !! name0 = Some q ->
  add_queue name0 max_size w =
    (w, Raises (KeyError "This queue is already taken.")).
Proof.
  intros H. unfold add_queue, bind, get_sched, raise. rewrite H. reflexivity.
Qed.

Lemma add_queues_ok (names : list string) :
  forall w : world,
    List.NoDup names ->
    (forall name0, In name0 names -> _queues (sched w) !! name0 = None) ->
    exists w',
      add_queues names w = (w', Returns tt) /\
      ctxs w' = ctxs w /\ log w' = log w /\ clock_reads w' = clock_reads w /\
      schedule (sched w') = schedule (sched w) /\
      scheduled (sched w') = scheduled (sched w) /\
      (forall name0, In name0 names ->
                     _queues (sched w') !! name0 = Some (mkQueue 0 [])) /\
      (forall name0, ~ In name0 names ->
                     _queues (sched w') !! name0 = _queues (sched w) !! name0).
Proof.
  induction names as [|n names IH]; intros w Hnd Hfree.
  - exists w. cbn. repeat split; auto. intros ? [].
  - apply List.NoDup_cons_iff in Hnd as [Hn Hnd].
    cbn [add_queues]. unfold bind.
    rewrite (add_queue_fresh w n 0 (Hfree n (or_introl eq_refl))).
    set (w1 := {| ctxs := ctxs w; sched := _; log := log w;
                  clock_reads := clock_reads w |}).
    destruct (IH w1 Hnd) as (w' & Hrun & H1 & H2 & H3 & H4 & H5 & H6 & H7).
    { intros name0 Hin. cbn. rewrite lookup_insert_ne.
      - apply Hfree. right. exact Hin.
      - intros ->. contradiction. }
    exists w'. rewrite Hrun. repeat split; try assumption.
    + intros name0 [<- | Hin]; [| apply H6; exact Hin].
      rewrite (H7 n Hn). cbn. apply lookup_insert_eq.
    + intros name0 Hnot. rewrite H7 by (intros Hin; apply Hnot; right; exact Hin).
      cbn. apply lookup_insert_ne. intros ->. apply Hnot. left. reflexivity.
Qed.

Lemma add_queues_taken (names : list string) :
  forall w : world,
    ~ (List.NoDup names /\
       forall name0, In name0 names -> _queues (sched w) !! name0 = None) ->
    snd (add_queues names w) = Raises (KeyError "This queue is already taken.").
Proof.
  induction names as [|n names IH]; intros w Hbad.
  - exfalso. apply Hbad. split; [constructor | intros ? []].
  - cbn [add_queues]. unfold bind.
    destruct (_queues (sched w) !! n) as [q|] eqn:Hn.
    + rewrite (add_queue_taken w n 0 q Hn). reflexivity.
    + rewrite (add_queue_fresh w n 0 Hn).
      set (w1 := {| ctxs := ctxs w; sched := _; log := log w;
                    clock_reads := clock_reads w |}).
      specialize (IH w1).
      destruct (add_queues names w1) as [w' [[]|e|]] eqn:Hrun; cbn in *.
      all: apply IH.
      all: intros [Hnd Hfree]; apply Hbad; split.
      all: try (apply List.NoDup_cons_iff; split; [| exact Hnd];
                intros Hin; specialize (Hfree n Hin);
                unfold w1 in Hfree; cbn in Hfree;
                rewrite lookup_insert_eq in Hfree; discriminate).
      all: intros name0 [<- | Hin]; [exact Hn |];
        specialize (Hfree name0 Hin); unfold w1 in Hfree; cbn in Hfree;
        destruct (decide (name0 = n)) as [-> | Hne];
        [rewrite lookup_insert_eq in Hfree; discriminate
        | rewrite lookup_insert_ne in Hfree by congruence; exact Hfree].
Qed.

(** X1: the constructor creates one empty unbounded queue per name when the
    names are distinct, and raises [KeyError] when a name comes twice. *)
Theorem SchedulerThread__init___queues (queues : list string) (w : world) :
  let w' := fst (SchedulerThread__init__ (Some queues) w) in
  (List.NoDup queues ->
   snd (SchedulerThread__init__ (Some queues) w) = Returns tt /\
   schedule (sched w') = [] /\ scheduled (sched w') = ∅ /\
   (forall name0, In name0 queues ->
                  _queues (sched w') !! name0 = Some (mkQueue 0 [])) /\
   (forall name0, ~ In name0 queues -> _queues (sched w') !! name0 = None)) /\
  (~ List.NoDup queues ->
   snd (SchedulerThread__init__ (Some queues) w) =
     Raises (KeyError "This queue is already taken.")).
Proof.
  cbv zeta.
  set (w0 := {| ctxs := ctxs w; sched := SchedulerThread_init; log := log w;
                clock_reads := clock_reads w |}).
  assert (Hrun : SchedulerThread__init__ (Some queues) w = add_queues queues w0)
    by (destruct queues; reflexivity).
  rewrite Hrun. split.
  - intros Hnd.
    destruct (add_queues_ok queues w0 Hnd)
      as (w' & -> & _ & _ & _ & H4 & H5 & H6 & H7).
    { intros name0 _. apply lookup_empty. }
    cbn. repeat split; auto.
    all: intros name0 Hnot; rewrite (H7 name0 Hnot); apply lookup_empty.
  - intros Hdup. apply add_queues_taken. intros [Hnd _]. contradiction.
Qed.


(** ** Queues *)

Lemma _queue_task_ok (w : world) (ctx : ctx_ref) (q : Queue) :
  _queues (sched w) !! task (ctxs w ctx) = Some q ->
  Queue_full q = false ->
  _queue_task ctx w =
    ({| ctxs := ctxs w;
        sched := {| _queues := <[task (ctxs w ctx) :=
                                   mkQueue (maxsize q) (items q ++ [ctx])]>
                                 (_queues (sched w));
                    schedule := schedule (sched w);
                    scheduled := scheduled (sched w) |};
        log := log w; clock_reads := clock_reads w |}, Returns tt).
Proof.
  intros Hq Hfull. unfold _queue_task, bind, get_ctx, get_sched, put_sched.
  rewrite Hq, Hfull. reflexivity.
Qed.

Lemma _queue_task_missing (w : world) (ctx : ctx_ref) :
  _queues (sched w) !! task (ctxs w ctx) = None ->
  _queue_task ctx w =
    (w, Raises (KeyError "Queue for task {} might not exist.")).
Proof.
  intros Hq. unfold _queue_task, bind, get_ctx, get_sched, raise.
  rewrite Hq. reflexivity.
Qed.

Lemma _queue_task_full (w : world) (ctx : ctx_ref) (q : Queue) :
  _queues (sched w) !! task (ctxs w ctx) = Some q ->
  Queue_full q = true ->
  _queue_task ctx w = (w, Blocks).
Proof.
  intros Hq Hfull. unfold _queue_task, bind, get_ctx, get_sched.
  rewrite Hq, Hfull. reflexivity.
Qed.

Lemma get_tasks_drain (task0 : string) (m : Z) (l : list ctx_ref) :
  forall w : world,
    _queues (sched w) !! task0 = Some (mkQueue m l) ->
    exists w',
      get_tasks task0 (length l) w = (w', Returns (map Item l)) /\
      _queues (sched w') !! task0 = Some (mkQueue m []) /\
      (forall other, other <> task0 ->
                     _queues (sched w') !! other = _queues (sched w) !! other) /\
      schedule (sched w') = schedule (sched w) /\
      scheduled (sched w') = scheduled (sched w) /\
      ctxs w' = ctxs w /\ log w' = log w /\ clock_reads w' = clock_reads w.
Proof.
  induction l as [|x l IH]; intros w Hq.
  - exists w. cbn. unfold ret. auto 10.
  - cbn [length get_tasks]. unfold bind at 1.
    unfold get_task at 1, bind at 1, get_sched at 1. rewrite Hq.
    cbn [negb items maxsize]. unfold bind at 1, put_sched at 1, ret at 1.
    set (w1 := {| ctxs := ctxs w; sched := _; log := log w;
                  clock_reads := clock_reads w |}).
    destruct (IH w1) as (w' & Hrun & H1 & H2 & H3 & H4 & H5 & H6 & H7).
    { cbn. apply lookup_insert_eq. }
    exists w'. unfold bind. rewrite Hrun. unfold ret.
    repeat split; try assumption.
    intros other Hne. rewrite (H2 other Hne). cbn.
    apply lookup_insert_ne. congruence.
Qed.

(** X2: a queue hands contexts back in the order they were put.  After
    [_queue_task] on a queue that is not full, as many calls of
    [get_task] as the queue holds contexts return the ones that were
    waiting, oldest first, and then the new one; the queue is then
    empty, so a call that does not wait raises [queue.Empty] and one
    that waits without timeout never returns. *)
Theorem queue_is_first_in_first_out (w : world) (ctx : ctx_ref) (q : Queue) :
  _queues (sched w) !! task (ctxs w ctx) = Some q ->
  Queue_full q = false ->
  snd (_queue_task ctx w) = Returns tt /\
  let w1 := fst (_queue_task ctx w) in
  let gets := get_tasks (task (ctxs w ctx)) (S (length (items q))) w1 in
  snd gets = Returns (map Item (items q ++ [ctx])) /\
  queued (fst gets) (task (ctxs w ctx)) = [] /\
  snd (get_task (task (ctxs w ctx)) false None (fst gets)) = Returns Empty /\
  snd (get_task (task (ctxs w ctx)) true None (fst gets)) = Blocks.
Proof.
  intros Hq Hfull. rewrite (_queue_task_ok w ctx q Hq Hfull).
  split; [reflexivity|]. cbv zeta. cbn [fst].
  set (w1 := {| ctxs := ctxs w; sched := _; log := log w;
                clock_reads := clock_reads w |}).
  destruct (get_tasks_drain (task (ctxs w ctx)) (maxsize q) (items q ++ [ctx])
              w1) as (w2 & Hrun & Hempty & _).
  { cbn. apply lookup_insert_eq. }
  rewrite length_app, Nat.add_comm in Hrun. cbn [length Nat.add] in Hrun.
  rewrite Hrun. cbn [fst snd]. split; [reflexivity|].
  unfold queued, get_task, bind, get_sched. rewrite Hempty. cbn.
  repeat split.
Qed.


(** ** Adding a task *)

Lemma cancel_task_returns (w : world) (ctx : ctx_ref) :
  exists w' b,
    cancel_task ctx w = (w', Returns b) /\
    ctxs w' = ctxs w /\ clock_reads w' = clock_reads w /\
    _queues (sched w') = _queues (sched w) /\
    scheduled (sched w') = delete ctx (scheduled (sched w)) /\
    (b = true <->
     exists when slot,
       scheduled (sched w) !! ctx = Some when /\
       PyDict.get when (schedule (sched w)) = Some slot) /\
    (b = false ->
     schedule (sched w') = schedule (sched w) /\
     log w' = log w ++ [Warning_cant_unschedule ctx]).
Proof.
  unfold cancel_task, bind, get_sched, put_sched, LOG, ret.
  destruct (scheduled (sched w) !! ctx) as [when|] eqn:Hrev.
  - destruct (PyDict.get when (schedule (sched w))) as [slot|] eqn:Hfwd.
    + eexists _, true. cbn. repeat split; try discriminate.
      intros _. exists when, slot. auto.
    + eexists _, false. cbn. repeat split; try discriminate.
      intros (when' & slot & [= <-] & Hs). congruence.
  - eexists _, false. cbn. repeat split; try discriminate.
    + symmetry. apply delete_id. exact Hrev.
    + intros (when' & slot & [=] & _).
Qed.

(** X3: a context without a time, [None] or [0], goes straight to the queue
    of its task: the schedule, the reverse map and the clock are left
    alone and the context is tied to the scheduler, whether the queue
    takes it, is full (the call waits) or does not exist ([KeyError]). *)
Theorem add_task_without_time_queues_at_once (clock : nat -> datetime)
    (w : world) (ctx : ctx_ref) :
  truthy (sched_time (ctxs w ctx)) = false ->
  let w' := fst (add_task clock ctx w) in
  scheduler (ctxs w' ctx) = Some TheScheduler /\
  schedule (sched w') = schedule (sched w) /\
  scheduled (sched w') = scheduled (sched w) /\
  clock_reads w' = clock_reads w /\
  match _queues (sched w) !! task (ctxs w ctx) with
  | None =>
      snd (add_task clock ctx w) =
        Raises (KeyError "Queue for task {} might not exist.") /\
      _queues (sched w') = _queues (sched w)
  | Some q =>
      if Queue_full q then
        snd (add_task clock ctx w) = Blocks /\
        _queues (sched w') = _queues (sched w)
      else
        snd (add_task clock ctx w) = Returns tt /\
        queued w' (task (ctxs w ctx)) = items q ++ [ctx]
  end.
Proof.
  intros Hst. cbv zeta.
  set (w1 := {| ctxs := fun c' =>
                          if Pos.eqb c' ctx then
                            {| scheduler := Some TheScheduler;
                               task := task (ctxs w ctx);
                               name := name (ctxs w ctx);
                               sched_time := sched_time (ctxs w ctx) |}
                          else ctxs w c';
                sched := sched w; log := log w;
                clock_reads := clock_reads w |}).
  assert (Hrun : add_task clock ctx w = _queue_task ctx w1).
  { unfold add_task. unfold bind at 1, get_ctx at 1.
    unfold bind at 1, set_ctx at 1. rewrite Hst. reflexivity. }
  rewrite Hrun.
  assert (Htask : task (ctxs w1 ctx) = task (ctxs w ctx))
    by (cbn; rewrite Pos.eqb_refl; reflexivity).
  assert (Hsch : scheduler (ctxs w1 ctx) = Some TheScheduler)
    by (cbn; rewrite Pos.eqb_refl; reflexivity).
  destruct (_queues (sched w) !! task (ctxs w ctx)) as [q|] eqn:Hq.
  - destruct (Queue_full q) eqn:Hfull.
    + rewrite (_queue_task_full w1 ctx q) by (rewrite ?Htask; assumption).
      cbn [fst snd]. repeat split; try assumption.
    + rewrite (_queue_task_ok w1 ctx q) by (rewrite ?Htask; assumption).
      cbn [fst snd]. repeat split; try assumption.
      unfold queued. cbn [sched _queues]. rewrite Htask.
      rewrite lookup_insert_eq. reflexivity.
  - rewrite (_queue_task_missing w1 ctx) by (rewrite ?Htask; assumption).
    cbn [fst snd]. repeat split; try assumption.
Qed.

Lemma PyDict_mem_get {V} (k : datetime) (d : PyDict.t V) :
  PyDict.mem k d = match PyDict.get k d with Some _ => true | None => false end.
Proof. reflexivity. Qed.

(** X4: a context with an absolute time that is not scheduled yet is
    entered in the reverse map and at the end of the slot of its time, a
    new slot if there was none; the other slots and the queues are left
    alone and the clock is not read.  Whether a queue exists for its
    task is not looked at. *)
Theorem add_task_at_datetime_schedules (clock : nat -> datetime)
    (w : world) (ctx : ctx_ref) (t : datetime) :
  sched_time (ctxs w ctx) = ST_Datetime t ->
  scheduled (sched w) !! ctx = None ->
  let w' := fst (add_task clock ctx w) in
  snd (add_task clock ctx w) = Returns tt /\
  scheduler (ctxs w' ctx) = Some TheScheduler /\
  scheduled (sched w') = <[ctx := t]> (scheduled (sched w)) /\
  PyDict.get t (schedule (sched w')) =
    Some (default [] (PyDict.get t (schedule (sched w))) ++ [ctx]) /\
  (forall t', t' <> t ->
     PyDict.get t' (schedule (sched w')) = PyDict.get t' (schedule (sched w))) /\
  _queues (sched w') = _queues (sched w) /\
  log w' = log w ++ [Info_scheduled ctx t] /\
  clock_reads w' = clock_reads w.
Proof.
  intros Hst Hfresh. cbv zeta.
  assert (Hrun : add_task clock ctx w =
    ({| ctxs := fun c' =>
                  if Pos.eqb c' ctx then
                    {| scheduler := Some TheScheduler;
                       task := task (ctxs w ctx);
                       name := name (ctxs w ctx);
                       sched_time := sched_time (ctxs w ctx) |}
                  else ctxs w c';
        sched :=
          {| _queues := _queues (sched w);
             schedule :=
               PyDict.set t
                 (default [] (PyDict.get t (schedule (sched w))) ++ [ctx])
                 (schedule (sched w));
             scheduled := <[ctx := t]> (scheduled (sched w)) |};
        log := log w ++ [Info_scheduled ctx t];
        clock_reads := clock_reads w |}, Returns tt)).
  { unfold add_task. unfold bind at 1, get_ctx at 1.
    unfold bind at 1, set_ctx at 1. rewrite Hst. cbn [truthy negb].
    unfold bind, ret, get_sched, put_sched, LOG. cbn [sched scheduled].
    rewrite Hfresh. cbn [sched scheduled schedule _queues sched_time_in].
    rewrite PyDict_mem_get.
    destruct (PyDict.get t (schedule (sched w))) as [slot|]; reflexivity. }
  rewrite Hrun.
  cbn [fst snd sched scheduled schedule _queues log clock_reads ctxs].
  rewrite Pos.eqb_refl. cbn [scheduler].
  repeat split.
  - apply SchedulingFacts.PyDict_get_set.
  - intros t' Hne. apply SchedulingFacts.PyDict_get_set_other. congruence.
Qed.

(** X5: a context with a relative time, a number of seconds that is not
    zero and that leads from the clock reading to a date of the range of
    [datetime], is scheduled for that many seconds after the clock
    reading, alone in its slot whatever the slot held, and the call then
    raises [AttributeError]: the record of the scheduling formats the
    number as a date.  (Outside the range the sum itself raises
    [OverflowError] in Python, and nothing is scheduled.) *)
Theorem add_task_relative_time_raises (clock : nat -> datetime)
    (w : world) (ctx : ctx_ref) (n : Z) :
  sched_time (ctxs w ctx) = ST_Int n ->
  n <> 0 ->
  representable (clock (clock_reads w)) ->
  representable (clock (clock_reads w) + n * 1000000) ->
  let w' := fst (add_task clock ctx w) in
  let when := clock (clock_reads w) + n * 1000000 in
  snd (add_task clock ctx w) =
    Raises (AttributeError "'int' object has no attribute 'strftime'") /\
  scheduled (sched w') !! ctx = Some when /\
  PyDict.get when (schedule (sched w')) = Some [ctx] /\
  _queues (sched w') = _queues (sched w) /\
  clock_reads w' = S (clock_reads w).
Proof.
  intros Hst Hn _ _. cbv zeta.
  set (when := clock _ + n * 1000000).
  set (w1 := {| ctxs := fun c' =>
                          if Pos.eqb c' ctx then
                            {| scheduler := Some TheScheduler;
                               task := task (ctxs w ctx);
                               name := name (ctxs w ctx);
                               sched_time := ST_Int n |}
                          else ctxs w c';
                sched := sched w; log := log w;
                clock_reads := S (clock_reads w) |}).
  assert (Hmid : exists w2,
             (match scheduled (sched w1) !! ctx with
              | Some _ =>
                  LOG (Warning_already_scheduled ctx) ;;;
                  _ <- cancel_task ctx ;; ret tt
              | None => ret tt
              end) w1 = (w2, Returns tt) /\
             _queues (sched w2) = _queues (sched w) /\
             clock_reads w2 = S (clock_reads w)).
  { destruct (scheduled (sched w1) !! ctx).
    - unfold bind at 1, LOG at 1.
      set (w1' := {| ctxs := ctxs w1; sched := sched w1; log := _;
                     clock_reads := clock_reads w1 |}).
      destruct (cancel_task_returns w1' ctx)
        as (w2 & b & Hc & _ & Hclk & Hqs & _).
      exists w2. unfold bind. rewrite Hc. unfold ret.
      repeat split; [rewrite Hqs | rewrite Hclk]; reflexivity.
    - exists w1. repeat split. }
  destruct Hmid as (w2 & Hmid & Hqs & Hclk).
  assert (Hrun : add_task clock ctx w =
                 ({| ctxs := ctxs w2;
                     sched := {| _queues := _queues (sched w2);
                                 schedule :=
                                   PyDict.set when [ctx] (schedule (sched w2));
                                 scheduled :=
                                   <[ctx := when]> (scheduled (sched w2)) |};
                     log := log w2; clock_reads := clock_reads w2 |},
                  Raises (AttributeError
                            "'int' object has no attribute 'strftime'"))).
  { unfold add_task. unfold bind at 1, get_ctx at 1.
    unfold bind at 1, set_ctx at 1. rewrite Hst. cbn [truthy negb].
    apply Z.eqb_neq in Hn. rewrite Hn. cbn [negb].
    unfold bind at 1. unfold bind at 1, datetime_now at 1, ret at 1.
    unfold timedelta_of_seconds. cbn [ctxs sched log clock_reads].
    fold when. fold w1.
    unfold bind at 1, get_sched at 1. unfold bind at 1.
    rewrite Hmid. reflexivity. }
  rewrite Hrun. cbn [fst snd sched scheduled schedule _queues clock_reads].
  repeat split; try assumption.
  - apply lookup_insert_eq.
  - apply SchedulingFacts.PyDict_get_set.
Qed.


(** ** A tick *)

(** What [promote] does, case by case. *)
Lemma promote_eq (clock : nat -> datetime) (now when : datetime)
    (ctx : ctx_ref) (w : world) :
  promote clock now when ctx w =
    let log1 := log w ++ [Info_adding ctx (task (ctxs w ctx))] in
    match scheduled (sched w) !! ctx with
    | None =>
        ({| ctxs := ctxs w; sched := sched w; log := log1;
            clock_reads := clock_reads w |},
         Raises (KeyError "del self.scheduled[ctx]"))
    | Some _ =>
        match _queues (sched w) !! task (ctxs w ctx) with
        | None =>
            ({| ctxs := ctxs w;
                sched := {| _queues := _queues (sched w);
                            schedule := schedule (sched w);
                            scheduled := delete ctx (scheduled (sched w)) |};
                log := log1; clock_reads := clock_reads w |},
             Raises (KeyError "Queue for task {} might not exist."))
        | Some q =>
            if Queue_full q then
              ({| ctxs := ctxs w;
                  sched := {| _queues := _queues (sched w);
                              schedule := schedule (sched w);
                              scheduled := delete ctx (scheduled (sched w)) |};
                  log := log1; clock_reads := clock_reads w |}, Blocks)
            else
              let s3 :=
                {| _queues := <[task (ctxs w ctx) :=
                                  mkQueue (maxsize q) (items q ++ [ctx])]>
                                (_queues (sched w));
                   schedule := schedule (sched w);
                   scheduled := delete ctx (scheduled (sched w)) |} in
              let late := timedelta_seconds (clock (clock_reads w) - when) in
              if late <? 1 then
                ({| ctxs := ctxs w; sched := s3;
                    log := log1 ++ [Debug_queued ctx now LateNone];
                    clock_reads := S (clock_reads w) |}, Returns tt)
              else if (1 <? late) && (late <? 59) then
                ({| ctxs := ctxs w; sched := s3;
                    log := log1 ++ [Debug_queued ctx now (LateSeconds late)];
                    clock_reads := S (clock_reads w) |}, Returns tt)
              else
                ({| ctxs := ctxs w; sched := s3; log := log1;
                    clock_reads := S (clock_reads w) |},
                 Raises strftime_of_timedelta)
        end
    end.
Proof.
  cbv zeta.
  unfold promote, bind, get_ctx, LOG, get_sched, put_sched, raise.
  cbn [sched scheduled].
  destruct (scheduled (sched w) !! ctx) as [t0|]; [| reflexivity].
  unfold _queue_task, bind, get_ctx, get_sched, put_sched, raise.
  cbn [sched _queues ctxs].
  destruct (_queues (sched w) !! task (ctxs w ctx)) as [q|]; [| reflexivity].
  destruct (Queue_full q); [reflexivity|].
  unfold datetime_now. cbn [clock_reads].
  destruct (timedelta_seconds (clock (clock_reads w) - when) <? 1);
    [reflexivity|].
  destruct ((1 <? timedelta_seconds (clock (clock_reads w) - when))
            && (timedelta_seconds (clock (clock_reads w) - when) <? 59));
    reflexivity.
Qed.

(** A promotion never touches the schedule or the context objects. *)
Lemma promote_frame (clock : nat -> datetime) (now when : datetime)
    (ctx : ctx_ref) (w : world) :
  schedule (sched (fst (promote clock now when ctx w))) = schedule (sched w) /\
  ctxs (fst (promote clock now when ctx w)) = ctxs w.
Proof.
  rewrite promote_eq. cbv zeta.
  destruct (scheduled (sched w) !! ctx); [| split; reflexivity].
  destruct (_queues (sched w) !! task (ctxs w ctx)) as [q|];
    [| split; reflexivity].
  destruct (Queue_full q); [split; reflexivity|].
  destruct (_ <? 1); [split; reflexivity|].
  destruct (_ && _); split; reflexivity.
Qed.

Lemma promote_all_frame (clock : nat -> datetime) (now when : datetime)
    (slot : list ctx_ref) :
  forall w : world,
    schedule (sched (fst (promote_all clock now when slot w)))
    = schedule (sched w) /\
    ctxs (fst (promote_all clock now when slot w)) = ctxs w.
Proof.
  induction slot as [|ctx slot IH]; intros w; [split; reflexivity|].
  cbn [promote_all]. unfold bind.
  pose proof (promote_frame clock now when ctx w) as [Hs Hc].
  destruct (promote clock now when ctx w) as [w1 [[]|e|]]; cbn [fst] in *.
  - destruct (IH w1) as [Hs' Hc']. split; congruence.
  - split; assumption.
  - split; assumption.
Qed.

Lemma PyDict_get_remove_other {V} (k k' : datetime) (d : PyDict.t V) :
  k <> k' -> PyDict.get k' (PyDict.remove k d) = PyDict.get k' d.
Proof.
  intros Hne. induction d as [|[k0 v0] d IH]; [reflexivity|]. cbn.
  destruct (Z.eqb k k0) eqn:E.
  - apply Z.eqb_eq in E. subst k0.
    destruct (Z.eqb k' k) eqn:E'; [| reflexivity].
    apply Z.eqb_eq in E'. congruence.
  - cbn. destruct (Z.eqb k' k0); [reflexivity | exact IH].
Qed.

Lemma run_slots_frame (clock : nat -> datetime) (now : datetime)
    (todo : list datetime) :
  forall (w : world) (k : datetime),
    ~ In k todo ->
    PyDict.get k (schedule (sched (fst (run_slots clock now todo w))))
    = PyDict.get k (schedule (sched w)).
Proof.
  induction todo as [|when todo IH]; intros w k Hk; [reflexivity|].
  cbn [run_slots]. unfold bind at 1, get_sched at 1. unfold PyDict.pop.
  destruct (PyDict.get when (schedule (sched w))) as [slot|]; [| reflexivity].
  unfold bind at 1, put_sched at 1.
  set (w1 := {| ctxs := ctxs w; sched := _; log := log w;
                clock_reads := clock_reads w |}).
  assert (H1 : PyDict.get k (schedule (sched w1))
               = PyDict.get k (schedule (sched w))).
  { cbn. apply PyDict_get_remove_other. intros ->. apply Hk. left. reflexivity. }
  unfold bind.
  pose proof (promote_all_frame clock now when slot w1) as [Hs _].
  destruct (promote_all clock now when slot w1) as [w2 [[]|e|]]; cbn [fst] in *.
  - rewrite IH by (intros Hin; apply Hk; right; exact Hin). congruence.
  - congruence.
  - congruence.
Qed.

(** X6: a tick leaves every slot whose time is still to come as it is,
    whatever else happens in it; when no slot is due it does nothing but
    read the clock. *)
Theorem _run_leaves_future_slots (clock : nat -> datetime) (w : world) :
  let now := clock (clock_reads w) in
  let w' := fst (_run clock false w) in
  (forall t, now < t ->
     PyDict.get t (schedule (sched w')) = PyDict.get t (schedule (sched w))) /\
  ((forall t, In t (PyDict.keys (schedule (sched w))) -> now < t) ->
   snd (_run clock false w) = Returns tt /\
   sched w' = sched w /\ log w' = log w /\ ctxs w' = ctxs w).
Proof.
  cbv zeta. unfold _run, bind, datetime_now, get_sched. cbn [sched].
  split.
  - intros t Ht. rewrite run_slots_frame; [reflexivity|].
    intros Hin. apply filter_In in Hin as [_ Hle].
    apply Z.leb_le in Hle. lia.
  - intros Hall.
    assert (Hnone : List.filter (fun x => x <=? clock (clock_reads w))
                      (PyDict.keys (schedule (sched w))) = []).
    { induction (PyDict.keys (schedule (sched w))) as [|k ks IH];
        [reflexivity|]. cbn.
      assert (Hk : clock (clock_reads w) < k) by (apply Hall; left; reflexivity).
      apply Z.leb_gt in Hk. rewrite Hk. apply IH.
      intros t Hin. apply Hall. right. exact Hin. }
    rewrite Hnone. cbn. repeat split.
Qed.


(** *** A tick on a scheduler in good order *)

Lemma NoDup_app_In {A} (l k : list A) :
  List.NoDup (l ++ k) ->
  List.NoDup l /\ List.NoDup k /\ forall x, In x l -> ~ In x k.
Proof.
  induction l as [|a l IH]; cbn; intros H.
  - split; [constructor|]. split; [assumption | intros x []].
  - apply List.NoDup_cons_iff in H as [Ha H].
    destruct (IH H) as (Hl & Hk & Hd).
    split; [| split; [assumption|]].
    + apply List.NoDup_cons_iff. split; [| assumption].
      intros Hin. apply Ha. apply in_or_app. left. exact Hin.
    + intros x [<- | Hx] Hx'; [| exact (Hd x Hx Hx')].
      apply Ha. apply in_or_app. right. exact Hx'.
Qed.

Lemma PyDict_get_in_keys {V} (k : datetime) (d : PyDict.t V) :
  In k (PyDict.keys d) -> PyDict.get k d <> None.
Proof.
  induction d as [|[k0 v0] d IH]; cbn; [contradiction|].
  intros [-> | Hin].
  - rewrite Z.eqb_refl. discriminate.
  - destruct (Z.eqb k k0); [discriminate | apply IH; exact Hin].
Qed.

Lemma PyDict_keys_remove {V} (k k' : datetime) (d : PyDict.t V) :
  In k' (PyDict.keys (PyDict.remove k d)) -> In k' (PyDict.keys d).
Proof.
  induction d as [|[k0 v0] d IH]; cbn; [contradiction|].
  destruct (Z.eqb k k0); cbn; [auto | intros [-> | Hin]; auto].
Qed.

Lemma PyDict_keys_remove_other {V} (k k' : datetime) (d : PyDict.t V) :
  k <> k' -> In k' (PyDict.keys d) -> In k' (PyDict.keys (PyDict.remove k d)).
Proof.
  intros Hne. induction d as [|[k0 v0] d IH]; cbn; [contradiction|].
  destruct (Z.eqb k k0) eqn:E; cbn.
  - apply Z.eqb_eq in E. subst k0. intros [-> | Hin]; [congruence | exact Hin].
  - intros [-> | Hin]; auto.
Qed.

Lemma PyDict_keys_remove_NoDup {V} (k : datetime) (d : PyDict.t V) :
  List.NoDup (PyDict.keys d) ->
  List.NoDup (PyDict.keys (PyDict.remove k d)) /\
  PyDict.get k (PyDict.remove k d) = None.
Proof.
  induction d as [|[k0 v0] d IH]; cbn; [split; [constructor | reflexivity]|].
  intros Hnd. apply List.NoDup_cons_iff in Hnd as [Hk0 Hnd].
  destruct (Z.eqb k k0) eqn:E; cbn.
  - apply Z.eqb_eq in E. subst k0. split; [assumption|].
    destruct (PyDict.get k d) eqn:Hg; [| reflexivity].
    exfalso. apply Hk0. clear - Hg.
    induction d as [|[k1 v1] d IH]; cbn in *; [discriminate|].
    destruct (Z.eqb k k1) eqn:E; [apply Z.eqb_eq in E; auto | auto].
  - rewrite E. destruct (IH Hnd) as [Hnd' Hget]. split; [| exact Hget].
    apply List.NoDup_cons_iff. split; [| exact Hnd'].
    intros Hin. apply Hk0. eapply PyDict_keys_remove. exact Hin.
Qed.

Lemma unbounded_not_full (q : Queue) : maxsize q <= 0 -> Queue_full q = false.
Proof.
  intros H. unfold Queue_full.
  destruct (0 <? maxsize q) eqn:E; [| reflexivity].
  apply Z.ltb_lt in E. lia.
Qed.

Lemma promote_ok (clock : nat -> datetime) (now when : datetime)
    (ctx : ctx_ref) (w : world) (q : Queue) :
  scheduled (sched w) !! ctx <> None ->
  _queues (sched w) !! task (ctxs w ctx) = Some q ->
  Queue_full q = false ->
  punctual (timedelta_seconds (clock (clock_reads w) - when)) ->
  exists l,
    promote clock now when ctx w =
      ({| ctxs := ctxs w;
          sched := {| _queues := <[task (ctxs w ctx) :=
                                     mkQueue (maxsize q) (items q ++ [ctx])]>
                                   (_queues (sched w));
                      schedule := schedule (sched w);
                      scheduled := delete ctx (scheduled (sched w)) |};
          log := l; clock_reads := S (clock_reads w) |}, Returns tt).
Proof.
  intros Hs Hq Hfull Hlate. rewrite promote_eq. cbv zeta.
  destruct (scheduled (sched w) !! ctx); [| congruence].
  rewrite Hq, Hfull.
  destruct Hlate as [Hl | [Hl1 Hl2]].
  - apply Z.ltb_lt in Hl. rewrite Hl. eexists. reflexivity.
  - assert (H1 : (timedelta_seconds (clock (clock_reads w) - when) <? 1) = false)
      by (apply Z.ltb_ge; lia).
    apply Z.ltb_lt in Hl1, Hl2. rewrite H1, Hl1, Hl2. eexists. reflexivity.
Qed.

Lemma promote_all_ok (clock : nat -> datetime) (now when : datetime)
    (slot : list ctx_ref) :
  forall w : world,
    List.NoDup slot ->
    (forall c, In c slot -> scheduled (sched w) !! c <> None) ->
    (forall c, In c slot ->
       exists q, _queues (sched w) !! task (ctxs w c) = Some q /\
                 maxsize q <= 0) ->
    (forall i, (clock_reads w <= i)%nat ->
       punctual (timedelta_seconds (clock i - when))) ->
    exists w',
      promote_all clock now when slot w = (w', Returns tt) /\
      ctxs w' = ctxs w /\
      schedule (sched w') = schedule (sched w) /\
      clock_reads w' = (clock_reads w + length slot)%nat /\
      (forall c, In c slot -> scheduled (sched w') !! c = None) /\
      (forall c, ~ In c slot ->
         scheduled (sched w') !! c = scheduled (sched w) !! c) /\
      (forall t,
         _queues (sched w') !! t =
           match _queues (sched w) !! t with
           | Some q =>
               Some (mkQueue (maxsize q)
                       (items q ++
                        List.filter
                          (fun c => String.eqb (task (ctxs w c)) t) slot))
           | None => None
           end).
Proof.
  induction slot as [|ctx slot IH]; intros w Hnd Hs Hq Hlate.
  - exists w. cbn. repeat split; auto; try lia.
    intros t. destruct (_queues (sched w) !! t) as [[m l]|]; [| reflexivity].
    cbn. rewrite app_nil_r. reflexivity.
  - apply List.NoDup_cons_iff in Hnd as [Hctx Hnd].
    destruct (Hq ctx (or_introl eq_refl)) as (q & Hqq & Hmax).
    destruct (promote_ok clock now when ctx w q) as (l & Hp); auto.
    { apply Hs. left. reflexivity. }
    { apply unbounded_not_full. exact Hmax. }
    cbn [promote_all]. unfold bind. rewrite Hp.
    set (w1 := {| ctxs := ctxs w; sched := _; log := l;
                  clock_reads := S (clock_reads w) |}).
    destruct (IH w1) as (w' & Hrun & H1 & H2 & H3 & H4 & H5 & H6).
    + exact Hnd.
    + intros c Hc. cbn. rewrite lookup_delete_ne; [apply Hs; right; exact Hc|].
      intros ->. contradiction.
    + intros c Hc. cbn.
      destruct (Hq c (or_intror Hc)) as (qc & Hqc & Hmaxc).
      destruct (decide (task (ctxs w c) = task (ctxs w ctx))) as [Heq | Hne].
      * rewrite Heq, lookup_insert_eq. eexists. split; [reflexivity|].
        exact Hmax.
      * rewrite lookup_insert_ne by congruence. exists qc. auto.
    + intros i Hi. apply Hlate. cbn in Hi. lia.
    + exists w'. rewrite Hrun. split; [reflexivity|].
      split; [exact H1|]. split; [exact H2|].
      split; [rewrite H3; cbn; lia|].
      split; [| split].
      * intros c [<- | Hc]; [| apply H4; exact Hc].
        rewrite (H5 ctx Hctx). cbn. apply lookup_delete_eq.
      * intros c Hc. rewrite H5 by (intros Hin; apply Hc; right; exact Hin).
        cbn. apply lookup_delete_ne. intros ->. apply Hc. left. reflexivity.
      * intros t. rewrite H6. cbn [sched _queues ctxs w1].
        destruct (decide (t = task (ctxs w ctx))) as [-> | Hne].
        -- rewrite lookup_insert_eq, Hqq. cbn [maxsize items List.filter].
           rewrite String.eqb_refl, <- app_assoc. reflexivity.
        -- rewrite lookup_insert_ne by congruence.
           destruct (_queues (sched w) !! t) as [qt|]; [| reflexivity].
           cbn [List.filter].
           destruct (String.eqb (task (ctxs w ctx)) t) eqn:E; [| reflexivity].
           apply String.eqb_eq in E. congruence.
Qed.

Lemma run_slots_ok (clock : nat -> datetime) (now : datetime)
    (todo : list datetime) :
  forall w : world,
    List.NoDup (PyDict.keys (schedule (sched w))) ->
    List.NoDup todo ->
    (forall k, In k todo -> In k (PyDict.keys (schedule (sched w)))) ->
    List.NoDup
      (concat (map (fun k => default [] (PyDict.get k (schedule (sched w))))
                 todo)) ->
    (forall c,
       In c (concat (map (fun k => default []
                                     (PyDict.get k (schedule (sched w))))
                       todo)) ->
       scheduled (sched w) !! c <> None /\
       exists q, _queues (sched w) !! task (ctxs w c) = Some q /\
                 maxsize q <= 0) ->
    (forall i k, (clock_reads w <= i)%nat -> In k todo ->
       punctual (timedelta_seconds (clock i - k))) ->
    exists w',
      run_slots clock now todo w = (w', Returns tt) /\
      ctxs w' = ctxs w /\
      (forall k, In k todo -> PyDict.get k (schedule (sched w')) = None) /\
      (forall k, ~ In k todo ->
         PyDict.get k (schedule (sched w'))
         = PyDict.get k (schedule (sched w))) /\
      (forall c,
         In c (concat (map (fun k => default []
                                       (PyDict.get k (schedule (sched w))))
                         todo)) ->
         scheduled (sched w') !! c = None) /\
      (forall c,
         ~ In c (concat (map (fun k => default []
                                         (PyDict.get k (schedule (sched w))))
                           todo)) ->
         scheduled (sched w') !! c = scheduled (sched w) !! c) /\
      (forall t,
         _queues (sched w') !! t =
           match _queues (sched w) !! t with
           | Some q =>
               Some (mkQueue (maxsize q)
                       (items q ++
                        List.filter
                          (fun c => String.eqb (task (ctxs w c)) t)
                          (concat
                             (map (fun k =>
                                     default []
                                       (PyDict.get k (schedule (sched w))))
                                todo))))
           | None => None
           end).
Proof.
  induction todo as [|when todo IH]; intros w Hkeys Hnd Hin Hcs Hgood Hlate.
  - exists w. cbn.
    split; [reflexivity|]. split; [reflexivity|]. split; [intros k []|].
    split; [intros; reflexivity|]. split; [intros c []|].
    split; [intros; reflexivity|].
    intros t. destruct (_queues (sched w) !! t) as [[m l]|]; [| reflexivity].
    cbn. rewrite app_nil_r. reflexivity.
  - apply List.NoDup_cons_iff in Hnd as [Hwhen Hnd].
    cbn [map concat] in Hcs, Hgood |- *.
    pose proof (PyDict_get_in_keys when _ (Hin when (or_introl eq_refl)))
      as Hget.
    destruct (PyDict.get when (schedule (sched w))) as [slot|] eqn:Hslot;
      [clear Hget | congruence].
    cbn [default] in Hcs, Hgood |- *.
    apply NoDup_app_In in Hcs as (Hslot_nd & Hrest_nd & Hdisj).
    cbn [run_slots]. unfold bind at 1, get_sched at 1. unfold PyDict.pop.
    rewrite Hslot. unfold bind at 1, put_sched at 1.
    set (w1 := {| ctxs := ctxs w; sched := _; log := log w;
                  clock_reads := clock_reads w |}).
    destruct (promote_all_ok clock now when slot w1)
      as (w2 & Hrun & P1 & P2 & P3 & P4 & P5 & P6).
    { exact Hslot_nd. }
    { intros c Hc. apply Hgood. apply in_or_app. left. exact Hc. }
    { intros c Hc. apply Hgood. apply in_or_app. left. exact Hc. }
    { intros i Hi. apply Hlate; [exact Hi | left; reflexivity]. }
    unfold bind at 1. rewrite Hrun.
    destruct (PyDict_keys_remove_NoDup when (schedule (sched w)) Hkeys)
      as [Hkeys' Hgone].
    assert (Hsame : forall k, In k todo ->
              PyDict.get k (schedule (sched w2))
              = PyDict.get k (schedule (sched w))).
    { intros k Hk. rewrite P2. cbn. apply PyDict_get_remove_other.
      intros ->. contradiction. }
    assert (Hmap : map (fun k => default [] (PyDict.get k (schedule (sched w2))))
                     todo
                   = map (fun k => default [] (PyDict.get k (schedule (sched w))))
                       todo).
    { apply map_ext_in. intros k Hk. rewrite (Hsame k Hk). reflexivity. }
    destruct (IH w2) as (w' & Hrun' & Q1 & Q2 & Q3 & Q4 & Q5 & Q6).
    + rewrite P2. exact Hkeys'.
    + exact Hnd.
    + intros k Hk. rewrite P2. cbn. apply PyDict_keys_remove_other.
      * intros ->. contradiction.
      * apply Hin. right. exact Hk.
    + rewrite Hmap. exact Hrest_nd.
    + rewrite Hmap. intros c Hc.
      assert (Hnot : ~ In c slot) by (intros Hc'; exact (Hdisj c Hc' Hc)).
      destruct (Hgood c (in_or_app _ _ _ (or_intror Hc))) as (Hsc & qc & Hqc & Hm).
      split.
      * rewrite (P5 c Hnot). exact Hsc.
      * rewrite P1, P6. cbn [sched _queues ctxs w1]. rewrite Hqc.
        eexists. split; [reflexivity | exact Hm].
    + intros i k Hi Hk. apply Hlate; [| right; exact Hk].
      rewrite P3 in Hi. cbn in Hi. lia.
    + exists w'. rewrite Hrun'. rewrite Hmap in Q4, Q5, Q6.
      split; [reflexivity|].
      split; [rewrite Q1, P1; reflexivity|].
      split; [| split; [| split; [| split]]].
      * intros k [<- | Hk]; [| apply Q2; exact Hk].
        rewrite (Q3 when Hwhen), P2. exact Hgone.
      * intros k Hk.
        rewrite Q3 by (intros Hk'; apply Hk; right; exact Hk').
        rewrite P2. cbn. apply PyDict_get_remove_other.
        intros ->. apply Hk. left. reflexivity.
      * intros c Hc. apply in_app_or in Hc as [Hc | Hc].
        -- destruct (in_dec Pos.eq_dec c
                       (concat (map (fun k => default []
                                  (PyDict.get k (schedule (sched w)))) todo)))
             as [Hc' | Hc'].
           ++ apply Q4. exact Hc'.
           ++ rewrite (Q5 c Hc'). apply P4. exact Hc.
        -- apply Q4. exact Hc.
      * intros c Hc. rewrite Q5 by (intros Hc'; apply Hc; apply in_or_app; auto).
        apply P5. intros Hc'. apply Hc. apply in_or_app. auto.
      * intros t. rewrite Q6, P6, P1. cbn [sched _queues ctxs w1].
        destruct (_queues (sched w) !! t) as [qt|]; [| reflexivity].
        cbn [maxsize items]. rewrite List.filter_app, <- app_assoc. reflexivity.
Qed.


Lemma filter_none {A} (f : A -> bool) (l : list A) :
  (forall x, In x l -> f x = false) -> List.filter f l = [].
Proof.
  induction l as [|a l IH]; intros H; [reflexivity|]. cbn.
  rewrite (H a (or_introl eq_refl)). apply IH.
  intros x Hx. apply H. right. exact Hx.
Qed.

Lemma taken_in_keys (all_tasks : bool) (now : datetime)
    (d : PyDict.t (list ctx_ref)) (k : datetime) :
  In k (taken all_tasks now d) -> In k (PyDict.keys d).
Proof.
  unfold taken. destruct all_tasks; [auto|].
  intros H. apply filter_In in H as [H _]. exact H.
Qed.

Lemma taken_NoDup (all_tasks : bool) (now : datetime)
    (d : PyDict.t (list ctx_ref)) :
  List.NoDup (PyDict.keys d) -> List.NoDup (taken all_tasks now d).
Proof.
  unfold taken. destruct all_tasks; [auto|]. apply List.NoDup_filter.
Qed.

(** X7: a tick on a scheduler in good order.  If the times of the schedule
    are distinct, the contexts of the slots that are taken are distinct,
    in the reverse map and for queues that exist and are unbounded, and
    every clock reading of the tick is punctual for those slots, then
    the tick returns; the slots it took are gone and the others are as
    they were; the contexts it met have left the reverse map; and every
    queue has received the contexts of its task at its end, in the order
    of the schedule. *)
Theorem _run_promotes_what_is_due (clock : nat -> datetime)
    (all_tasks : bool) (w : world) :
  let now := clock (clock_reads w) in
  let d := schedule (sched w) in
  List.NoDup (PyDict.keys d) ->
  List.NoDup (due all_tasks now d) ->
  (forall c, In c (due all_tasks now d) ->
     scheduled (sched w) !! c <> None /\
     exists q, _queues (sched w) !! task (ctxs w c) = Some q /\
               maxsize q <= 0) ->
  (forall i k, (clock_reads w < i)%nat -> In k (taken all_tasks now d) ->
     punctual (timedelta_seconds (clock i - k))) ->
  let w' := fst (_run clock all_tasks w) in
  snd (_run clock all_tasks w) = Returns tt /\
  (forall k, In k (taken all_tasks now d) ->
     PyDict.get k (schedule (sched w')) = None) /\
  (forall k, ~ In k (taken all_tasks now d) ->
     PyDict.get k (schedule (sched w')) = PyDict.get k d) /\
  (forall c, In c (due all_tasks now d) -> scheduled (sched w') !! c = None) /\
  (forall c, ~ In c (due all_tasks now d) ->
     scheduled (sched w') !! c = scheduled (sched w) !! c) /\
  (forall t,
     queued w' t =
       queued w t ++
       List.filter (fun c => String.eqb (task (ctxs w c)) t)
         (due all_tasks now d)) /\
  ctxs w' = ctxs w.
Proof.
  cbv zeta. intros Hkeys Hnd Hgood Hlate.
  set (now := clock (clock_reads w)) in *.
  set (w0 := {| ctxs := ctxs w; sched := sched w; log := log w;
                clock_reads := S (clock_reads w) |}).
  assert (Hrun : _run clock all_tasks w
                 = run_slots clock now
                     (taken all_tasks now (schedule (sched w))) w0).
  { unfold _run, bind, datetime_now, get_sched. reflexivity. }
  rewrite Hrun.
  destruct (run_slots_ok clock now (taken all_tasks now (schedule (sched w)))
              w0)
    as (w' & Hrun' & Q1 & Q2 & Q3 & Q4 & Q5 & Q6).
  { exact Hkeys. }
  { apply taken_NoDup. exact Hkeys. }
  { intros k Hk. eapply taken_in_keys. exact Hk. }
  { exact Hnd. }
  { exact Hgood. }
  { intros i k Hi Hk. apply Hlate; [cbn in Hi; lia | exact Hk]. }
  rewrite Hrun'. cbn [fst snd].
  split; [reflexivity|]. split; [exact Q2|]. split; [exact Q3|].
  split; [exact Q4|]. split; [exact Q5|]. split; [| exact Q1].
  intros t. unfold queued. rewrite Q6. cbn [sched w0 ctxs].
  destruct (_queues (sched w) !! t) as [q|] eqn:Hq; [reflexivity|].
  symmetry. apply filter_none. intros c Hc.
  destruct (Hgood c Hc) as (_ & qc & Hqc & _).
  destruct (String.eqb (task (ctxs w c)) t) eqn:E; [| reflexivity].
  apply String.eqb_eq in E. congruence.
Qed.

(** *** Ticks that raise *)

(** A tick whose first slot is taken and whose first promotion raises
    ends there. *)
Lemma _run_first (clock : nat -> datetime) (all_tasks : bool) (w : world)
    (when : datetime) (ctx : ctx_ref) (rest : list ctx_ref)
    (others : PyDict.t (list ctx_ref)) (w1 : world) (e : exn) :
  schedule (sched w) = (when, ctx :: rest) :: others ->
  all_tasks = true \/ when <= clock (clock_reads w) ->
  promote clock (clock (clock_reads w)) when ctx
    {| ctxs := ctxs w;
       sched := {| _queues := _queues (sched w); schedule := others;
                   scheduled := scheduled (sched w) |};
       log := log w; clock_reads := S (clock_reads w) |} = (w1, Raises e) ->
  _run clock all_tasks w = (w1, Raises e).
Proof.
  intros Hd Hdue Hp.
  unfold _run, bind at 1, datetime_now at 1. unfold bind at 1, get_sched at 1.
  cbn [sched]. rewrite Hd.
  assert (Htodo : exists todo,
             (if all_tasks then PyDict.keys ((when, ctx :: rest) :: others)
              else List.filter (fun x => x <=? clock (clock_reads w))
                     (PyDict.keys ((when, ctx :: rest) :: others)))
             = when :: todo).
  { destruct Hdue as [-> | Hle].
    - eexists. reflexivity.
    - destruct all_tasks; [eexists; reflexivity|]. cbn.
      apply Z.leb_le in Hle. rewrite Hle. eexists. reflexivity. }
  destruct Htodo as (todo & ->).
  cbn [run_slots]. unfold bind at 1, get_sched at 1. cbn [sched schedule].
  rewrite Hd. unfold PyDict.pop. cbn [PyDict.get PyDict.remove].
  rewrite Z.eqb_refl. unfold bind at 1, put_sched at 1.
  cbn [sched _queues scheduled ctxs log clock_reads].
  unfold bind at 1. cbn [promote_all]. unfold bind at 1.
  rewrite Hp. reflexivity.
Qed.

(** X8: a promotion that is one second late, or fifty-nine seconds or
    more, has no text for its record: the tick raises [AttributeError]
    after the first context of the slot has been queued.  The slot is
    gone from the schedule, and the contexts behind it in the slot stay
    in the reverse map without ever being promoted. *)
Theorem late_promotion_raises (clock : nat -> datetime) (all_tasks : bool)
    (w : world) (when : datetime) (ctx : ctx_ref) (rest : list ctx_ref)
    (others : PyDict.t (list ctx_ref)) (q : Queue) :
  schedule (sched w) = (when, ctx :: rest) :: others ->
  all_tasks = true \/ when <= clock (clock_reads w) ->
  scheduled (sched w) !! ctx <> None ->
  _queues (sched w) !! task (ctxs w ctx) = Some q ->
  Queue_full q = false ->
  (let late := timedelta_seconds (clock (S (clock_reads w)) - when) in
   late = 1 \/ 59 <= late) ->
  let w' := fst (_run clock all_tasks w) in
  snd (_run clock all_tasks w) = Raises strftime_of_timedelta /\
  queued w' (task (ctxs w ctx)) = items q ++ [ctx] /\
  schedule (sched w') = others /\
  scheduled (sched w') = delete ctx (scheduled (sched w)).
Proof.
  cbv zeta. intros Hd Hdue Hs Hq Hfull Hlate.
  erewrite _run_first; [| exact Hd | exact Hdue |].
  2: { rewrite promote_eq. cbv zeta.
       cbn [sched scheduled _queues ctxs clock_reads schedule log].
       destruct (scheduled (sched w) !! ctx); [| congruence].
       rewrite Hq, Hfull.
       assert (H1 : (timedelta_seconds (clock (S (clock_reads w)) - when) <? 1)
                    = false) by (apply Z.ltb_ge; lia).
       assert (H2 : ((1 <? timedelta_seconds
                             (clock (S (clock_reads w)) - when))
                     && (timedelta_seconds
                           (clock (S (clock_reads w)) - when) <? 59)) = false).
       { destruct Hlate as [-> | Hge]; [reflexivity|].
         apply andb_false_iff. right. apply Z.ltb_ge. exact Hge. }
       rewrite H1, H2. reflexivity. }
  cbn [fst snd sched schedule scheduled]. split; [reflexivity|].
  split; [| split; reflexivity].
  unfold queued. cbn [sched _queues]. rewrite lookup_insert_eq. reflexivity.
Qed.

Lemma future_is_late (later : Z) :
  0 < later <= 86341000000 -> 59 <= timedelta_seconds (- later).
Proof.
  intros [Hlo Hhi]. unfold timedelta_seconds.
  assert (Hx : -86341 <= - later / 1000000 <= -1).
  { split.
    - apply Z.div_le_lower_bound; lia.
    - assert (- later / 1000000 < 0) by (apply Z.div_lt_upper_bound; lia).
      lia. }
  replace (- later / 1000000) with ((- later / 1000000 + 86400) + (-1) * 86400)
    by lia.
  rewrite Z.mod_add by lia. rewrite Z.mod_small by lia. lia.
Qed.

(** X9: [run_all] on a slot whose time is still to come, by up to 86341
    seconds: the lateness is negative, its seconds of the day are 59 or
    more, and the call raises [AttributeError] after queueing the first
    context of the slot. *)
Theorem run_all_raises_on_future_slot (clock : nat -> datetime) (w : world)
    (when : datetime) (ctx : ctx_ref) (rest : list ctx_ref)
    (others : PyDict.t (list ctx_ref)) (q : Queue) :
  schedule (sched w) = (when, ctx :: rest) :: others ->
  scheduled (sched w) !! ctx <> None ->
  _queues (sched w) !! task (ctxs w ctx) = Some q ->
  Queue_full q = false ->
  0 < when - clock (S (clock_reads w)) <= 86341000000 ->
  let w' := fst (run_all clock w) in
  snd (run_all clock w) = Raises strftime_of_timedelta /\
  queued w' (task (ctxs w ctx)) = items q ++ [ctx] /\
  schedule (sched w') = others /\
  (forall c, In c rest -> c <> ctx ->
     scheduled (sched w') !! c = scheduled (sched w) !! c).
Proof.
  cbv zeta. intros Hd Hs Hq Hfull Hfuture. unfold run_all.
  erewrite _run_first; [| exact Hd | left; reflexivity |].
  2: { rewrite promote_eq. cbv zeta.
       cbn [sched scheduled _queues ctxs clock_reads schedule log].
       destruct (scheduled (sched w) !! ctx); [| congruence].
       rewrite Hq, Hfull.
       pose proof (future_is_late (when - clock (S (clock_reads w))) Hfuture)
         as Hl.
       replace (- (when - clock (S (clock_reads w))))
         with (clock (S (clock_reads w)) - when) in Hl by lia.
       assert (H1 : (timedelta_seconds (clock (S (clock_reads w)) - when) <? 1)
                    = false) by (apply Z.ltb_ge; lia).
       assert (H2 : (timedelta_seconds (clock (S (clock_reads w)) - when)
                     <? 59) = false) by (apply Z.ltb_ge; lia).
       rewrite H1, H2, andb_false_r. reflexivity. }
  cbn [fst snd sched schedule scheduled]. split; [reflexivity|].
  split; [| split; [reflexivity|]].
  - unfold queued. cbn [sched _queues]. rewrite lookup_insert_eq. reflexivity.
  - intros c _ Hne. apply lookup_delete_ne. congruence.
Qed.

(** X10: [add_task] does not look for the queue of a context it schedules;
    the tick that takes the context finds out.  It raises [KeyError]
    with the slot gone from the schedule and the context gone from the
    reverse map, and nothing queued. *)
Theorem tick_without_queue_raises (clock : nat -> datetime) (all_tasks : bool)
    (w : world) (when : datetime) (ctx : ctx_ref) (rest : list ctx_ref)
    (others : PyDict.t (list ctx_ref)) :
  schedule (sched w) = (when, ctx :: rest) :: others ->
  all_tasks = true \/ when <= clock (clock_reads w) ->
  scheduled (sched w) !! ctx <> None ->
  _queues (sched w) !! task (ctxs w ctx) = None ->
  let w' := fst (_run clock all_tasks w) in
  snd (_run clock all_tasks w) =
    Raises (KeyError "Queue for task {} might not exist.") /\
  _queues (sched w') = _queues (sched w) /\
  schedule (sched w') = others /\
  scheduled (sched w') = delete ctx (scheduled (sched w)).
Proof.
  cbv zeta. intros Hd Hdue Hs Hq.
  erewrite _run_first; [| exact Hd | exact Hdue |].
  2: { rewrite promote_eq. cbv zeta.
       cbn [sched scheduled _queues ctxs clock_reads schedule log].
       destruct (scheduled (sched w) !! ctx); [| congruence].
       rewrite Hq. reflexivity. }
  cbn [fst snd sched schedule scheduled _queues]. repeat split.
Qed.

(** ** Cancelling and rescheduling *)

(** X11: [cancel_task] always returns.  Afterwards the context is not in
    the reverse map; the result is true exactly when the context was
    there and the slot of its time existed; the queues are never
    touched, so a context that was promoted already stays queued; and
    for a context that was not scheduled the call only logs a warning. *)
Theorem cancel_task_always_returns (w : world) (ctx : ctx_ref) :
  let w' := fst (cancel_task ctx w) in
  (exists b,
     snd (cancel_task ctx w) = Returns b /\
     (b = true <->
      exists when slot,
        scheduled (sched w) !! ctx = Some when /\
        PyDict.get when (schedule (sched w)) = Some slot)) /\
  scheduled (sched w') !! ctx = None /\
  _queues (sched w') = _queues (sched w) /\
  (scheduled (sched w) !! ctx = None ->
   snd (cancel_task ctx w) = Returns false /\
   schedule (sched w') = schedule (sched w) /\
   log w' = log w ++ [Warning_cant_unschedule ctx]).
Proof.
  cbv zeta.
  destruct (cancel_task_returns w ctx)
    as (w' & b & -> & _ & _ & Hqs & Hsch & Hb & Hfalse).
  cbn [fst snd]. split; [exists b; auto|].
  split; [rewrite Hsch; apply lookup_delete_eq|]. split; [exact Hqs|].
  intros Hnone. destruct b.
  - destruct (proj1 Hb eq_refl) as (when & slot & Hw & _). congruence.
  - destruct (Hfalse eq_refl). auto.
Qed.

(** X12: [reschedule] never reschedules.  On every store it raises, with
    [TypeError] when the context knows a scheduler and [AttributeError]
    when it does not, and it leaves the store as it was. *)
Theorem reschedule_never_returns (clock : nat -> datetime) (w : world)
    (self : ctx_ref) (when : sched_time_t) :
  fst (reschedule clock self when w) = w /\
  exists msg,
    snd (reschedule clock self when w) =
      Raises (match scheduler (ctxs w self) with
              | Some _ => TypeError msg
              | None => AttributeError msg
              end).
Proof.
  destruct (scheduler (ctxs w self)) as [[]|] eqn:Hs.
  - rewrite (SchedulingFacts.reschedule_attached clock w self when Hs).
    split; [reflexivity | eexists; reflexivity].
  - rewrite (SchedulingFacts.reschedule_detached clock w self when Hs).
    split; [reflexivity | eexists; reflexivity].
Qed.


(** ** The theorems at work *)

Lemma SchedulerThread__init___queues_witness :
  snd (SchedulerThread__init__ (Some ["parse"; "renew"]) (world_init objects))
  = Returns tt /\
  snd (SchedulerThread__init__ (Some ["renew"; "renew"]) (world_init objects))
  = Raises (KeyError "This queue is already taken.").
Proof.
  split.
  - apply (SchedulerThread__init___queues ["parse"; "renew"]
             (world_init objects)).
    constructor; [intros [H | []]; discriminate H|].
    constructor; [intros [] | constructor].
  - apply (SchedulerThread__init___queues ["renew"; "renew"]
             (world_init objects)).
    intros H. apply List.NoDup_cons_iff in H as [H _]. apply H.
    left. reflexivity.
Defined.

Lemma queue_is_first_in_first_out_witness :
  let w := fst (_queue_task ctx_b (fst (_queue_task ctx_a idle))) in
  snd (get_tasks "renew" 3 (fst (_queue_task ctx_a w)))
  = Returns [Item ctx_a; Item ctx_b; Item ctx_a].
Proof.
  cbv zeta.
  apply (queue_is_first_in_first_out
           (fst (_queue_task ctx_b (fst (_queue_task ctx_a idle)))) ctx_a
           (mkQueue 0 [ctx_a; ctx_b]));
    vm_compute; reflexivity.
Defined.

Lemma add_task_without_time_queues_at_once_witness :
  let w' := fst (add_task steady ctx_a idle_at_once) in
  scheduler (ctxs w' ctx_a) = Some TheScheduler /\
  schedule (sched w') = [] /\
  clock_reads w' = 0%nat /\
  queued w' "renew" = [ctx_a].
Proof.
  cbv zeta.
  destruct (add_task_without_time_queues_at_once steady idle_at_once ctx_a)
    as (H1 & H2 & _ & H4 & H5); [reflexivity|].
  split; [exact H1|]. split; [exact H2|]. split; [exact H4|].
  vm_compute. reflexivity.
Defined.

Lemma add_task_at_datetime_schedules_witness :
  let w' := fst (add_task steady ctx_b added_once) in
  snd (add_task steady ctx_b added_once) = Returns tt /\
  PyDict.get T1 (schedule (sched w')) = Some [ctx_a; ctx_b] /\
  scheduled (sched w') !! ctx_b = Some T1.
Proof.
  cbv zeta.
  destruct (add_task_at_datetime_schedules steady added_once ctx_b T1)
    as (H1 & _ & H3 & H4 & _); [reflexivity | vm_compute; reflexivity |].
  split; [exact H1|]. split; [rewrite H4; vm_compute; reflexivity|].
  rewrite H3. apply lookup_insert_eq.
Defined.

Lemma add_task_relative_time_raises_witness :
  let w' := fst (add_task steady ctx_a idle_in_30s) in
  snd (add_task steady ctx_a idle_in_30s) =
    Raises (AttributeError "'int' object has no attribute 'strftime'") /\
  scheduled (sched w') !! ctx_a = Some (T1 + 30000000) /\
  PyDict.get (T1 + 30000000) (schedule (sched w')) = Some [ctx_a].
Proof.
  cbv zeta.
  destruct (add_task_relative_time_raises steady idle_in_30s ctx_a 30)
    as (H1 & H2 & H3 & _);
    [reflexivity | discriminate
     | unfold representable; vm_compute; split; discriminate
     | unfold representable; vm_compute; split; discriminate |].
  split; [exact H1|]. split; [exact H2 | exact H3].
Defined.

Lemma _run_leaves_future_slots_witness :
  let w' := fst (_run early false two_in_a_slot) in
  snd (_run early false two_in_a_slot) = Returns tt /\
  sched w' = sched two_in_a_slot /\
  PyDict.get T1 (schedule (sched w')) = Some [ctx_a; ctx_b].
Proof.
  cbv zeta.
  destruct (_run_leaves_future_slots early two_in_a_slot) as [H1 H2].
  destruct H2 as (H2 & H3 & _).
  { intros t Ht. vm_compute in Ht. destruct Ht as [<- | []]. reflexivity. }
  split; [exact H2|]. split; [exact H3|].
  rewrite H1; [| reflexivity]. vm_compute. reflexivity.
Defined.

Lemma _run_promotes_what_is_due_witness :
  let w' := fst (_run steady false two_in_a_slot) in
  snd (_run steady false two_in_a_slot) = Returns tt /\
  queued w' "renew" = [ctx_a; ctx_b] /\
  PyDict.get T1 (schedule (sched w')) = None /\
  scheduled (sched w') !! ctx_a = None /\
  scheduled (sched w') !! ctx_b = None.
Proof.
  cbv zeta.
  destruct (_run_promotes_what_is_due steady false two_in_a_slot)
    as (H1 & H2 & _ & H4 & _ & H6 & _).
  - vm_compute. constructor; [intros [] | constructor].
  - vm_compute. constructor; [intros [H | []]; discriminate H|].
    constructor; [intros [] | constructor].
  - intros c Hc. vm_compute in Hc.
    destruct Hc as [<- | [<- | []]];
      (split; [vm_compute; discriminate|]);
      exists (mkQueue 0 []); (split; [vm_compute; reflexivity|]);
      vm_compute; discriminate.
  - intros i k _ Hk. vm_compute in Hk. destruct Hk as [<- | []].
    left. vm_compute. reflexivity.
  - split; [exact H1|]. split; [rewrite H6; vm_compute; reflexivity|].
    split; [apply H2; vm_compute; left; reflexivity|].
    split; apply H4; vm_compute; auto.
Defined.

Lemma late_promotion_raises_witness :
  let w' := fst (_run slow false two_in_a_slot) in
  snd (_run slow false two_in_a_slot) = Raises strftime_of_timedelta /\
  queued w' "renew" = [ctx_a] /\
  schedule (sched w') = [] /\
  scheduled (sched w') !! ctx_b = Some T1.
Proof.
  cbv zeta.
  destruct (late_promotion_raises slow false two_in_a_slot T1 ctx_a [ctx_b] []
              (mkQueue 0 []))
    as (H1 & H2 & H3 & H4);
    try (vm_compute; reflexivity).
  - right. vm_compute. discriminate.
  - vm_compute. discriminate.
  - right. vm_compute. discriminate.
  - split; [exact H1|]. split; [exact H2|]. split; [exact H3|].
    rewrite H4. vm_compute. reflexivity.
Defined.

Lemma run_all_raises_on_future_slot_witness :
  let w' := fst (run_all early two_in_a_slot) in
  snd (run_all early two_in_a_slot) = Raises strftime_of_timedelta /\
  queued w' "renew" = [ctx_a] /\
  schedule (sched w') = [] /\
  scheduled (sched w') !! ctx_b = Some T1.
Proof.
  cbv zeta.
  destruct (run_all_raises_on_future_slot early two_in_a_slot T1 ctx_a [ctx_b]
              [] (mkQueue 0 []))
    as (H1 & H2 & H3 & H4);
    try (vm_compute; reflexivity).
  - vm_compute. discriminate.
  - vm_compute. split; [reflexivity | discriminate].
  - split; [exact H1|]. split; [exact H2|]. split; [exact H3|].
    rewrite H4; [vm_compute; reflexivity | left; reflexivity | discriminate].
Defined.

Lemma tick_without_queue_raises_witness :
  snd (add_task clock12 ctx_a (world_init objects)) = Returns tt /\
  snd (_run steady false no_queue) =
    Raises (KeyError "Queue for task {} might not exist.") /\
  schedule (sched (fst (_run steady false no_queue))) = [] /\
  scheduled (sched (fst (_run steady false no_queue))) !! ctx_a = None.
Proof.
  split; [vm_compute; reflexivity|].
  destruct (tick_without_queue_raises steady false no_queue T1 ctx_a [] [])
    as (H1 & _ & H3 & H4);
    try (vm_compute; reflexivity).
  - right. vm_compute. discriminate.
  - vm_compute. discriminate.
  - split; [exact H1|]. split; [exact H3|]. rewrite H4.
    apply lookup_delete_eq.
Defined.

Lemma cancel_task_always_returns_witness :
  snd (cancel_task ctx_a idle) = Returns false /\
  log (fst (cancel_task ctx_a idle)) = [Warning_cant_unschedule ctx_a].
Proof.
  destruct (cancel_task_always_returns idle ctx_a) as (_ & _ & _ & H).
  destruct H as (H1 & _ & H3); [vm_compute; reflexivity|].
  split; [exact H1 | exact H3].
Defined.

End SchedulingProps.


Module CertcontextProps.
Import Certcontext Traces Frames CertcontextFacts.

Lemma same_certificate_refl (c : CertContext) : same_certificate c c.
Proof. unfold same_certificate. auto 10. Qed.

Lemma same_certificate_trans (c1 c2 c3 : CertContext) :
  same_certificate c1 c2 -> same_certificate c2 c3 -> same_certificate c1 c3.
Proof.
  unfold same_certificate.
  intros (A1 & A2 & A3 & A4 & A5 & A6 & A7) (B1 & B2 & B3 & B4 & B5 & B6 & B7).
  repeat split; congruence.
Qed.

Lemma posts_sent_app (l1 l2 : list event) :
  posts_sent (l1 ++ l2) = (posts_sent l1 + posts_sent l2)%nat.
Proof. unfold posts_sent. rewrite List.filter_app, length_app. reflexivity. Qed.

Lemma posts_sent_logs (l : list event) :
  forallb is_log l = true -> posts_sent l = 0%nat.
Proof.
  unfold posts_sent. induction l as [|e l IH]; [reflexivity|]. cbn.
  intros H. apply andb_true_iff in H as [He Hl].
  destruct e; try discriminate. cbn. auto.
Qed.

Lemma posts_to_app (u : string) (l1 l2 : list event) :
  posts_to u (l1 ++ l2) = (posts_to u l1 + posts_to u l2)%nat.
Proof. unfold posts_to. rewrite List.filter_app, length_app. reflexivity. Qed.

Lemma posts_to_logs (u : string) (l : list event) :
  forallb is_log l = true -> posts_to u l = 0%nat.
Proof.
  unfold posts_to. induction l as [|e l IH]; [reflexivity|]. cbn.
  intros H. apply andb_true_iff in H as [He Hl].
  destruct e; try discriminate. cbn. auto.
Qed.

Lemma posts_to_le_posts_sent (u : string) (l : list event) :
  (posts_to u l <= posts_sent l)%nat.
Proof.
  unfold posts_to, posts_sent. induction l as [|e l IH]; [reflexivity|].
  destruct e; cbn; try exact IH.
  destruct (String.eqb u url); cbn; lia.
Qed.

Lemma occurrences_not_in (u : string) (urls : list string) :
  ~ In u urls -> occurrences u urls = 0%nat.
Proof.
  unfold occurrences. induction urls as [|u' l IH]; [reflexivity|].
  intros Hnot. cbn. destruct (String.eqb u u') eqn:E.
  - apply String.eqb_eq in E. exfalso. apply Hnot. left. congruence.
  - apply IH. intros Hin. apply Hnot. right. exact Hin.
Qed.

Lemma occurrences_drop (u url : string) (urls : list string) (i : nat) :
  urls !! i = Some url ->
  occurrences u (drop i urls) =
    ((if String.eqb u url then 1 else 0) + occurrences u (drop (S i) urls))%nat.
Proof.
  intros H. rewrite (drop_S _ _ _ H). unfold occurrences. cbn.
  destruct (String.eqb u url); reflexivity.
Qed.

(** The equations of the monad. *)
Lemma bind_ret {A B} (a : A) (k : A -> M B) (st : state) :
  bind (ret a) k st = k a st.
Proof. unfold bind, ret. destruct (k a st) as [[st' evs] r]. reflexivity. Qed.

Lemma bind_raise {A B} (e : exn) (k : A -> M B) (st : state) :
  bind (raise e) k st = (st, [], Raises e).
Proof. reflexivity. Qed.

Lemma bind_get_self {B} (k : CertContext -> M B) (st : state) :
  bind get_self k st = k (self st) st.
Proof.
  unfold bind, get_self. destruct (k (self st) st) as [[st' evs] r].
  reflexivity.
Qed.

Lemma bind_set_self {B} (c : CertContext) (k : unit -> M B) (st : state) :
  bind (set_self c) k st = k tt {| self := c; fs := fs st; posts := posts st |}.
Proof.
  unfold bind, set_self. destruct (k tt _) as [[st' evs] r]. reflexivity.
Qed.

Lemma bind_emit {B} (e : event) (k : unit -> M B) (st : state) :
  bind (emit e) k st =
    (run_state (k tt st), e :: run_events (k tt st), run_result (k tt st)).
Proof.
  unfold bind, emit. destruct (k tt st) as [[st' evs] r]. reflexivity.
Qed.

Lemma bind_assoc {A B C} (m : M A) (k : A -> M B) (h : B -> M C) (st : state) :
  bind (bind m k) h st = bind m (fun a => bind (k a) h) st.
Proof.
  unfold bind. destruct (m st) as [[st1 ev1] [a|e|]]; try reflexivity.
  destruct (k a st1) as [[st2 ev2] [b|e|]]; try reflexivity.
  destruct (h b st2) as [[st3 ev3] r]. rewrite app_assoc. reflexivity.
Qed.

Section WithEnvironment.
Variable OCSP_REQUEST_RETRY_COUNT : Z.
Variable ocsp_module : option Z.
Variable requests_post : nat -> string -> bytes -> http_outcome.
Variable OCSPResponseParser : bytes -> exn + OCSPResponse.
Variable validate_usage :
  option Certificate -> list Certificate -> list bytes -> bool ->
  validation_error + list Certificate.
Variable build_request : Certificate -> Certificate -> bytes.
Variable urlparse_hostname : string -> exn + option string.
Variable unarmor : bytes -> list pem_item.
Variable Certificate_load : bytes -> option Certificate.

(** [check_ocsp_response] changes the staple and the expiry of the record
    and nothing else; its result tells the status of the parsed answer. *)
Lemma check_ocsp_response_more (staple : bytes) (url : string)
    (st st' : state) (evs : list event) (r : outcome bool) :
  check_ocsp_response OCSPResponseParser staple url st = (st', evs, r) ->
  same_certificate (self st) (self st') /\
  posts st' = posts st /\
  ocsp_request (self st') = ocsp_request (self st) /\
  (r = Returns true ->
   exists parsed,
     OCSPResponseParser staple = inr parsed /\ status parsed = "good" /\
     ocsp_staple (self st') = Some parsed /\
     valid_until (self st') = Some (staple_valid_until parsed)) /\
  (r = Returns false ->
   exists parsed,
     OCSPResponseParser staple = inr parsed /\
     status parsed <> "good" /\ status parsed <> "revoked" /\
     self st' =
       {| filename := filename (self st); hash := hash (self st);
          modtime := modtime (self st); end_entity := end_entity (self st);
          intermediates := intermediates (self st);
          ocsp_staple := Some parsed;
          ocsp_request := ocsp_request (self st);
          ocsp_urls := ocsp_urls (self st); chain := chain (self st);
          valid_until := valid_until (self st) |} /\
     evs = [EvLog DEBUG (Msg_response_data staple);
            EvLog INFO (Msg_cant_get_status url)]).
Proof.
  unfold check_ocsp_response, bind, LOG, emit, raise, ret, get_self, set_self,
    same_certificate.
  destruct staple as [|b0 staple]; cbn.
  - intros [= <- <- <-]. repeat split; discriminate.
  - destruct (OCSPResponseParser (b0 :: staple)) as [e|parsed] eqn:Hp; cbn.
    + intros [= <- <- <-]. repeat split; discriminate.
    + destruct (String.eqb (status parsed) "good") eqn:Hg; cbn.
      * intros [= <- <- <-]. cbn. repeat split; try discriminate.
        intros _. exists parsed. apply String.eqb_eq in Hg. auto.
      * destruct (String.eqb (status parsed) "revoked") eqn:Hr; cbn.
        -- intros [= <- <- <-]. cbn. repeat split; discriminate.
        -- intros [= <- <- <-]. cbn. repeat split; try discriminate.
           intros _. exists parsed.
           apply String.eqb_neq in Hg, Hr. auto 10.
Qed.


Lemma logs_no_sleep (l : list event) (seconds : Z) :
  forallb is_log l = true -> ~ In (EvSleep seconds) l.
Proof.
  intros H Hin. rewrite forallb_forall in H. apply H in Hin. discriminate.
Qed.

(** One pass through the loop body sends exactly one POST, does not
    wait, and keeps the certificate attributes and the files. *)
Lemma attempt_more (url : string) (request : option Response)
    (st st' : state) (evs : list event)
    (r : outcome (Response * bytes * bool)) :
  attempt requests_post OCSPResponseParser url request st = (st', evs, r) ->
  same_certificate (self st) (self st') /\
  posts st' = S (posts st) /\
  posts_sent evs = 1%nat /\
  (forall seconds, ~ In (EvSleep seconds) evs) /\
  fs st' = fs st /\
  (forall rq staple,
     r = Returns (rq, staple, true) ->
     exists parsed,
       OCSPResponseParser staple = inr parsed /\ status parsed = "good" /\
       ocsp_staple (self st') = Some parsed /\
       valid_until (self st') = Some (staple_valid_until parsed)).
Proof.
  intros H.
  pose proof (attempt_spec requests_post OCSPResponseParser _ _ _ _ _ _ H)
    as (_ & _ & Hfs & (body & result & logs & Hevs & Hlogs & _) & _).
  assert (Hcount : posts_sent evs = 1%nat /\
                   forall seconds, ~ In (EvSleep seconds) evs).
  { subst evs. split.
    - change (EvPost url body result :: logs)
        with ([EvPost url body result] ++ logs).
      rewrite posts_sent_app, (posts_sent_logs logs Hlogs). reflexivity.
    - intros seconds [Hin | Hin]; [discriminate|].
      exact (logs_no_sleep logs seconds Hlogs Hin). }
  destruct Hcount as [Hone Hnosleep].
  unfold attempt in H.
  apply bind_inv in H
    as [(st1 & ev1 & request' & ev2 & Hp & Hk & ->)
       | [(e & Hp & ->) | (Hp & ->)]];
    apply post_request_spec in Hp as (Hst & Hnb & _).
  3: congruence.
  2: { subst st'. cbn. split; [apply same_certificate_refl|].
       repeat split; try assumption; try discriminate. }
  destruct request' as [rq|].
  2: { unfold raise in Hk. injection Hk as <- <- <-. subst st1. cbn.
       split; [apply same_certificate_refl|].
       repeat split; try assumption; try discriminate. }
  apply bind_inv in Hk
    as [(st2 & ev3 & good & ev4 & Hc & Hk & ->)
       | [(e & Hc & ->) | (Hc & ->)]];
    apply check_ocsp_response_more in Hc as (Hsame & Hposts & _ & Hgood & _).
  - unfold ret in Hk. injection Hk as <- <- <-.
    subst st1. cbn in *. split; [assumption|].
    split; [congruence|]. split; [assumption|]. split; [assumption|].
    split; [assumption|].
    intros rq' staple [= <- <- ->]. apply Hgood. reflexivity.
  - subst st1. cbn in *. split; [assumption|].
    split; [congruence|]. split; [assumption|]. split; [assumption|].
    split; [assumption | discriminate].
  - subst st1. cbn in *. split; [assumption|].
    split; [congruence|]. split; [assumption|]. split; [assumption|].
    split; [assumption | discriminate].
Qed.

(** The end of the call sends nothing and does not wait; when it returns
    it has put the body it was given in the file. *)
Lemma persist_more (staple : option bytes) (st st' : state)
    (evs : list event) (r : outcome bool) :
  persist validate_usage staple st = (st', evs, r) ->
  self st' = self st /\ posts st' = posts st /\
  posts_sent evs = 0%nat /\
  (forall seconds, ~ In (EvSleep seconds) evs) /\
  (forall v,
     r = Returns v ->
     exists body,
       staple = Some body /\
       fs st' = <[String.append (filename (self st)) ".ocsp" := body]> (fs st)).
Proof.
  intros H.
  pose proof (persist_spec validate_usage _ _ _ _ _ H) as Hspec.
  cbv zeta in Hspec. destruct Hspec as (Hself & Hcases).
  assert (Hposts : posts st' = posts st).
  { unfold persist in H.
    apply bind_inv in H
      as [(st1 & ev1 & u & ev2 & Hlog & Hk & ->)
         | [(e & Hlog & ->) | (Hlog & ->)]];
      unfold LOG, emit in Hlog; try discriminate.
    injection Hlog as <- <- _.
    apply bind_inv in Hk
      as [(st2 & ev3 & validated & ev4 & Hv & Hk & ->)
         | [(e & Hv & ->) | (Hv & ->)]];
      apply _validate_cert_spec in Hv as (-> & _); try reflexivity.
    unfold bind, get_self, LOG, emit, open_wb, write, close, ret, raise in Hk.
    destruct staple as [body|]; cbn in Hk; injection Hk as <- _ _;
      reflexivity. }
  split; [assumption|]. split; [assumption|].
  destruct Hcases
    as [(body & validated & -> & Hev & -> & Hfs)
       | [(msg & ocsps & fetch & err & e & -> & -> & Hfs & Hv)
         | (msg & ocsps & fetch & validated & text & -> & -> & -> & Hfs)]].
  - assert (Hshape : exists msg ocsps fetch path,
              evs = [EvLog INFO Msg_validating_staple; EvLog INFO msg;
                     EvValidate ocsps fetch (inr path);
                     EvLog INFO Msg_chain_validated;
                     EvLog INFO (Msg_writing_to_file
                                   (String.append (filename (self st)) ".ocsp"));
                     EvOpen (String.append (filename (self st)) ".ocsp");
                     EvWrite (String.append (filename (self st)) ".ocsp") body;
                     EvClose (String.append (filename (self st)) ".ocsp")]).
    { unfold persist in H.
      apply bind_inv in H
        as [(st1 & ev1 & u & ev2 & Hlog & Hk & ->)
           | [(e & Hlog & _) | (Hlog & _)]];
        unfold LOG, emit in Hlog; try discriminate.
      injection Hlog as <- <- _.
      apply bind_inv in Hk
        as [(st2 & ev3 & validated' & ev4 & Hv & Hk & ->)
           | [(e & Hv & [=]) | (Hv & [=])]].
      apply _validate_cert_spec in Hv
        as (-> & msg & ocsps & fetch & result & _ & Hres).
      destruct result as [err|path']; destruct Hres as [-> Hres];
        [destruct Hres as (e & [=] & _) |].
      injection Hres as <-.
      unfold bind, get_self, LOG, emit, open_wb, write, close, ret in Hk.
      cbn in Hk. injection Hk as _ <-.
      exists msg, ocsps, fetch, validated'. reflexivity. }
    destruct Hshape as (msg & ocsps & fetch & path & ->).
    split; [reflexivity|]. split.
    + intros seconds Hin. cbn in Hin.
      repeat destruct Hin as [Hin | Hin]; try discriminate. contradiction.
    + intros v _. exists body. auto.
  - split; [reflexivity|]. split.
    + intros seconds Hin. cbn in Hin.
      repeat destruct Hin as [Hin | Hin]; try discriminate. contradiction.
    + intros v [=].
  - split; [reflexivity|]. split.
    + intros seconds Hin. cbn in Hin.
      repeat destruct Hin as [Hin | Hin]; try discriminate. contradiction.
    + intros v [=].
Qed.


(** The retry loop, accounted for. *)
Lemma retry_loop_more (retries : nat) (next : M bool) (url : string)
    (url_index : nat) :
  (forall st1 st' evs r,
     next st1 = (st', evs, r) ->
     accounted retries ocsp_module OCSPResponseParser (S url_index) st1
       (st', evs, r)) ->
  forall (retry : nat) (request : option Response) (st st' : state)
    (evs : list event) (r : outcome loop_exit),
    (retry <= retries)%nat ->
    retry_loop ocsp_module requests_post OCSPResponseParser next url
      url_index retry request st = (st', evs, r) ->
    same_certificate (self st) (self st') /\
    posts st' = (posts st + posts_sent evs)%nat /\
    (posts_sent evs <=
     retry + retries * (length (ocsp_urls (self st)) - S url_index))%nat /\
    (ocsp_module = None ->
     (posts_sent evs <= 1 + (length (ocsp_urls (self st)) - S url_index))%nat /\
     forall seconds, ~ In (EvSleep seconds) evs) /\
    (forall count seconds,
       ocsp_module = Some count -> In (EvSleep seconds) evs ->
       backoff count retries seconds) /\
    match r with
    | Returns (Break staple) =>
        fs st' = fs st /\
        exists parsed,
          OCSPResponseParser staple = inr parsed /\ status parsed = "good" /\
          ocsp_staple (self st') = Some parsed /\
          valid_until (self st') = Some (staple_valid_until parsed)
    | Returns (Return v) =>
        staple_in_place OCSPResponseParser
          (String.append (filename (self st)) ".ocsp") st'
    | _ => True
    end.
Proof.
  intros Hnext retry.
  induction retry as [|retry' IH]; intros request st st' evs r Hle.
  - cbn [retry_loop]. unfold ret. intros [= <- <- <-].
    change (posts_sent []) with 0%nat.
    split; [apply same_certificate_refl|]. split; [nia|]. split; [nia|].
    split; [intros _; split; [nia | intros s []]|].
    split; [intros count s _ [] | exact I].
  - cbn [retry_loop]. intros H.
    apply bind_inv in H
      as [(st1 & ev1 & [[rq staple] good] & ev2 & Ha & Hk & ->)
         | [(e & Ha & ->) | (Ha & ->)]];
      apply attempt_more in Ha as (Hsame & Hposts & Hone & Hnosleep & Hfs & Hgood).
    2,3: split; [assumption|]; split; [nia|]; split; [nia|];
      (split; [intros _; split; [nia | assumption]|]);
      (split; [intros count s _ Hin; exfalso; exact (Hnosleep s Hin) | exact I]).
    pose proof Hsame as (Hf & _ & _ & _ & _ & Hu & _).
    destruct good.
    { unfold ret in Hk. injection Hk as <- <- <-. rewrite app_nil_r.
      split; [assumption|]. split; [nia|]. split; [nia|].
      split; [intros _; split; [nia | assumption]|].
      split; [intros count s _ Hin; exfalso; exact (Hnosleep s Hin)|].
      split; [assumption|]. apply (Hgood rq staple). reflexivity. }
    clear Hgood.
    destruct retry' as [|retry''].
    + apply bind_inv in Hk
        as [(st1' & ev1' & c & ev2' & Hg & Hk & ->)
           | [(e & Hg & ->) | (Hg & ->)]];
        unfold get_self in Hg; try discriminate.
      injection Hg as <- <- <-. cbn [app].
      destruct (url_index + 1 <? length (ocsp_urls (self st1)))%nat eqn:Hlt.
      * apply Nat.ltb_lt in Hlt.
        assert (Hacc : forall st2 ev3 r2,
                  next st1 = (st2, ev3, r2) ->
                  same_certificate (self st) (self st2) /\
                  posts st2 = (posts st + posts_sent (ev1 ++ ev3))%nat /\
                  (posts_sent (ev1 ++ ev3) <=
                   1 + retries * (length (ocsp_urls (self st)) - S url_index))%nat /\
                  (ocsp_module = None ->
                   (posts_sent (ev1 ++ ev3) <=
                    1 + (length (ocsp_urls (self st)) - S url_index))%nat /\
                   forall seconds, ~ In (EvSleep seconds) (ev1 ++ ev3)) /\
                  (forall count seconds,
                     ocsp_module = Some count ->
                     In (EvSleep seconds) (ev1 ++ ev3) ->
                     backoff count retries seconds) /\
                  (forall v, r2 = Returns v ->
                     staple_in_place OCSPResponseParser
                       (String.append (filename (self st)) ".ocsp") st2)).
        { intros st2 ev3 r2 Hn. apply Hnext in Hn.
          destruct Hn as (N1 & N2 & N3 & N4 & N5 & N6).
          unfold run_state, run_events, run_result in *. cbn [fst snd] in *.
          rewrite Hu, Hf in *. rewrite posts_sent_app, Hone.
          split; [eapply same_certificate_trans; eassumption|].
          split; [nia|]. split; [nia|].
          split; [| split; [| assumption]].
          - intros Hnone. destruct (N4 Hnone) as [N4a N4b].
            split; [nia|]. intros s Hin. apply in_app_or in Hin as [Hin | Hin].
            + exact (Hnosleep s Hin).
            + exact (N4b s Hin).
          - intros count s Hc Hin. apply in_app_or in Hin as [Hin | Hin].
            + exfalso. exact (Hnosleep s Hin).
            + exact (N5 count s Hc Hin). }
        apply bind_inv in Hk
          as [(st2 & ev3 & v & ev4 & Hn & Hk & ->)
             | [(e & Hn & ->) | (Hn & ->)]];
          apply Hacc in Hn as (A1 & A2 & A3 & A4 & A5 & A6).
        -- unfold ret in Hk. injection Hk as <- <- <-. rewrite app_nil_r.
           split; [assumption|]. split; [assumption|]. split; [assumption|].
           split; [assumption|]. split; [assumption|].
           apply (A6 v). reflexivity.
        -- split; [assumption|]. split; [assumption|]. split; [assumption|].
           split; [assumption|]. split; [assumption | exact I].
        -- split; [assumption|]. split; [assumption|]. split; [assumption|].
           split; [assumption|]. split; [assumption | exact I].
      * unfold raise in Hk. injection Hk as <- <- <-. rewrite app_nil_r.
        split; [assumption|]. split; [nia|]. split; [nia|].
        split; [intros _; split; [nia | assumption]|].
        split; [intros count s _ Hin; exfalso; exact (Hnosleep s Hin)
               | exact I].
    + destruct ocsp_module as [count|] eqn:Hom.
      2: { unfold raise in Hk. injection Hk as <- <- <-. rewrite app_nil_r.
           split; [assumption|]. split; [nia|]. split; [nia|].
           split; [intros _; split; [nia | assumption]|].
           split; [intros c s [=] | exact I]. }
      set (sl := (count - Z.of_nat (S retry'')) * 5) in *.
      assert (Hback : backoff count retries sl).
      { exists (S retry''). split; [nia | reflexivity]. }
      apply bind_inv in Hk
        as [(st2 & ev3 & u & ev4 & Hlog & Hk & ->)
           | [(e & Hlog & ->) | (Hlog & ->)]];
        unfold LOG, emit in Hlog; try discriminate.
      injection Hlog as <- <- _.
      apply bind_inv in Hk
        as [(st3 & ev5 & u' & ev6 & Hs & Hk & ->)
           | [(e & Hs & ->) | (Hs & ->)]];
        unfold sleep, raise, emit in Hs; destruct (sl <? 0); try discriminate.
      * injection Hs as <- <- _.
        apply IH in Hk; [| lia].
        destruct Hk as (B1 & B2 & B3 & _ & B5 & B6).
        rewrite Hu in B3. rewrite !posts_sent_app, Hone. cbn [posts_sent
          List.filter is_post length] in *.
        split; [eapply same_certificate_trans; eassumption|].
        split; [nia|]. split; [nia|]. split; [discriminate|].
        split.
        -- intros c s [= <-] Hin.
           apply in_app_or in Hin as [Hin | Hin];
             [exfalso; exact (Hnosleep s Hin)|].
           cbn in Hin. destruct Hin as [[=] | [[= <-] | Hin]];
             [exact Hback | exact (B5 count s eq_refl Hin)].
        -- destruct r as [[staple2|v|]|e|]; try exact I.
           ++ destruct B6 as [B6 B7]. split; [congruence | assumption].
           ++ rewrite Hf in B6. exact B6.
      * injection Hs as <- <- <-. rewrite !app_nil_r.
        rewrite posts_sent_app, Hone. cbn.
        split; [assumption|]. split; [nia|]. split; [nia|].
        split; [discriminate|]. split; [| exact I].
        intros c s _ Hin. apply in_app_or in Hin as [Hin | Hin];
          [exfalso; exact (Hnosleep s Hin)|].
        cbn in Hin. destruct Hin as [[=] | []].
Qed.


Lemma accounted_failed (retries url_index : nat) (st : state) (e : exn) :
  accounted retries ocsp_module OCSPResponseParser url_index st
    (st, [], Raises e).
Proof.
  unfold accounted, run_state, run_events, run_result. cbn [fst snd].
  change (posts_sent []) with 0%nat.
  split; [apply same_certificate_refl|]. split; [lia|]. split; [nia|].
  split; [intros _; split; [lia | intros s []]|].
  split; [intros count s _ [] | intros v [=]].
Qed.

(** The body of [renew_ocsp_staple] is accounted for if the recursive
    call is. *)
Lemma renew_ocsp_staple_body_more (next : M bool) (url_index : nat) :
  (forall st1 st' evs r,
     next st1 = (st', evs, r) ->
     accounted (Z.to_nat OCSP_REQUEST_RETRY_COUNT) ocsp_module
       OCSPResponseParser (S url_index) st1 (st', evs, r)) ->
  forall (st st' : state) (evs : list event) (r : outcome bool),
    renew_ocsp_staple_body OCSP_REQUEST_RETRY_COUNT ocsp_module requests_post
      OCSPResponseParser validate_usage build_request urlparse_hostname next
      url_index st
    = (st', evs, r) ->
    accounted (Z.to_nat OCSP_REQUEST_RETRY_COUNT) ocsp_module
      OCSPResponseParser url_index st (st', evs, r).
Proof.
  intros Hnext st st' evs r. unfold renew_ocsp_staple_body.
  unfold bind at 1, get_self at 1.
  destruct (end_entity (self st)) as [certificate|] eqn:Hee;
    [| unfold raise; intros [= <- <- <-]; apply accounted_failed].
  destruct (length (chain (self st)) <? 1)%nat;
    [unfold raise; intros [= <- <- <-]; apply accounted_failed |].
  destruct (ocsp_urls (self st) !! url_index) as [url|] eqn:Hurl;
    [| unfold raise; intros [= <- <- <-]; apply accounted_failed].
  destruct (urlparse_hostname url) as [e0|host];
    [unfold raise; intros [= <- <- <-]; apply accounted_failed |].
  destruct (second_to_last (chain (self st))) as [issuer|];
    [| unfold raise; intros [= <- <- <-]; apply accounted_failed].
  apply lookup_lt_Some in Hurl.
  unfold bind at 1, set_self at 1.
  unfold bind at 1, LOG at 1, emit at 1.
  unfold bind at 1, LOG at 1, emit at 1.
  set (st0 := {| self := _; fs := fs st; posts := posts st |}).
  set (k := fun exit : loop_exit => _).
  destruct (bind _ k st0) as [[st2 ev2] r2] eqn:Hk.
  cbn [app]. intros [= <- <- <-].
  assert (Hpre : forall ev,
            posts_sent
              (EvLog DEBUG (Msg_request_data (build_request certificate issuer))
               :: EvLog INFO (Msg_trying_url url) :: ev) = posts_sent ev)
    by reflexivity.
  assert (Hsl : forall ev seconds,
            In (EvSleep seconds)
              (EvLog DEBUG (Msg_request_data (build_request certificate issuer))
               :: EvLog INFO (Msg_trying_url url) :: ev) ->
            In (EvSleep seconds) ev).
  { intros ev s [[=] | [[=] | Hin]]. exact Hin. }
  assert (Hsame0 : same_certificate (self st) (self st0))
    by (unfold same_certificate; repeat split; symmetry; exact Hee).
  assert (Hlen : (length (ocsp_urls (self st)) - url_index
                  = S (length (ocsp_urls (self st)) - S url_index))%nat)
    by lia.
  unfold accounted, run_state, run_events, run_result. cbn [fst snd].
  rewrite Hlen, Nat.mul_succ_r.
  apply bind_inv in Hk
    as [(st3 & ev3 & exit & ev4 & Hl & Hk & ->)
       | [(e & Hl & ->) | (Hl & ->)]];
    apply (retry_loop_more (Z.to_nat OCSP_REQUEST_RETRY_COUNT) next url
             url_index Hnext) in Hl; try lia;
    destruct Hl as (L1 & L2 & L3 & L4 & L5 & L6);
    change (ocsp_urls (self st0)) with (ocsp_urls (self st)) in *;
    change (filename (self st0)) with (filename (self st)) in *;
    change (posts st0) with (posts st) in *;
    change (fs st0) with (fs st) in *;
    apply (same_certificate_trans _ _ _ Hsame0) in L1.
  2,3: rewrite Hpre; split; [assumption|]; split; [assumption|];
    split; [lia|];
    (split;
     [intros Hn; destruct (L4 Hn) as [L4a L4b]; split;
      [lia | intros s Hin; apply Hsl in Hin; exact (L4b s Hin)]|]);
    (split;
     [intros c s Hc Hin; apply Hsl in Hin; exact (L5 c s Hc Hin)
     | intros v; discriminate]).
  subst k. cbn beta in Hk.
  destruct exit as [staple|v|].
  - apply persist_more in Hk as (P1 & P2 & P3 & P4 & P5).
    destruct L6 as (Hfs & parsed & Hp & Hgood & Hst & Hvu).
    pose proof L1 as (Hf & _).
    rewrite Hpre, posts_sent_app, P3, P1.
    split; [assumption|]. split; [lia|]. split; [lia|].
    split; [| split].
    + intros Hn. destruct (L4 Hn) as [L4a L4b]. split; [lia|].
      intros s Hin. apply Hsl, in_app_or in Hin as [Hin | Hin];
        [exact (L4b s Hin) | exact (P4 s Hin)].
    + intros c s Hc Hin. apply Hsl, in_app_or in Hin as [Hin | Hin];
        [exact (L5 c s Hc Hin) | exfalso; exact (P4 s Hin)].
    + intros v Hv. destruct (P5 v Hv) as (body & [= <-] & Hfs').
      exists parsed, staple. rewrite P1. repeat split; try assumption.
      rewrite Hfs', Hf. apply lookup_insert_eq.
  - unfold ret in Hk. injection Hk as <- <- <-. rewrite app_nil_r, Hpre.
    split; [assumption|]. split; [assumption|]. split; [lia|].
    split; [| split].
    + intros Hn. destruct (L4 Hn) as [L4a L4b]. split; [lia|].
      intros s Hin. apply Hsl in Hin. exact (L4b s Hin).
    + intros c s Hc Hin. apply Hsl in Hin. exact (L5 c s Hc Hin).
    + intros v' [= <-]. exact L6.
  - apply persist_more in Hk as (P1 & P2 & P3 & P4 & P5).
    rewrite Hpre, posts_sent_app, P3, P1.
    split; [assumption|]. split; [lia|]. split; [lia|].
    split; [| split].
    + intros Hn. destruct (L4 Hn) as [L4a L4b]. split; [lia|].
      intros s Hin. apply Hsl, in_app_or in Hin as [Hin | Hin];
        [exact (L4b s Hin) | exact (P4 s Hin)].
    + intros c s Hc Hin. apply Hsl, in_app_or in Hin as [Hin | Hin];
        [exact (L5 c s Hc Hin) | exfalso; exact (P4 s Hin)].
    + intros v Hv. destruct (P5 v Hv) as (body & [=] & _).
Qed.

Lemma renew_ocsp_staple_rec_more (depth url_index : nat) (st st' : state)
    (evs : list event) (r : outcome bool) :
  renew_ocsp_staple_rec OCSP_REQUEST_RETRY_COUNT ocsp_module requests_post
    OCSPResponseParser validate_usage build_request urlparse_hostname depth
    url_index st
  = (st', evs, r) ->
  accounted (Z.to_nat OCSP_REQUEST_RETRY_COUNT) ocsp_module OCSPResponseParser
    url_index st (st', evs, r).
Proof.
  revert url_index st st' evs r.
  induction depth as [|depth IH]; intros url_index st st' evs r;
    cbn [renew_ocsp_staple_rec]; apply renew_ocsp_staple_body_more.
  - intros st1 st2 ev2 r2. unfold raise. intros [= <- <- <-].
    apply accounted_failed.
  - intros st1 st2 ev2 r2. apply IH.
Qed.

(** Every call of [renew_ocsp_staple] is accounted for. *)
Lemma renew_ocsp_staple_more (url_index : nat) (st st' : state)
    (evs : list event) (r : outcome bool) :
  renew_ocsp_staple OCSP_REQUEST_RETRY_COUNT ocsp_module requests_post
    OCSPResponseParser validate_usage build_request urlparse_hostname
    url_index st
  = (st', evs, r) ->
  accounted (Z.to_nat OCSP_REQUEST_RETRY_COUNT) ocsp_module OCSPResponseParser
    url_index st (st', evs, r).
Proof. unfold renew_ocsp_staple. apply renew_ocsp_staple_rec_more. Qed.


(** *** The POSTs of a call, URL by URL *)

(** One pass through the loop body sends its POST to the URL of the
    loop. *)
Lemma attempt_posts_to (url : string) (request : option Response)
    (st st' : state) (evs : list event)
    (r : outcome (Response * bytes * bool)) :
  attempt requests_post OCSPResponseParser url request st = (st', evs, r) ->
  ocsp_urls (self st') = ocsp_urls (self st) /\
  forall u, posts_to u evs = if String.eqb u url then 1%nat else 0%nat.
Proof.
  intros H.
  pose proof (attempt_spec requests_post OCSPResponseParser _ _ _ _ _ _ H)
    as (_ & Hu & _ & (body & result & logs & -> & Hlogs & _) & _).
  split; [exact Hu|]. intros u.
  change (EvPost url body result :: logs)
    with ([EvPost url body result] ++ logs).
  rewrite posts_to_app, (posts_to_logs u logs Hlogs).
  unfold posts_to. cbn. destruct (String.eqb u url); reflexivity.
Qed.

(** The POSTs of the retry loop go to its URL, one for each try; the
    others are those of the call for the next URL. *)
Lemma retry_loop_posts_to (next : M bool) (url : string) (url_index : nat)
    (urls : list string) (bound : string -> nat) :
  (forall st1 st' evs r,
     next st1 = (st', evs, r) -> ocsp_urls (self st1) = urls ->
     forall u, (posts_to u evs <= bound u)%nat) ->
  forall (retry : nat) (request : option Response) (st st' : state)
    (evs : list event) (r : outcome loop_exit),
    retry_loop ocsp_module requests_post OCSPResponseParser next url
      url_index retry request st = (st', evs, r) ->
    ocsp_urls (self st) = urls ->
    forall u,
      (posts_to u evs <=
       (if String.eqb u url then tries ocsp_module retry else 0) + bound u)%nat.
Proof.
  intros Hnext retry.
  induction retry as [|retry' IH]; intros request st st' evs r.
  - cbn [retry_loop]. unfold ret. intros [= <- <- <-] _ u.
    change (posts_to u []) with 0%nat. lia.
  - cbn [retry_loop]. intros H Hurls u.
    assert (Hone : (1 <= tries ocsp_module (S retry'))%nat).
    { unfold tries. destruct ocsp_module; cbn; lia. }
    apply bind_inv in H
      as [(st1 & ev1 & [[rq staple] good] & ev2 & Ha & Hk & ->)
         | [(e & Ha & ->) | (Ha & ->)]];
      apply attempt_posts_to in Ha as (Hu1 & Hp).
    2,3: rewrite Hp; destruct (String.eqb u url); lia.
    rewrite posts_to_app, Hp.
    destruct good.
    { unfold ret in Hk. injection Hk as _ <- _.
      change (posts_to u []) with 0%nat.
      destruct (String.eqb u url); lia. }
    destruct retry' as [|retry''].
    + apply bind_inv in Hk
        as [(st1' & ev1' & c & ev2' & Hg & Hk & ->)
           | [(e & Hg & ->) | (Hg & ->)]];
        unfold get_self in Hg; try discriminate.
      injection Hg as <- <- <-. cbn [app].
      destruct (url_index + 1 <? length (ocsp_urls (self st1)))%nat.
      * assert (Hev : (posts_to u ev2' <= bound u)%nat).
        { apply bind_inv in Hk
            as [(st2 & ev3 & v & ev4 & Hn & Hk & ->)
               | [(e & Hn & ->) | (Hn & ->)]].
          - unfold ret in Hk. injection Hk as _ <- _. rewrite app_nil_r.
            apply (Hnext _ _ _ _ Hn). congruence.
          - apply (Hnext _ _ _ _ Hn). congruence.
          - apply (Hnext _ _ _ _ Hn). congruence. }
        destruct (String.eqb u url); lia.
      * unfold raise in Hk. injection Hk as _ <- _.
        change (posts_to u []) with 0%nat.
        destruct (String.eqb u url); lia.
    + destruct ocsp_module as [count|] eqn:Hom.
      2: { unfold raise in Hk. injection Hk as _ <- _.
           change (posts_to u []) with 0%nat.
           destruct (String.eqb u url); cbn; lia. }
      apply bind_inv in Hk
        as [(st2 & ev3 & u0 & ev4 & Hlog & Hk & ->)
           | [(e & Hlog & ->) | (Hlog & ->)]];
        unfold LOG, emit in Hlog; try discriminate.
      injection Hlog as <- <- _.
      apply bind_inv in Hk
        as [(st3 & ev5 & u' & ev6 & Hs & Hk & ->)
           | [(e & Hs & ->) | (Hs & ->)]];
        unfold sleep, raise, emit in Hs;
        destruct (_ <? 0); try discriminate.
      * injection Hs as <- <- _.
        apply IH with (u := u) in Hk; [| congruence].
        rewrite !posts_to_app.
        change (posts_to u [EvLog INFO (Msg_retrying_in
                  ((count - Z.of_nat (S retry'')) * 5))]) with 0%nat.
        change (posts_to u [EvSleep ((count - Z.of_nat (S retry'')) * 5)])
          with 0%nat.
        cbn [tries] in Hk |- *.
        destruct (String.eqb u url); lia.
      * injection Hs as <- <- _.
        rewrite !posts_to_app.
        change (posts_to u [EvLog INFO (Msg_retrying_in
                  ((count - Z.of_nat (S retry'')) * 5))]) with 0%nat.
        change (posts_to u []) with 0%nat.
        cbn [tries]. destruct (String.eqb u url); lia.
Qed.

(** The body of [renew_ocsp_staple] keeps to the tries of each URL if
    the recursive call does. *)
Lemma renew_ocsp_staple_body_posts_to (next : M bool) (url_index : nat) :
  (forall st1 st' evs r,
     next st1 = (st', evs, r) ->
     forall u,
       (posts_to u evs <=
        tries ocsp_module (Z.to_nat OCSP_REQUEST_RETRY_COUNT)
        * occurrences u (drop (S url_index) (ocsp_urls (self st1))))%nat) ->
  forall (st st' : state) (evs : list event) (r : outcome bool),
    renew_ocsp_staple_body OCSP_REQUEST_RETRY_COUNT ocsp_module requests_post
      OCSPResponseParser validate_usage build_request urlparse_hostname next
      url_index st
    = (st', evs, r) ->
    forall u,
      (posts_to u evs <=
       tries ocsp_module (Z.to_nat OCSP_REQUEST_RETRY_COUNT)
       * occurrences u (drop url_index (ocsp_urls (self st))))%nat.
Proof.
  intros Hnext st st' evs r. unfold renew_ocsp_staple_body.
  unfold bind at 1, get_self at 1.
  assert (Hnone : forall u,
            (posts_to u [] <=
             tries ocsp_module (Z.to_nat OCSP_REQUEST_RETRY_COUNT)
             * occurrences u (drop url_index (ocsp_urls (self st))))%nat).
  { intros u. change (posts_to u []) with 0%nat. lia. }
  destruct (end_entity (self st)) as [certificate|];
    [| unfold raise; intros [= <- <- <-]; exact Hnone].
  destruct (length (chain (self st)) <? 1)%nat;
    [unfold raise; intros [= <- <- <-]; exact Hnone |].
  destruct (ocsp_urls (self st) !! url_index) as [url|] eqn:Hurl;
    [| unfold raise; intros [= <- <- <-]; exact Hnone].
  destruct (urlparse_hostname url) as [e0|host];
    [unfold raise; intros [= <- <- <-]; exact Hnone |].
  destruct (second_to_last (chain (self st))) as [issuer|];
    [| unfold raise; intros [= <- <- <-]; exact Hnone].
  clear Hnone.
  unfold bind at 1, set_self at 1.
  unfold bind at 1, LOG at 1, emit at 1.
  unfold bind at 1, LOG at 1, emit at 1.
  set (st0 := {| self := _; fs := fs st; posts := posts st |}).
  set (k := fun exit : loop_exit => _).
  destruct (bind _ k st0) as [[st2 ev2] r2] eqn:Hk.
  cbn [app]. intros [= <- <- <-] u.
  change (posts_to u
            (EvLog DEBUG (Msg_request_data (build_request certificate issuer))
             :: EvLog INFO (Msg_trying_url url) :: ev2))
    with (posts_to u ev2).
  rewrite (occurrences_drop u url _ _ Hurl).
  set (T := tries ocsp_module (Z.to_nat OCSP_REQUEST_RETRY_COUNT)) in *.
  set (rest := occurrences u (drop (S url_index) (ocsp_urls (self st)))).
  assert (Hloop : forall st3 ev3 exit,
            retry_loop ocsp_module requests_post OCSPResponseParser next url
              url_index (Z.to_nat OCSP_REQUEST_RETRY_COUNT) None st0
            = (st3, ev3, exit) ->
            (posts_to u ev3 <=
             (if String.eqb u url then T else 0) + T * rest)%nat).
  { intros st3 ev3 exit Hl.
    apply (retry_loop_posts_to next url url_index (ocsp_urls (self st))
             (fun u => (T * occurrences u
                              (drop (S url_index) (ocsp_urls (self st))))%nat))
      with (u := u) in Hl; [exact Hl | | reflexivity].
    intros st1 st1' evs1 r1 Hn Hu1 u1. rewrite <- Hu1.
    exact (Hnext _ _ _ _ Hn u1). }
  assert (Hfin : forall ev3,
            (posts_to u ev3 <= (if String.eqb u url then T else 0) + T * rest)%nat ->
            (posts_to u ev3 <=
             T * ((if String.eqb u url then 1 else 0) + rest))%nat).
  { intros ev3 Hle. destruct (String.eqb u url); lia. }
  apply bind_inv in Hk
    as [(st3 & ev3 & exit & ev4 & Hl & Hk & ->)
       | [(e & Hl & ->) | (Hl & ->)]];
    apply Hloop in Hl.
  2,3: apply Hfin; exact Hl.
  subst k. cbn beta in Hk.
  assert (Hend : posts_to u ev4 = 0%nat).
  { destruct exit as [staple|v|].
    - apply persist_more in Hk as (_ & _ & P3 & _).
      pose proof (posts_to_le_posts_sent u ev4). lia.
    - unfold ret in Hk. injection Hk as _ <- _. reflexivity.
    - apply persist_more in Hk as (_ & _ & P3 & _).
      pose proof (posts_to_le_posts_sent u ev4). lia. }
  rewrite posts_to_app, Hend, Nat.add_0_r. apply Hfin. exact Hl.
Qed.

Lemma renew_ocsp_staple_rec_posts_to (depth url_index : nat) (st st' : state)
    (evs : list event) (r : outcome bool) :
  renew_ocsp_staple_rec OCSP_REQUEST_RETRY_COUNT ocsp_module requests_post
    OCSPResponseParser validate_usage build_request urlparse_hostname depth
    url_index st
  = (st', evs, r) ->
  forall u,
    (posts_to u evs <=
     tries ocsp_module (Z.to_nat OCSP_REQUEST_RETRY_COUNT)
     * occurrences u (drop url_index (ocsp_urls (self st))))%nat.
Proof.
  revert url_index st st' evs r.
  induction depth as [|depth IH]; intros url_index st st' evs r;
    cbn [renew_ocsp_staple_rec]; apply renew_ocsp_staple_body_posts_to.
  - intros st1 st2 ev2 r2. unfold raise. intros [= <- <- <-] u.
    change (posts_to u []) with 0%nat. lia.
  - intros st1 st2 ev2 r2. apply IH.
Qed.

(** Every call keeps to the tries of each URL. *)
Lemma renew_ocsp_staple_posts_to (url_index : nat) (st st' : state)
    (evs : list event) (r : outcome bool) :
  renew_ocsp_staple OCSP_REQUEST_RETRY_COUNT ocsp_module requests_post
    OCSPResponseParser validate_usage build_request urlparse_hostname
    url_index st
  = (st', evs, r) ->
  forall u,
    (posts_to u evs <=
     tries ocsp_module (Z.to_nat OCSP_REQUEST_RETRY_COUNT)
     * occurrences u (drop url_index (ocsp_urls (self st))))%nat.
Proof. unfold renew_ocsp_staple. apply renew_ocsp_staple_rec_posts_to. Qed.


(** *** What every call keeps to *)

(** X13: a call sends each URL at most [OCSP_REQUEST_RETRY_COUNT] POSTs
    for each time the URL stands in the list from [url_index] on; a URL
    that does not stand there gets none. *)
Theorem posts_are_bounded (url_index : nat) (st st' : state)
    (evs : list event) (r : outcome bool) (url : string) :
  renew_ocsp_staple OCSP_REQUEST_RETRY_COUNT ocsp_module requests_post
    OCSPResponseParser validate_usage build_request urlparse_hostname
    url_index st
  = (st', evs, r) ->
  (posts_to url evs <=
   Z.to_nat OCSP_REQUEST_RETRY_COUNT
   * occurrences url (drop url_index (ocsp_urls (self st))))%nat /\
  (~ In url (drop url_index (ocsp_urls (self st))) ->
   posts_to url evs = 0%nat).
Proof.
  intros H. pose proof (renew_ocsp_staple_posts_to _ _ _ _ _ H url) as Hle.
  assert (Ht : (tries ocsp_module (Z.to_nat OCSP_REQUEST_RETRY_COUNT)
                <= Z.to_nat OCSP_REQUEST_RETRY_COUNT)%nat).
  { unfold tries. destruct ocsp_module; lia. }
  split; [nia|].
  intros Hnot.
  rewrite (occurrences_not_in _ _ Hnot) in Hle. lia.
Qed.

(** X14: a call that returns leaves the record and the file in step: the
    record holds a parsed staple whose status is good, [valid_until] is
    the expiry of that staple, and [<filename>.ocsp] holds the bytes the
    staple was parsed from. *)
Theorem returned_call_leaves_staple_in_place (url_index : nat)
    (st st' : state) (evs : list event) (v : bool) :
  renew_ocsp_staple OCSP_REQUEST_RETRY_COUNT ocsp_module requests_post
    OCSPResponseParser validate_usage build_request urlparse_hostname
    url_index st
  = (st', evs, Returns v) ->
  exists parsed body,
    ocsp_staple (self st') = Some parsed /\
    status parsed = "good" /\
    valid_until (self st') = Some (staple_valid_until parsed) /\
    OCSPResponseParser body = inr parsed /\
    fs st' !! String.append (filename (self st')) ".ocsp" = Some body.
Proof.
  intros H. apply renew_ocsp_staple_more in H as ((Hf & _) & _ & _ & _ & _ & H6).
  cbn [run_state fst] in Hf. rewrite Hf. exact (H6 v eq_refl).
Qed.

(** X15: a call never changes what the record took from the certificate
    file, whatever its outcome, and never touches a file other than
    [<filename>.ocsp]. *)
Theorem renewal_keeps_certificate_and_other_files (url_index : nat)
    (st st' : state) (evs : list event) (r : outcome bool) :
  renew_ocsp_staple OCSP_REQUEST_RETRY_COUNT ocsp_module requests_post
    OCSPResponseParser validate_usage build_request urlparse_hostname
    url_index st
  = (st', evs, r) ->
  same_certificate (self st) (self st') /\
  forall path,
    path <> String.append (filename (self st)) ".ocsp" ->
    fs st' !! path = fs st !! path.
Proof.
  intros H. split.
  - apply renew_ocsp_staple_more in H as (H1 & _). exact H1.
  - intros path Hne.
    apply renew_ocsp_staple_spec in H as (_ & Hshape & _).
    unfold run_state, run_events, run_result in Hshape. cbn in Hshape.
    apply renew_shape_cases in Hshape
      as [(pre1 & url1 & request1 & rsp1 & parsed & validated & _ & _ & -> & _)
         | [(e1 & _ & -> & _)
           | [(pre1 & m & o & f & err1 & e1 & _ & _ & -> & _)
             | (pre1 & m & o & f & validated & text & _ & _ & -> & _)]]];
      try reflexivity; apply lookup_insert_ne; congruence.
Qed.

(** *** The recursion, unfolded *)

(** The model of the recursive method satisfies the equation of the
    source: the call in the body is the method itself at the next
    index. *)
Lemma renew_ocsp_staple_unfold (url_index : nat) (st : state) :
  renew_ocsp_staple OCSP_REQUEST_RETRY_COUNT ocsp_module requests_post
    OCSPResponseParser validate_usage build_request urlparse_hostname
    url_index st =
  renew_ocsp_staple_body OCSP_REQUEST_RETRY_COUNT ocsp_module requests_post
    OCSPResponseParser validate_usage build_request urlparse_hostname
    (renew_ocsp_staple OCSP_REQUEST_RETRY_COUNT ocsp_module requests_post
       OCSPResponseParser validate_usage build_request urlparse_hostname (S
       url_index))
    url_index st.
Proof.
  unfold renew_ocsp_staple at 1.
  destruct (length (ocsp_urls (self st))) as [|d] eqn:Hlen;
    cbn [renew_ocsp_staple_rec]; apply renew_ocsp_staple_body_ext;
    intros st1 Hu Hlt; rewrite Hu, Hlen in Hlt; [lia|].
  unfold renew_ocsp_staple.
  apply renew_ocsp_staple_rec_depth; rewrite Hu, Hlen; lia.
Qed.

(** The call on a record that passes the checks at the head of the
    method: the request is built and stored, two records are logged and
    the loop starts. *)
Lemma renew_ocsp_staple_eligible (url_index : nat) (st : state)
    (certificate issuer : Certificate) (url : string) (host : option string) :
  end_entity (self st) = Some certificate ->
  chain (self st) <> [] ->
  ocsp_urls (self st) !! url_index = Some url ->
  urlparse_hostname url = inr host ->
  second_to_last (chain (self st)) = Some issuer ->
  renew_ocsp_staple OCSP_REQUEST_RETRY_COUNT ocsp_module requests_post
    OCSPResponseParser validate_usage build_request urlparse_hostname
    url_index st =
  (LOG DEBUG (Msg_request_data (build_request certificate issuer)) ;;;
   LOG INFO (Msg_trying_url url) ;;;
   exit <- retry_loop ocsp_module requests_post OCSPResponseParser
             (renew_ocsp_staple OCSP_REQUEST_RETRY_COUNT ocsp_module
                requests_post OCSPResponseParser validate_usage build_request
                urlparse_hostname
                (S url_index))
             url url_index (Z.to_nat OCSP_REQUEST_RETRY_COUNT) None ;;
   match exit with
   | Return v => ret v
   | Break staple => persist validate_usage (Some staple)
   | Exhausted => persist validate_usage None
   end)
    {| self :=
         {| filename := filename (self st); hash := hash (self st);
            modtime := modtime (self st); end_entity := Some certificate;
            intermediates := intermediates (self st);
            ocsp_staple := ocsp_staple (self st);
            ocsp_request := Some (build_request certificate issuer);
            ocsp_urls := ocsp_urls (self st); chain := chain (self st);
            valid_until := valid_until (self st) |};
       fs := fs st; posts := posts st |}.
Proof.
  intros Hee Hch Hurl Hhost Hiss. rewrite renew_ocsp_staple_unfold.
  unfold renew_ocsp_staple_body. rewrite bind_get_self.
  rewrite Hee, Hurl, Hhost, Hiss.
  assert (Hlen : (length (chain (self st)) <? 1)%nat = false).
  { destruct (chain (self st)); [congruence | reflexivity]. }
  rewrite Hlen, bind_set_self. reflexivity.
Qed.


(** *** First tries that end the call *)

(** X16: on a URL that [urlparse] splits, when the first POST of a call
    raises one of the network errors the loop names, the handler logs
    one record and the next statement reads the unbound local
    [request]: the call raises [UnboundLocalError] after one POST,
    without waiting, and leaves the files alone. *)
Theorem network_error_on_first_try_raises (url_index : nat) (st : state)
    (certificate issuer : Certificate) (url : string) (host : option string)
    (e : post_exn) :
  end_entity (self st) = Some certificate ->
  chain (self st) <> [] ->
  ocsp_urls (self st) !! url_index = Some url ->
  urlparse_hostname url = inr host ->
  second_to_last (chain (self st)) = Some issuer ->
  0 < OCSP_REQUEST_RETRY_COUNT ->
  requests_post (posts st) url (build_request certificate issuer)
  = HttpRaises e ->
  let x := renew_ocsp_staple OCSP_REQUEST_RETRY_COUNT ocsp_module
             requests_post OCSPResponseParser validate_usage build_request
             urlparse_hostname
             url_index st in
  run_result x =
    Raises (UnboundLocalError
              "local variable 'request' referenced before assignment") /\
  fs (run_state x) = fs st /\
  posts (run_state x) = S (posts st) /\
  exists record,
    is_log record = true /\
    run_events x =
      [EvLog DEBUG (Msg_request_data (build_request certificate issuer));
       EvLog INFO (Msg_trying_url url);
       EvPost url (build_request certificate issuer) (HttpRaises e);
       record].
Proof.
  intros Hee Hch Hurl Hhost Hiss Hcount Hpost. cbv zeta.
  rewrite (renew_ocsp_staple_eligible url_index st certificate issuer url host)
    by assumption.
  destruct (Z.to_nat OCSP_REQUEST_RETRY_COUNT) as [|n] eqn:Hn; [lia|].
  cbn [retry_loop].
  unfold attempt, post_request, LOG.
  unfold bind, emit, get_self, ret, raise.
  cbn [self fs posts ocsp_request from_option id]. rewrite Hpost.
  destruct e; cbn; (split; [reflexivity|]); (split; [reflexivity|]);
    (split; [reflexivity|]); eexists; (split; [| reflexivity]); reflexivity.
Qed.

(** X17: on a URL that [urlparse] splits, when the first POST is answered
    with a status for which [raise_for_status] raises, the handler of
    [HTTPError] reads [request.status], which a response does not have:
    the call raises [AttributeError] after that one POST, logs nothing
    about it and leaves the files alone. *)
Theorem bad_http_status_raises_AttributeError (url_index : nat) (st : state)
    (certificate issuer : Certificate) (url : string) (host : option string)
    (rsp : Response) :
  end_entity (self st) = Some certificate ->
  chain (self st) <> [] ->
  ocsp_urls (self st) !! url_index = Some url ->
  urlparse_hostname url = inr host ->
  second_to_last (chain (self st)) = Some issuer ->
  0 < OCSP_REQUEST_RETRY_COUNT ->
  requests_post (posts st) url (build_request certificate issuer)
  = HttpResponse rsp ->
  raise_for_status_ok rsp = false ->
  let x := renew_ocsp_staple OCSP_REQUEST_RETRY_COUNT ocsp_module
             requests_post OCSPResponseParser validate_usage build_request
             urlparse_hostname
             url_index st in
  run_result x =
    Raises (AttributeError "'Response' object has no attribute 'status'") /\
  fs (run_state x) = fs st /\
  posts (run_state x) = S (posts st) /\
  run_events x =
    [EvLog DEBUG (Msg_request_data (build_request certificate issuer));
     EvLog INFO (Msg_trying_url url);
     EvPost url (build_request certificate issuer) (HttpResponse rsp)].
Proof.
  intros Hee Hch Hurl Hhost Hiss Hcount Hpost Hbad. cbv zeta.
  rewrite (renew_ocsp_staple_eligible url_index st certificate issuer url host)
    by assumption.
  destruct (Z.to_nat OCSP_REQUEST_RETRY_COUNT) as [|n] eqn:Hn; [lia|].
  cbn [retry_loop].
  unfold attempt, post_request, LOG.
  unfold bind, emit, get_self, ret, raise.
  cbn [self fs posts ocsp_request from_option id]. rewrite Hpost, Hbad.
  cbn. repeat split.
Qed.

(** X18: a record whose validated chain holds a single certificate has no
    issuer at [chain[-2]]: on a URL that [urlparse] splits, the call
    raises [IndexError] before it builds a request, with nothing logged,
    sent or changed. *)
Theorem single_certificate_chain_raises_IndexError (url_index : nat)
    (st : state) (certificate only : Certificate) (url : string) (host :
    option string) :
  end_entity (self st) = Some certificate ->
  chain (self st) = [only] ->
  ocsp_urls (self st) !! url_index = Some url ->
  urlparse_hostname url = inr host ->
  renew_ocsp_staple OCSP_REQUEST_RETRY_COUNT ocsp_module requests_post
    OCSPResponseParser validate_usage build_request urlparse_hostname
    url_index st
  = (st, [], Raises (IndexError "list index out of range")).
Proof.
  intros Hee Hch Hurl Hhost. rewrite renew_ocsp_staple_unfold.
  unfold renew_ocsp_staple_body. rewrite bind_get_self.
  rewrite Hee, Hch, Hurl, Hhost. reflexivity.
Qed.



(** What [check_ocsp_response] does with an answer whose status is
    neither good nor revoked. *)
Lemma check_ocsp_response_unknown (staple : bytes) (url : string)
    (st : state) (parsed : OCSPResponse) :
  staple <> [] ->
  OCSPResponseParser staple = inr parsed ->
  status parsed <> "good" ->
  status parsed <> "revoked" ->
  check_ocsp_response OCSPResponseParser staple url st =
    ({| self :=
          {| filename := filename (self st); hash := hash (self st);
             modtime := modtime (self st); end_entity := end_entity (self st);
             intermediates := intermediates (self st);
             ocsp_staple := Some parsed;
             ocsp_request := ocsp_request (self st);
             ocsp_urls := ocsp_urls (self st); chain := chain (self st);
             valid_until := valid_until (self st) |};
        fs := fs st; posts := posts st |},
     [EvLog DEBUG (Msg_response_data staple);
      EvLog INFO (Msg_cant_get_status url)],
     Returns false).
Proof.
  intros Hne Hp Hg Hr. unfold check_ocsp_response, LOG.
  unfold bind, emit, get_self, set_self, ret, raise.
  destruct staple as [|b0 staple]; [congruence|].
  rewrite Hp. apply String.eqb_neq in Hg, Hr. cbn. rewrite Hg, Hr.
  reflexivity.
Qed.

(** X20: with one try for each URL, an answer from a URL that [urlparse]
    splits whose status is neither good nor revoked sends the call on to
    the next URL: what follows is the call at the next index, on the
    record that now holds that answer as its staple.  After the last URL
    the call raises [OCSPRenewError]. *)
Theorem unknown_status_moves_to_next_url (url_index : nat) (st : state)
    (certificate issuer : Certificate) (url : string) (host : option string)
    (rsp : Response)
    (parsed : OCSPResponse) :
  end_entity (self st) = Some certificate ->
  chain (self st) <> [] ->
  ocsp_urls (self st) !! url_index = Some url ->
  urlparse_hostname url = inr host ->
  second_to_last (chain (self st)) = Some issuer ->
  OCSP_REQUEST_RETRY_COUNT = 1 ->
  requests_post (posts st) url (build_request certificate issuer)
  = HttpResponse rsp ->
  raise_for_status_ok rsp = true ->
  content rsp <> [] ->
  OCSPResponseParser (content rsp) = inr parsed ->
  status parsed <> "good" ->
  status parsed <> "revoked" ->
  let st1 :=
    {| self :=
         {| filename := filename (self st); hash := hash (self st);
            modtime := modtime (self st); end_entity := Some certificate;
            intermediates := intermediates (self st);
            ocsp_staple := Some parsed;
            ocsp_request := Some (build_request certificate issuer);
            ocsp_urls := ocsp_urls (self st); chain := chain (self st);
            valid_until := valid_until (self st) |};
       fs := fs st; posts := S (posts st) |} in
  let pre :=
    [EvLog DEBUG (Msg_request_data (build_request certificate issuer));
     EvLog INFO (Msg_trying_url url);
     EvPost url (build_request certificate issuer) (HttpResponse rsp);
     EvLog DEBUG (Msg_response_data (content rsp));
     EvLog INFO (Msg_cant_get_status url)] in
  let next :=
    renew_ocsp_staple OCSP_REQUEST_RETRY_COUNT ocsp_module requests_post
      OCSPResponseParser validate_usage build_request urlparse_hostname (S
      url_index) st1 in
  renew_ocsp_staple OCSP_REQUEST_RETRY_COUNT ocsp_module requests_post
    OCSPResponseParser validate_usage build_request urlparse_hostname
    url_index st =
  if (url_index + 1 <? length (ocsp_urls (self st)))%nat then
    (run_state next, pre ++ run_events next, run_result next)
  else (st1, pre, Raises (OCSPRenewError "Couldn't renew OCSP staple")).
Proof.
  intros Hee Hch Hurl Hhost Hiss Hcount Hpost Hok Hbody Hp Hg Hr. cbv zeta.
  rewrite (renew_ocsp_staple_eligible url_index st certificate issuer url host)
    by assumption.
  replace (Z.to_nat OCSP_REQUEST_RETRY_COUNT) with 1%nat by lia.
  cbn [retry_loop].
  unfold attempt, post_request, LOG.
  unfold bind, emit, get_self, ret, raise.
  cbn [self fs posts ocsp_request from_option id].
  rewrite Hpost, Hok.
  rewrite (check_ocsp_response_unknown (content rsp) url _ parsed)
    by assumption.
  cbn [self fs posts filename hash modtime end_entity intermediates
       ocsp_request ocsp_urls chain valid_until].
  destruct (url_index + 1 <? length (ocsp_urls (self st)))%nat.
  - destruct (renew_ocsp_staple _ _ _ _ _ _ _ (S url_index) _)
      as [[st2 ev2] [v|e|]]; cbn; rewrite ?app_nil_r; reflexivity.
  - reflexivity.
Qed.

End WithEnvironment.

(** *** The module as it is written

    The module imports the constant with [from ocsp import ...], so the
    name [ocsp] of the expression [ocsp.OCSP_REQUEST_RETRY_COUNT] is not
    bound. *)
Section AsWritten.
Variable OCSP_REQUEST_RETRY_COUNT : Z.
Variable requests_post : nat -> string -> bytes -> http_outcome.
Variable OCSPResponseParser : bytes -> exn + OCSPResponse.
Variable validate_usage :
  option Certificate -> list Certificate -> list bytes -> bool ->
  validation_error + list Certificate.
Variable build_request : Certificate -> Certificate -> bytes.
Variable urlparse_hostname : string -> exn + option string.

(** X21: as the module is written no call tries a URL twice or waits:
    it sends each URL at most one POST for each time the URL stands in
    the list from [url_index] on, and never sleeps, whatever the retry
    count is. *)
Theorem no_second_try_without_the_name_ocsp (url_index : nat)
    (st st' : state) (evs : list event) (r : outcome bool) :
  renew_ocsp_staple OCSP_REQUEST_RETRY_COUNT None requests_post
    OCSPResponseParser validate_usage build_request urlparse_hostname
    url_index st
  = (st', evs, r) ->
  (forall url,
     (posts_to url evs <=
      occurrences url (drop url_index (ocsp_urls (self st))))%nat) /\
  forall seconds, ~ In (EvSleep seconds) evs.
Proof.
  intros H. split.
  - intros url.
    pose proof (renew_ocsp_staple_posts_to _ _ _ _ _ _ _ _ _ _ _ _ H url)
      as Hle.
    cbn [tries] in Hle.
    assert (Ht : (Nat.min 1 (Z.to_nat OCSP_REQUEST_RETRY_COUNT) <= 1)%nat)
      by lia.
    nia.
  - apply renew_ocsp_staple_more in H as (_ & _ & _ & H4 & _).
    destruct (H4 eq_refl) as [_ Hs]. exact Hs.
Qed.

(** X22: with two tries or more for each URL, a first answer from a URL
    that [urlparse] splits whose status is neither good nor revoked
    brings the call to the computation of the wait, where the name
    [ocsp] is read: the call raises [NameError] after one POST, with the
    answer left in the record as its staple and no file touched. *)
Theorem unknown_status_raises_NameError (url_index : nat) (st : state)
    (certificate issuer : Certificate) (url : string) (host : option string)
    (rsp : Response)
    (parsed : OCSPResponse) :
  end_entity (self st) = Some certificate ->
  chain (self st) <> [] ->
  ocsp_urls (self st) !! url_index = Some url ->
  urlparse_hostname url = inr host ->
  second_to_last (chain (self st)) = Some issuer ->
  2 <= OCSP_REQUEST_RETRY_COUNT ->
  requests_post (posts st) url (build_request certificate issuer)
  = HttpResponse rsp ->
  raise_for_status_ok rsp = true ->
  content rsp <> [] ->
  OCSPResponseParser (content rsp) = inr parsed ->
  status parsed <> "good" ->
  status parsed <> "revoked" ->
  renew_ocsp_staple OCSP_REQUEST_RETRY_COUNT None requests_post
    OCSPResponseParser validate_usage build_request urlparse_hostname
    url_index st =
  ({| self :=
        {| filename := filename (self st); hash := hash (self st);
           modtime := modtime (self st); end_entity := Some certificate;
           intermediates := intermediates (self st);
           ocsp_staple := Some parsed;
           ocsp_request := Some (build_request certificate issuer);
           ocsp_urls := ocsp_urls (self st); chain := chain (self st);
           valid_until := valid_until (self st) |};
      fs := fs st; posts := S (posts st) |},
   [EvLog DEBUG (Msg_request_data (build_request certificate issuer));
    EvLog INFO (Msg_trying_url url);
    EvPost url (build_request certificate issuer) (HttpResponse rsp);
    EvLog DEBUG (Msg_response_data (content rsp));
    EvLog INFO (Msg_cant_get_status url)],
   Raises (NameError "name 'ocsp' is not defined")).
Proof.
  intros Hee Hch Hurl Hhost Hiss Hcount Hpost Hok Hbody Hp Hg Hr.
  rewrite (renew_ocsp_staple_eligible _ _ _ _ _ _ _ url_index st certificate
             issuer url host) by assumption.
  destruct (Z.to_nat OCSP_REQUEST_RETRY_COUNT) as [|[|n]] eqn:Hn; try lia.
  cbn [retry_loop].
  unfold attempt, post_request, LOG.
  unfold bind, emit, get_self, ret, raise.
  cbn [self fs posts ocsp_request from_option id].
  rewrite Hpost, Hok.
  rewrite (check_ocsp_response_unknown _ (content rsp) url _ parsed)
    by assumption.
  reflexivity.
Qed.

End AsWritten.

(** ** Parsing the certificate file *)
Section Parsing.
Variable validate_usage :
  option Certificate -> list Certificate -> list bytes -> bool ->
  validation_error + list Certificate.
Variable unarmor : bytes -> list pem_item.
Variable Certificate_load : bytes -> option Certificate.

Lemma same_staple_refl (c : CertContext) : same_staple c c.
Proof. unfold same_staple. auto 10. Qed.

Lemma same_staple_trans (c1 c2 c3 : CertContext) :
  same_staple c1 c2 -> same_staple c2 c3 -> same_staple c1 c3.
Proof.
  unfold same_staple.
  intros (A1 & A2 & A3 & A4 & A5 & A6) (B1 & B2 & B3 & B4 & B5 & B6).
  repeat split; congruence.
Qed.

(** The loop over the blocks only logs, and leaves the chain, the
    staple and the counter of POSTs alone. *)
Lemma read_blocks_frame (pem_obj : list pem_item) :
  forall (st st' : state) (evs : list event) (r : outcome unit),
    read_blocks Certificate_load pem_obj st = (st', evs, r) ->
    same_staple (self st) (self st') /\
    chain (self st') = chain (self st) /\
    posts st' = posts st /\
    forallb is_log evs = true.
Proof.
  induction pem_obj as [|item rest IH]; intros st st' evs r.
  - cbn. unfold ret. intros [= <- <- <-].
    split; [apply same_staple_refl | auto].
  - destruct item as [type_name der_bytes| |]; cbn [read_blocks].
    + intros H.
      apply bind_inv in H
        as [(st1 & ev1 & u & ev2 & Hb & Hk & ->)
           | [(e & Hb & ->) | (Hb & ->)]].
      * assert (Hstep : same_staple (self st) (self st1) /\
                        chain (self st1) = chain (self st) /\
                        posts st1 = posts st /\ forallb is_log ev1 = true).
        { destruct (String.eqb type_name "CERTIFICATE").
          - destruct (Certificate_load der_bytes) as [crt|];
              [| discriminate].
            unfold bind, get_self, LOG, emit, set_self in Hb.
            destruct (ca crt); cbn in Hb; injection Hb as <- <- _;
              (split; [unfold same_staple; cbn; auto 10 | auto]).
          - unfold ret in Hb. injection Hb as <- <- _.
            split; [apply same_staple_refl | auto]. }
        destruct Hstep as (S1 & S2 & S3 & S4).
        apply IH in Hk as (K1 & K2 & K3 & K4).
        split; [eapply same_staple_trans; eassumption|].
        split; [congruence|]. split; [congruence|].
        rewrite forallb_app, S4, K4. reflexivity.
      * destruct (String.eqb type_name "CERTIFICATE").
        -- destruct (Certificate_load der_bytes) as [crt|].
           ++ unfold bind, get_self, LOG, emit, set_self in Hb.
              destruct (ca crt); cbn in Hb; discriminate.
           ++ unfold raise in Hb. injection Hb as <- <- _.
              split; [apply same_staple_refl | auto].
        -- discriminate.
      * destruct (String.eqb type_name "CERTIFICATE").
        -- destruct (Certificate_load der_bytes) as [crt|];
             [| discriminate].
           unfold bind, get_self, LOG, emit, set_self in Hb.
           destruct (ca crt); cbn in Hb; discriminate.
        -- discriminate.
    + unfold LOG, emit. intros [= <- <- <-].
      split; [apply same_staple_refl | auto].
    + unfold raise. intros [= <- <- <-].
      split; [apply same_staple_refl | auto].
Qed.

Lemma passive_logs (l : list event) :
  forallb is_log l = true -> forallb passive l = true.
Proof.
  induction l as [|e l IH]; cbn; [reflexivity|].
  intros H. apply andb_true_iff in H as [He Hl].
  destruct e; try discriminate. cbn. auto.
Qed.

Lemma _read_full_chain_frame (st st' : state) (evs : list event)
    (r : outcome unit) :
  _read_full_chain unarmor Certificate_load st = (st', evs, r) ->
  same_staple (self st) (self st') /\
  chain (self st') = chain (self st) /\
  posts st' = posts st /\
  forallb passive evs = true /\
  (fs st !! filename (self st) = None ->
   st' = st /\ evs = [] /\ r = Raises (IOError "No such file")).
Proof.
  unfold _read_full_chain. rewrite bind_get_self. intros H.
  apply bind_inv in H
    as [(st1 & ev1 & contents & ev2 & Ho & Hk & ->)
       | [(e & Ho & ->) | (Ho & ->)]];
    destruct (fs st !! filename (self st)) as [b|] eqn:Hfile;
    try discriminate.
  2: { injection Ho as <- <- <-.
       split; [apply same_staple_refl | auto 10]. }
  injection Ho as <- <- <-.
  apply bind_inv in Hk
    as [(st2 & ev3 & u & ev4 & Hb & Hk & ->)
       | [(e & Hb & ->) | (Hb & ->)]];
    apply read_blocks_frame in Hb as (B1 & B2 & B3 & B4);
    apply passive_logs in B4.
  2,3: split; [assumption|]; split; [assumption|]; split; [assumption|];
    split; [cbn; exact B4 | discriminate].
  rewrite bind_get_self in Hk.
  assert (Hlogs : st' = st2 /\ forallb passive ev4 = true).
  { unfold bind, LOG, emit, ret in Hk.
    destruct (end_entity (self st2));
      destruct (length (intermediates (self st2)) <? 1)%nat;
      cbn in Hk; injection Hk as <- <- _; auto. }
  destruct Hlogs as [-> Hlogs].
  split; [assumption|]. split; [assumption|]. split; [assumption|].
  split; [| discriminate].
  cbn. rewrite forallb_app, B4, Hlogs. reflexivity.
Qed.

(** What [_validate_cert] returns is what the validator gave for the
    end entity and the intermediates of the record. *)
Lemma _validate_cert_more (st st' : state) (evs : list event)
    (r : outcome (list Certificate)) :
  _validate_cert validate_usage st = (st', evs, r) ->
  st' = st /\ forallb passive evs = true /\
  (forall msg, r = Raises (TypeError msg) ->
     validate_usage (end_entity (self st)) (intermediates (self st))
       (context_ocsps (self st)) (context_allow_fetching (self st))
     = inl ValidatorTypeError) /\
  (forall path, r = Returns path ->
     validate_usage (end_entity (self st)) (intermediates (self st))
       (context_ocsps (self st)) (context_allow_fetching (self st))
     = inr path).
Proof.
  unfold _validate_cert, LOG, context_ocsps, context_allow_fetching.
  unfold bind, emit, get_self, ret, raise.
  destruct (ocsp_staple (self st)) as [staple|]; cbn.
  - destruct (validate_usage (end_entity (self st)) (intermediates (self st))
                [data staple] true) as [[]|path];
      cbn; intros [= <- <- <-]; repeat split; try discriminate;
      intros ? [= <-]; reflexivity.
  - destruct (validate_usage (end_entity (self st)) (intermediates (self st))
                [] false) as [[]|path];
      cbn; intros [= <- <- <-]; repeat split; try discriminate;
      intros ? [= <-]; reflexivity.
Qed.

(** What [parse_crt_chain] leaves alone, and what it returns. *)
Lemma parse_crt_chain_frame (st st' : state) (evs : list event)
    (r : outcome unit) :
  parse_crt_chain validate_usage unarmor Certificate_load st = (st', evs, r) ->
  fs st' = fs st /\ posts st' = posts st /\
  same_staple (self st) (self st') /\
  forallb passive evs = true /\
  (forall msg, r <> Raises (TypeError msg)) /\
  (r <> Returns tt -> chain (self st') = chain (self st)) /\
  (r = Returns tt ->
   validate_usage (end_entity (self st')) (intermediates (self st'))
     (context_ocsps (self st')) (context_allow_fetching (self st'))
   = inr (chain (self st'))).
Proof.
  intros H.
  pose proof (parse_crt_chain_spec validate_usage unarmor Certificate_load
                st st' evs r H) as Hspec.
  cbv zeta in Hspec. destruct Hspec as (Hfs & _).
  split; [exact Hfs|].
  unfold parse_crt_chain in H. cbv zeta in H.
  match type of H with
  | match ?body st with _ => _ end = _ =>
      destruct (body st) as [[st1 ev1] r1] eqn:Hbody
  end.
  assert (Hmain :
    posts st1 = posts st /\ same_staple (self st) (self st1) /\
    forallb passive ev1 = true /\
    (r1 <> Returns tt -> chain (self st1) = chain (self st)) /\
    (r1 = Returns tt ->
     validate_usage (end_entity (self st1)) (intermediates (self st1))
       (context_ocsps (self st1)) (context_allow_fetching (self st1))
     = inr (chain (self st1)))).
  { apply bind_inv in Hbody
      as [(st2 & ev2 & u & ev3 & Hread & Hk & ->)
         | [(e & Hread & ->) | (Hread & ->)]];
      apply _read_full_chain_frame in Hread as (R1 & R2 & R3 & R4 & _).
    2,3: split; [assumption|]; split; [assumption|]; split; [assumption|];
      split; [intros _; assumption | discriminate].
    apply bind_inv in Hk
      as [(st3 & ev4 & path & ev5 & Hv & Hk & ->)
         | [(e & Hv & ->) | (Hv & ->)]];
      apply _validate_cert_more in Hv as (-> & V2 & _ & V4).
    2,3: split; [assumption|]; split; [assumption|];
      (split; [rewrite forallb_app, R4, V2; reflexivity|]);
      split; [intros _; assumption | discriminate].
    rewrite bind_get_self in Hk. unfold set_self in Hk.
    injection Hk as <- <- <-. cbn [self posts chain end_entity intermediates].
    split; [assumption|]. split.
    { destruct R1 as (A1 & A2 & A3 & A4 & A5 & A6).
      unfold same_staple. cbn. auto 10. }
    split; [rewrite !forallb_app, R4, V2; reflexivity|].
    split; [congruence|]. intros _.
    unfold context_ocsps, context_allow_fetching. cbn [ocsp_staple].
    exact (V4 path eq_refl). }
  destruct Hmain as (M1 & M2 & M3 & M4 & M5).
  assert (Hout : st' = st1 /\ evs = ev1 /\
                 (forall msg, r <> Raises (TypeError msg)) /\
                 (r = Returns tt <-> r1 = Returns tt)).
  { destruct r1 as [[]|e|]; [| destruct e |]; injection H as <- <- <-;
      (split; [reflexivity|]); (split; [reflexivity|]);
      (split; [intros msg0; discriminate|]); split; intros Hr;
      try reflexivity; try discriminate Hr. }
  destruct Hout as (-> & -> & Hnt & Hiff).
  split; [assumption|]. split; [assumption|]. split; [assumption|].
  split; [assumption|]. split.
  - intros Hr. apply M4. intros Hr1. apply Hr. apply Hiff. exact Hr1.
  - intros Hr. apply M5. apply Hiff. exact Hr.
Qed.

(** X23: [parse_crt_chain] only reads.  Whatever its outcome, it sends
    nothing and writes nothing, and the staple, the request and the
    expiry of the record stay as they were.  It never raises
    [TypeError]: a [TypeError] of the validator comes out as
    [CertValidationError].  The chain of the record changes only when
    the call returns, and is then the path the validator gave for the
    end entity and the intermediates the record holds. *)
Theorem parse_crt_chain_only_reads (st st' : state) (evs : list event)
    (r : outcome unit) :
  parse_crt_chain validate_usage unarmor Certificate_load st = (st', evs, r) ->
  fs st' = fs st /\ posts st' = posts st /\
  same_staple (self st) (self st') /\
  forallb passive evs = true /\
  (forall msg, r <> Raises (TypeError msg)) /\
  (r <> Returns tt -> chain (self st') = chain (self st)) /\
  (r = Returns tt ->
   validate_usage (end_entity (self st')) (intermediates (self st'))
     (context_ocsps (self st')) (context_allow_fetching (self st'))
   = inr (chain (self st'))).
Proof. apply parse_crt_chain_frame. Qed.

(** X24: a certificate file that is not there: the call raises [IOError]
    out of [parse_crt_chain], logs nothing and changes nothing. *)
Theorem parse_crt_chain_without_file (st : state) :
  fs st !! filename (self st) = None ->
  parse_crt_chain validate_usage unarmor Certificate_load st
  = (st, [], Raises (IOError "No such file")).
Proof.
  intros Hfile. unfold parse_crt_chain. cbv zeta.
  unfold _read_full_chain. rewrite bind_assoc, bind_get_self.
  unfold bind at 1. unfold bind at 1. rewrite Hfile. reflexivity.
Qed.

Lemma read_blocks_stops_at_error (pre rest rest' : list pem_item) :
  forall st : state,
    read_blocks Certificate_load (pre ++ PemBinasciiError :: rest) st =
    read_blocks Certificate_load (pre ++ PemBinasciiError :: rest') st.
Proof.
  induction pre as [|item pre IH]; intros st; [reflexivity|].
  destruct item as [type_name der_bytes| |]; cbn [app read_blocks];
    try reflexivity.
  apply bind_ext. intros u st1 ev1 _. apply IH.
Qed.

(** X25: the blocks that follow a block with broken base64 are never
    read: two files that agree up to such a block give the same call,
    store, events and outcome. *)
Theorem blocks_after_a_broken_one_are_ignored (unarmor' : bytes -> list pem_item)
    (st : state) (contents : bytes) (pre rest rest' : list pem_item) :
  fs st !! filename (self st) = Some contents ->
  unarmor contents = pre ++ PemBinasciiError :: rest ->
  unarmor' contents = pre ++ PemBinasciiError :: rest' ->
  parse_crt_chain validate_usage unarmor Certificate_load st =
  parse_crt_chain validate_usage unarmor' Certificate_load st.
Proof.
  intros Hfile Hu Hu'. unfold parse_crt_chain. cbv zeta.
  assert (Hread : _read_full_chain unarmor Certificate_load st
                  = _read_full_chain unarmor' Certificate_load st).
  { unfold _read_full_chain, bind, get_self. rewrite Hfile, Hu, Hu'.
    rewrite (read_blocks_stops_at_error pre rest rest'). reflexivity. }
  unfold bind. rewrite Hread. reflexivity.
Qed.

(** X26: on a record that holds nothing from a file yet, a call that
    returns has filled it from the file: the intermediates are the CA
    certificates of the blocks, in their order; the end entity is the
    last certificate that is not a CA, and the URLs are its URLs; the
    chain is the path the validator gave for them. *)
Theorem parse_crt_chain_fills_the_record (st st' : state) (evs : list event) :
  end_entity (self st) = None ->
  intermediates (self st) = [] ->
  parse_crt_chain validate_usage unarmor Certificate_load st
  = (st', evs, Returns tt) ->
  let pem_obj := file_blocks unarmor st in
  intermediates (self st') = appended_intermediates Certificate_load pem_obj /\
  end_entity (self st') = found_end_entity Certificate_load pem_obj /\
  (forall crt, found_end_entity Certificate_load pem_obj = Some crt ->
     ocsp_urls (self st') = cert_ocsp_urls crt) /\
  validate_usage (found_end_entity Certificate_load pem_obj)
    (appended_intermediates Certificate_load pem_obj)
    (context_ocsps (self st)) (context_allow_fetching (self st))
  = inr (chain (self st')).
Proof.
  intros Hee Hint H. cbv zeta.
  pose proof (parse_crt_chain_spec validate_usage unarmor Certificate_load
                st st' evs _ H) as Hspec.
  cbv zeta in Hspec. destruct Hspec as (_ & _ & Hi & He & Hu).
  pose proof (parse_crt_chain_frame st st' evs _ H)
    as (_ & _ & (_ & _ & _ & Hst & _) & _ & _ & _ & Hchain).
  specialize (Hchain eq_refl).
  rewrite Hint in Hi. cbn [app] in Hi.
  assert (He' : end_entity (self st')
                = found_end_entity Certificate_load (file_blocks unarmor st)).
  { rewrite He, Hee.
    destruct (found_end_entity Certificate_load (file_blocks unarmor st));
      reflexivity. }
  split; [exact Hi|]. split; [exact He'|]. split.
  - intros crt Hf. rewrite Hu, Hf. reflexivity.
  - rewrite <- Hi, <- He'.
    unfold context_ocsps, context_allow_fetching in *. rewrite <- Hst.
    exact Hchain.
Qed.

End Parsing.

(** ** The theorems at work *)
Section AtWork.
Import CertFixtures RenewalFixtures.

Lemma posts_are_bounded_witness :
  let x := renew_ocsp_staple 3 None answers_good parser validator builder
             host_of 0 (start record) in
  (posts_to "http://ocsp.example/" (run_events x) <= 3)%nat /\
  posts_to "http://other.example/" (run_events x) = 0%nat.
Proof.
  cbv zeta.
  destruct (posts_are_bounded 3 None answers_good parser validator builder
              host_of 0 (start record) _ _ _ "http://ocsp.example/"
              (run_eta _)) as [H1 _].
  destruct (posts_are_bounded 3 None answers_good parser validator builder
              host_of 0 (start record) _ _ _ "http://other.example/"
              (run_eta _)) as [_ H2].
  split; [exact H1|]. apply H2.
  intros [Hin | []]. discriminate.
Defined.

Lemma returned_call_leaves_staple_in_place_witness :
  let x := renew_ocsp_staple 3 None answers_good parser validator builder
      host_of 0
             (start record) in
  exists parsed body,
    ocsp_staple (self (run_state x)) = Some parsed /\
    status parsed = "good" /\
    valid_until (self (run_state x)) = Some (staple_valid_until parsed) /\
    parser body = inr parsed /\
    fs (run_state x) !! String.append (filename (self (run_state x))) ".ocsp"
    = Some body.
Proof.
  cbv zeta.
  apply (returned_call_leaves_staple_in_place 3 None answers_good parser
           validator builder host_of 0 (start record) _
           (run_events (renew_ocsp_staple 3 None answers_good parser validator
                          builder host_of 0 (start record))) true).
  vm_compute. reflexivity.
Defined.

Lemma renewal_keeps_certificate_and_other_files_witness :
  let x := renew_ocsp_staple 3 None answers_good parser validator builder
      host_of 0
             (start record) in
  same_certificate record (self (run_state x)) /\
  fs (run_state x) !! "leaf.pem" = Some [x2d].
Proof.
  cbv zeta.
  destruct (renewal_keeps_certificate_and_other_files 3 None answers_good
              parser validator builder host_of 0 (start record) _ _ _ (run_eta
              _))
    as [H1 H2].
  split; [exact H1|]. rewrite H2; [reflexivity | discriminate].
Defined.

Lemma network_error_on_first_try_raises_witness :
  let x := renew_ocsp_staple 3 None resets_twice parser validator builder
      host_of 0
             (start record) in
  run_result x =
    Raises (UnboundLocalError
              "local variable 'request' referenced before assignment") /\
  posts (run_state x) = 1%nat.
Proof.
  cbv zeta.
  destruct (network_error_on_first_try_raises 3 None resets_twice parser
              validator builder host_of 0 (start record) leaf intermediate
              "http://ocsp.example/" (Some "ocsp.example") ConnectionError)
    as (H1 & _ & H3 & _); try reflexivity; try discriminate.
  split; [exact H1 | exact H3].
Defined.

Lemma bad_http_status_raises_AttributeError_witness :
  let x := renew_ocsp_staple 3 None answers_unavailable parser validator
             builder host_of 0 (start record) in
  run_result x =
    Raises (AttributeError "'Response' object has no attribute 'status'") /\
  fs (run_state x) = disk.
Proof.
  cbv zeta.
  destruct (bad_http_status_raises_AttributeError 3 None answers_unavailable
              parser validator builder host_of 0 (start record) leaf
              intermediate
              "http://ocsp.example/" (Some "ocsp.example") (mkResponse false
              []))
    as (H1 & H2 & _); try reflexivity; try discriminate.
  split; [exact H1 | exact H2].
Defined.

Lemma single_certificate_chain_raises_IndexError_witness :
  renew_ocsp_staple 3 None answers_good parser validator builder host_of 0
    (start record_single_chain)
  = (start record_single_chain, [],
     Raises (IndexError "list index out of range")).
Proof.
  apply (single_certificate_chain_raises_IndexError 3 None answers_good parser
           validator builder host_of 0 (start record_single_chain) leaf leaf
           "http://ocsp.example/" (Some "ocsp.example"));
    reflexivity.
Defined.


Lemma unknown_status_moves_to_next_url_witness :
  let x := renew_ocsp_staple 1 None unknown_then_good parser validator builder
      host_of
             0 (start record_two_urls) in
  run_result x = Returns true /\
  posts (run_state x) = 2%nat /\
  fs (run_state x) !! "leaf.pem.ocsp" = Some good_body.
Proof.
  cbv zeta.
  rewrite (unknown_status_moves_to_next_url 1 None unknown_then_good parser
             validator builder host_of 0 (start record_two_urls) leaf
             intermediate
             "http://ocsp.example/" (Some "ocsp.example") (mkResponse true
             unknown_reply)
             (mkOCSPResponse "unknown" 0 unknown_reply));
    try reflexivity; try discriminate.
  vm_compute. repeat split.
Defined.

Lemma no_second_try_without_the_name_ocsp_witness :
  let x := renew_ocsp_staple 3 None answers_unknown parser validator builder
             host_of 0 (start record) in
  (posts_to "http://ocsp.example/" (run_events x) <= 1)%nat /\
  forall seconds, ~ In (EvSleep seconds) (run_events x).
Proof.
  cbv zeta.
  destruct (no_second_try_without_the_name_ocsp 3 answers_unknown parser
              validator builder host_of 0 (start record) _ _ _ (run_eta _))
    as [H1 H2].
  split; [exact (H1 "http://ocsp.example/") | exact H2].
Defined.

Lemma unknown_status_raises_NameError_witness :
  run_result (renew_ocsp_staple 3 None answers_unknown parser validator
                builder host_of 0 (start record))
  = Raises (NameError "name 'ocsp' is not defined").
Proof.
  rewrite (unknown_status_raises_NameError 3 answers_unknown parser validator
             builder host_of 0 (start record) leaf intermediate
             "http://ocsp.example/" (Some "ocsp.example") (mkResponse true
             unknown_reply)
             (mkOCSPResponse "unknown" 0 unknown_reply));
    try reflexivity; try discriminate.
Defined.

Lemma parse_crt_chain_only_reads_witness :
  let x := parse_crt_chain validator pem_blocks loader (start unparsed) in
  fs (run_state x) = disk /\
  posts (run_state x) = 0%nat /\
  forallb passive (run_events x) = true /\
  chain (self (run_state x)) = [root; intermediate; leaf].
Proof.
  cbv zeta.
  destruct (parse_crt_chain_only_reads validator pem_blocks loader
              (start unparsed) _ _ _ (run_eta _))
    as (H1 & H2 & _ & H4 & _ & _ & H7).
  split; [exact H1|]. split; [exact H2|]. split; [exact H4|].
  pose proof (H7 ltac:(vm_compute; reflexivity)) as H.
  exact (eq_sym (f_equal (fun x : validation_error + list Certificate =>
                            match x with inr p => p | inl _ => [] end) H)).
Defined.

Lemma parse_crt_chain_without_file_witness :
  parse_crt_chain validator pem_blocks loader nothing_on_disk
  = (nothing_on_disk, [], Raises (IOError "No such file")).
Proof.
  apply (parse_crt_chain_without_file validator pem_blocks loader
           nothing_on_disk).
  reflexivity.
Defined.

Lemma blocks_after_a_broken_one_are_ignored_witness :
  parse_crt_chain validator broken_blocks loader (start unparsed) =
  parse_crt_chain validator broken_blocks_cut loader (start unparsed) /\
  end_entity
    (self (run_state (parse_crt_chain validator broken_blocks loader
                        (start unparsed)))) = None.
Proof.
  split; [| vm_compute; reflexivity].
  apply (blocks_after_a_broken_one_are_ignored validator broken_blocks loader
           broken_blocks_cut (start unparsed) [x2d]
           [PemBlock "CERTIFICATE" [x02]] [PemBlock "CERTIFICATE" [x01]] []);
    reflexivity.
Defined.

Lemma parse_crt_chain_fills_the_record_witness :
  let x := parse_crt_chain validator pem_blocks loader (start unparsed) in
  intermediates (self (run_state x)) = [intermediate] /\
  end_entity (self (run_state x)) = Some leaf /\
  ocsp_urls (self (run_state x)) = ["http://ocsp.example/"].
Proof.
  cbv zeta.
  assert (Hrun : parse_crt_chain validator pem_blocks loader (start unparsed)
                 = (run_state (parse_crt_chain validator pem_blocks loader
                                 (start unparsed)),
                    run_events (parse_crt_chain validator pem_blocks loader
                                  (start unparsed)),
                    Returns tt))
    by (vm_compute; reflexivity).
  destruct (parse_crt_chain_fills_the_record validator pem_blocks loader
              (start unparsed) _ _ eq_refl eq_refl Hrun)
    as (H1 & H2 & H3 & _).
  split; [exact H1|]. split; [exact H2|].
  apply (H3 leaf). vm_compute. reflexivity.
Defined.

End AtWork.
End CertcontextProps.


Module OcsprenewerProps.
Import Certcontext Traces Ocsprenewer.




Section WithEnvironment.
Variable OCSP_REQUEST_RETRY_COUNT : Z.
Variable ocsp_module : option Z.
Variable requests_post : nat -> string -> bytes -> http_outcome.
Variable OCSPResponseParser : bytes -> exn + OCSPResponse.
Variable validate_usage :
  option Certificate -> list Certificate -> list bytes -> bool ->
  validation_error + list Certificate.
Variable build_request : Certificate -> Certificate -> bytes.
Variable urlparse_hostname : string -> exn + option string.





(** X28: a renewal that raises ends the loop.  When the renewal of the
    first context of the queue raises, [run] raises the same exception:
    the task is not marked done, and the contexts behind it stay in the
    queue and are never looked at. *)
Theorem failed_renewal_ends_the_loop (s : store) (q : RenewQueue)
    (certs : gmap string crt_ref) (crt : crt_ref) (rest : list crt_ref)
    (st' : state) (evs : list event) (e : exn) :
  renew_queue s = Some q ->
  cert_list s = Some certs ->
  queue_items q = crt :: rest ->
  renew_ocsp_staple OCSP_REQUEST_RETRY_COUNT ocsp_module requests_post
    OCSPResponseParser validate_usage build_request urlparse_hostname 0
    {| self := crts s crt; fs := files s; posts := sent s |}
  = (st', evs, Raises e) ->
  run OCSP_REQUEST_RETRY_COUNT ocsp_module requests_post OCSPResponseParser
    validate_usage build_request urlparse_hostname s =
  ({| crts := fun c => if Pos.eqb c crt then self st' else crts s c;
      files := fs st'; sent := posts st';
      renew_queue := Some (mkRenewQueue rest (unfinished_tasks q));
      cert_list := cert_list s; ignore_list := ignore_list s |},
   Info_started :: Info_renewing (filename (crts s crt))
   :: map (Of_context crt) evs,
   Raises e).
Proof.
  intros Hq Hc Hitems Hrun. unfold run. rewrite Hq, Hc, Hitems.
  cbn [serve]. unfold rbind, rlog, call_renew_ocsp_staple.
  rewrite Hq. cbn [crts files sent set_queue renew_queue cert_list ignore_list].
  rewrite Hrun. cbn. rewrite Hc. reflexivity.
Qed.

End WithEnvironment.

(** X29: [_handle_failed_validation] with [ignore] set reads the attribute
    [ignore_list], which the constructor never assigns: as long as
    nothing else has assigned it the call raises [AttributeError] before
    it logs or deletes anything.  With [ignore] unset the call always
    returns, whether the staple file is there or not and whether it can
    be removed or not.  It changes no context and no other file; the
    staple file of the context is gone afterwards when [delete_ocsp] is
    set and the file can be removed, and is as it was otherwise. *)
Theorem _handle_failed_validation_spec (removable : string -> bool)
    (s : store) (crt : crt_ref) (msg : string) (delete_ocsp : bool) :
  (ignore_list s = None ->
   exists text,
     _handle_failed_validation removable crt msg delete_ocsp true s
     = (s, [], Raises (AttributeError text))) /\
  let x := _handle_failed_validation removable crt msg delete_ocsp false s in
  let path := String.append (filename (crts s crt)) ".ocsp" in
  snd x = Returns tt /\
  (forall other, other <> path ->
     files (fst (fst x)) !! other = files s !! other) /\
  files (fst (fst x)) !! path =
    (if delete_ocsp && removable path then None else files s !! path) /\
  crts (fst (fst x)) = crts s.
Proof.
  cbv zeta. split.
  - intros Hnone. unfold _handle_failed_validation, rbind. rewrite Hnone.
    eexists. reflexivity.
  - unfold _handle_failed_validation, rbind, rlog, remove_if_exists, rret.
    destruct delete_ocsp; cbn [andb].
    + destruct (bool_decide
                  (is_Some
                     (files s !! String.append (filename (crts s crt)) ".ocsp")))
        eqn:Hthere;
        destruct (removable (String.append (filename (crts s crt)) ".ocsp"));
        cbn; (split; [reflexivity|]).
      * split; [intros other Hne; apply lookup_delete_ne; congruence|].
        split; [apply lookup_delete_eq | reflexivity].
      * repeat split.
      * split; [reflexivity|]. split; [| reflexivity].
        apply bool_decide_eq_false in Hthere.
        destruct (files s !! String.append (filename (crts s crt)) ".ocsp")
          eqn:Hf; [| reflexivity].
        exfalso. apply Hthere. eexists. reflexivity.
      * repeat split.
    + cbn. repeat split.
Qed.

Section AtWork.
Import CertFixtures RenewerFixtures.



Lemma failed_renewal_ends_the_loop_witness :
  let x := run 3 None answers_revoked parser validator builder host_of
      two_waiting in
  snd x = Raises (OCSPRenewError "Certificate was revoked!") /\
  option_map queue_items (renew_queue (fst (fst x))) = Some [2%positive] /\
  option_map unfinished_tasks (renew_queue (fst (fst x))) = Some 2%nat.
Proof.
  cbv zeta.
  assert (Hrun : renew_ocsp_staple 3 None answers_revoked parser validator
                   builder host_of 0
                   {| self := crts two_waiting 1%positive;
                      fs := files two_waiting; posts := sent two_waiting |}
                 = (run_state (renew_ocsp_staple 3 None answers_revoked parser
                                 validator builder host_of 0 (start record)),
                    run_events (renew_ocsp_staple 3 None answers_revoked
                                  parser validator builder host_of 0 (start
                                  record)),
                    Raises (OCSPRenewError "Certificate was revoked!")))
    by (vm_compute; reflexivity).
  rewrite (failed_renewal_ends_the_loop 3 None answers_revoked parser
             validator builder host_of two_waiting
             (mkRenewQueue [1%positive; 2%positive] 2) ∅ 1%positive
             [2%positive] _ _ _ eq_refl eq_refl eq_refl Hrun).
  split; [reflexivity|]. split; reflexivity.
Defined.

Lemma _handle_failed_validation_spec_witness :
  (exists text,
     _handle_failed_validation (fun _ => true) 1%positive
       "Validation failed for %s" true true two_waiting
     = (two_waiting, [], Raises (AttributeError text))) /\
  files (fst (fst (_handle_failed_validation (fun _ => true) 1%positive
                     "Validation failed for %s" true false two_waiting)))
    !! "leaf.pem.ocsp" = None.
Proof.
  destruct (_handle_failed_validation_spec (fun _ => true) two_waiting
              1%positive "Validation failed for %s" true)
    as (Hraise & _ & _ & Hgone & _).
  split; [exact (Hraise eq_refl) | exact Hgone].
Defined.

End AtWork.

End OcsprenewerProps.
